(* ===== verification/_CoqProject ===== *)
-Q . S2P
Prelude.v
Paths.v
Rounding.v
LabelExtraction.v
Watershed.v
Visualize.v
Loss.v
Orchestrator.v
HookFrames.v
Lifecycle.v
