(* ===== verification/Prelude.v ===== *)
(** * Verification of dna_foci_detection: foci post-processing and training harness

    The repository has one source file,
    [src/dna_foci_detection/models/unet/base_classification_model.py].  It
    turns the per-pixel probability mask of a UNet into discrete foci
    (watershed segmentation, then one circle per labelled region), draws the
    circles on the image, and wraps the classifier in a PyTorch Lightning
    module that computes a BCE loss, keeps the best validation loss and
    checkpoints the configured sub-models when it improves.

    ** How the parts interact

    The training loop calls the hooks of [Model] (lines 145-241).  Each
    evaluation step computes [self.loss] (BCE) and, at batch index [0],
    calls [visualize_predictions] (75-142), which segments the ground truth
    and the thresholded prediction with [watershed_label] (58-72), turns the
    labelled maps into foci with [draw_label_img] (22-46, using
    [max_distance], 14-19) and draws them with [draw_label] (49-55).
    [validation_epoch_end] averages the losses, compares with [best_loss]
    and writes the checkpoints.

    ** Files, in dependency order

    - [Prelude]: Python floats ([pyfloat]: exact finite values in [Q], [inf],
      [nan]) with the setoid equality [=f] and its [Proper] instances,
      [t.stack(...).mean()], [enumerate], [t.max]/[t.min] of 1-d tensors, the
      hint databases [foci]/[foci_rw], the tactics [qlra] and [zdiv_lia],
      and the list lemmas the components share.
    - [Paths]: [os.path.join] and [os.path.dirname] of CPython's
      [posixpath] (the standard library, modelled from its source), with
      the round trip [dirname (join d name) = d] for a slash-free name.
    - [Rounding]: [torch.round] (ties to even) of the focus centre
      ([round_half_even], over [Q]) and of the radius [sqrt d / 2]
      ([round_sqrt_half], in integers); refinement theorems against the
      nearest-integer specification over [Q] and over the Standard
      Library's real numbers.
    - [LabelExtraction]: Module [Labels] models [np.unique], the pixel loops,
      [squeeze(0)], [max_distance] and the per-label focus of
      [draw_label_img]; Module [Draw] models [draw_label] and
      [draw_label_img], with [cv.circle] recorded as a call on a canvas.
      Theorems: the foci are exactly those of the non-zero labels of
      positive extent ([extract_foci_spec]), spec properties 1-3,
      bounding-box bounds of the centre, every drawn circle centred inside
      the image ([drawn_centre_in_image]), the
      radius as [max_distance / 2], and three divergences
      (one-row maps raise, negative labels are kept, radius-1/2 foci drawn
      with radius 0).
    - [Watershed]: the scipy/scikit-image routines as the class [Segmenter]
      with the documented laws [SegmenterLaws]; [watershed_label] composed
      as lines 65-72; foci only ever come from foreground pixels.  A stub
      instance ([StubSegmenter]) serves concrete runs.
    - [Visualize]: [visualize_predictions] with its effect ([VizSkipped],
      [VizSaved], [VizShown]); no-op with fewer than two qualifying samples
      (spec property 4), and otherwise the two panels with the predicted
      circles first and the ground truth on top, each handed to [imshow],
      whose shape check accepts one, three or four channels and raises
      [TypeError] for any other count ([visualize_renders],
      [visualize_bad_channels_raises]); [img.permute(1, 2, 0)] turns a
      [C x H x W] image into an [H x W x C] one entry by entry
      ([permute_120_spec]); the epoch is read back from the figure title
      ([parse_title_roundtrip]).
    - [Loss]: [self.loss] (line 151): both tensors flattened, then
      [BCELoss] with torch's clamp of the logarithm at [-100] and the size
      and input-range checks of torch 1.x (the target-range check of later
      releases is not modelled; labels are [0/1] masks).  Reordering the
      samples of a batch, predictions and labels together, leaves the loss
      unchanged ([loss_sample_perm], spec property 7); bounds [[0, 100]].
    - [Orchestrator]: the classifier as the
      class [Network]; the module's state [orch] (best loss, a [gmap] of
      files, directories, printed/logged events, epoch, and pyplot's
      count of open figures) and the
      state-and-exception monad [PyM], in which an exception keeps the
      writes done before it; the hooks [training_step], [validation_step],
      [test_step], the [*_epoch_end] hooks and the checkpoint loop.
      Theorems: spec property 5, the improving and non-improving cases in
      general, the path of a misconfigured sub-model name, an exception
      from the visualisation aborting the validation step with the
      figure of [plt.subplots] left open, the figure count after a
      visualisation ([run_visualize_figures]: closed on success, leaked when [savefig] or the
      rendering raises, since [plt.close] is not in a [finally]), and the exact
      errors of opening a checkpoint file ([open_checkpoint_spec]: [FileNotFoundError] unless
      [save_path/checkpoint] exists, which nothing creates).
    - [HookFrames]: what each hook does to the state, hook by hook:
      [runs_in R m] (every run of [m], returning or raising, relates its
      initial and final states by the preorder [R]) is closed under
      [py_bind], so the frame of a hook is assembled from its statements.
      Every hook but [validation_epoch_end] keeps [best_loss], the
      directories and the checkpoint files ([frame]; a [.png] figure is
      never a [.pt] checkpoint); no hook but [validation_epoch_end] logs a
      validation loss ([quiet]); the successful runs of [save_checkpoints]
      and [validation_epoch_end]; the checkpoint invariant
      [ckpt_consistent]; and when each single hook returns.
    - [Lifecycle]: the Lightning driver, which is not in the repository and
      is modelled from the spec's section 4.4: [fit] runs epochs of
      [training_step]s (each followed by an optimizer step, a parameter),
      [training_epoch_end], [validation_step]s and [validation_epoch_end].
      [hook_step] is the state machine of single successful hook calls
      (test hooks included) and [fit] refines it ([fit_star]); the
      invariants follow from [HookFrames] by rule induction.  Theorems: the
      checkpoint files always hold the [state_dict]s of one set of weights
      and [best_loss] is a logged validation mean, in every reachable state
      ([reachable_checkpoint_consistent]); [best_loss] never increases
      ([star_best_nonincreasing]); examples: a two-epoch run, and the
      invariant broken by an exception inside the checkpoint loop.  [fit]
      refines a pure reference
      run ([best_run]: fold the optimizer over the training batches, take
      the mean BCE loss of the validation batches, keep the first strictly
      better epoch): [best_loss] and the checkpoint files are those of the
      first best epoch ([fit_refines_best_epoch]).  Under [run_ready]
      (non-empty phases, defined losses, visualisation that does not raise,
      which with [imshow]'s check excludes images of the wrong channel
      count, openable paths) [fit] returns for every number of epochs
      ([fit_progress]), and with finite validation losses and one epoch or
      more a checkpoint exists at the end ([fit_eventually_checkpoints]).
      [configure_optimizers] hands its parameters to the external
      [mate.Optimizer] factory (the class [OptimizerFactory]); [trainer_fit]
      runs [fit] with the optimizer it builds.  No logged validation loss
      is below [best_loss] ([reachable_best_below_logs]), so [best_loss]
      is their minimum.  [run_test]
      is the test phase ([test_step] over the test batches, then
      [test_epoch_end]): its result is the reference mean test loss and it
      leaves the checkpoints and [best_loss] alone ([run_test_spec]).  In
      every reachable state no figure is open ([reachable_no_open_figures]).

    ** Numbers and bounds

    Finite floats are exact rationals: float32 rounding of means and
    losses is not modelled (the means are exact while coordinate sums stay
    below 2^24).  The radius [sqrt d / 2] is represented by the integer [d],
    so no real arithmetic is needed to execute the model; [Rounding] proves
    that the integer computation is the rounding of the real value.  No
    definition uses fuel: every recursion is structural.

    ** Not modelled

    The network architecture, data loading and the optimizer's update rule
    ([configure_optimizers] delegates to [mate.Optimizer], whose step
    stays abstract); the internals of
    scipy/scikit-image (only their documented contract); OpenCV's raster
    algorithm and matplotlib's rendering and layout (the calls are
    recorded, the number of open figures is state, and [imshow]'s shape
    check is the one matplotlib error modelled; [savefig] raises only for
    the paths [open] refuses); tensor serialisation by [t.save] (a
    checkpoint file holds the [state_dict] value) and reloading it with
    [load_state_dict], which is torch's, so spec property 6 is not claimed;
    of [open]'s errors only [IsADirectoryError] and [FileNotFoundError]
    (the state has no permissions, and a missing parent directory whose
    ancestor is a regular file, [NotADirectoryError] in Python, is reported
    as [FileNotFoundError]); float32 rounding and torch's target-range
    check of [BCELoss];
    Lightning's sanity-check validation pass before the first epoch, its
    running the validation loop before [training_epoch_end] (the driver
    follows the spec's order; [training_epoch_end] only logs, and the
    invariants over [hook_step] hold for any order), and its handling of an
    exception escaping a hook (the run stops). *)

From Stdlib Require Import ZArith QArith Qround List Sorted Permutation Lia Lqa.
From Stdlib Require Import Morphisms RelationClasses.
Import ListNotations.

Declare Scope foci_scope.
Delimit Scope foci_scope with foci.

(** ** Python floats

    The harness compares losses against [float("inf")] and averages
    tensors; a mean over an empty tensor is [nan].  Finite values are kept
    exact in [Q]: rounding of 32-bit floats is not modelled. *)
Inductive pyfloat : Type :=
| Fin (q : Q)
| Inf
| NaN.

(** [a < b] on Python floats: false whenever [nan] is involved. *)
Definition py_lt (a b : pyfloat) : bool :=
  match a, b with
  | Fin x, Fin y => negb (Qle_bool y x)
  | Fin _, Inf => true
  | _, _ => false
  end.

(** Equality of Python floats up to [==] on their rational value ([nan]
    is related to itself, as a model value, not as a float). *)
Definition py_eq (a b : pyfloat) : Prop :=
  match a, b with
  | Fin x, Fin y => x == y
  | Inf, Inf | NaN, NaN => True
  | _, _ => False
  end.

Notation "a =f b" := (py_eq a b) (at level 70, no associativity) : foci_scope.
Open Scope foci_scope.

#[export] Instance py_eq_equiv : Equivalence py_eq.
Proof.
  split.
  - intros [x| |]; simpl; auto. reflexivity.
  - intros [x| |] [y| |]; simpl; auto. intros H; now symmetry.
  - intros [x| |] [y| |] [z| |]; simpl; try tauto. intros H1 H2. now rewrite H1.
Qed.

#[export] Instance py_lt_proper : Proper (py_eq ==> py_eq ==> eq) py_lt.
Proof.
  intros [x| |] [x'| |] Hx [y| |] [y'| |] Hy; simpl in *; try tauto; try reflexivity.
  destruct (Qle_bool y x) eqn:E1, (Qle_bool y' x') eqn:E2; try reflexivity; exfalso.
  - apply Qle_bool_iff in E1. rewrite Hx, Hy in E1. apply Qle_bool_iff in E1. congruence.
  - apply Qle_bool_iff in E2. rewrite <- Hx, <- Hy in E2. apply Qle_bool_iff in E2. congruence.
Qed.

Lemma py_lt_Fin x y : py_lt (Fin x) (Fin y) = true <-> x < y.
Proof.
  cbn. rewrite Bool.negb_true_iff, <- Bool.not_true_iff_false, Qle_bool_iff.
  split; [apply Qnot_le_lt | apply Qlt_not_le].
Qed.

Lemma py_lt_irrefl a : py_lt a a = false.
Proof. destruct a as [x| |]; [apply Bool.negb_false_iff, Qle_bool_iff, Qle_refl | reflexivity..]. Qed.

Lemma py_lt_trans a b c : py_lt a b = true -> py_lt b c = true -> py_lt a c = true.
Proof.
  destruct a as [x| |], b as [y| |], c as [z| |]; intros H1 H2;
    try discriminate H1; try discriminate H2; try reflexivity.
  apply py_lt_Fin in H1, H2. apply py_lt_Fin. eapply Qlt_trans; eassumption.
Qed.

(** [py_eq] lifted to results that may be an exception ([None]). *)
Definition opt_py_eq (a b : option pyfloat) : Prop :=
  match a, b with
  | Some x, Some y => x =f y
  | None, None => True
  | _, _ => False
  end.

(** [a + b] on Python floats ([-inf] never arises in the harness). *)
Definition py_add (a b : pyfloat) : pyfloat :=
  match a, b with
  | Fin x, Fin y => Fin (x + y)
  | NaN, _ | _, NaN => NaN
  | _, _ => Inf
  end.

(** [a / n] for a positive count [n]. *)
Definition py_div_nat (a : pyfloat) (n : nat) : pyfloat :=
  match a with
  | Fin x => Fin (x / inject_Z (Z.of_nat n))
  | other => other
  end.

Definition py_sum (l : list pyfloat) : pyfloat := fold_right py_add (Fin 0) l.

(** [t.stack(l).mean()]: [None] is the [RuntimeError] of [t.stack] on an
    empty list. *)
Definition stack_mean (l : list pyfloat) : option pyfloat :=
  match l with
  | [] => None
  | _ => Some (py_div_nat (py_sum l) (length l))
  end.

(** ** Lists *)

(** Python's [enumerate] with integer indices starting at [k]. *)
Fixpoint enum_from {A} (k : Z) (l : list A) : list (Z * A) :=
  match l with
  | [] => []
  | x :: l' => (k, x) :: enum_from (k + 1) l'
  end.

Definition enumerate {A} (l : list A) : list (Z * A) := enum_from 0 l.

(** [t.max] and [t.min] of a 1-d tensor: [None] on an empty tensor, where
    torch raises. *)
Definition list_max (l : list Z) : option Z :=
  match l with [] => None | x :: l' => Some (fold_left Z.max l' x) end.

Definition list_min (l : list Z) : option Z :=
  match l with [] => None | x :: l' => Some (fold_left Z.min l' x) end.

Definition Zsum (l : list Z) : Z := fold_right Z.add 0%Z l.

(** [t.mean] of a non-empty 1-d tensor of integers, exactly. *)
Definition Qmean (l : list Z) : Q := inject_Z (Zsum l) / inject_Z (Z.of_nat (length l)).

(** A loop over a list that stops at the first exception ([None]). *)
Fixpoint otraverse {A B} (f : A -> option B) (l : list A) : option (list B) :=
  match l with
  | [] => Some []
  | x :: l' => match f x with
               | None => None
               | Some y => match otraverse f l' with None => None | Some ys => Some (y :: ys) end
               end
  end.

Create HintDb foci discriminated.
Create Rewrite HintDb foci_rw.

(** ** Generic lemmas *)

Lemma In_enum_from {A} (l : list A) k i x :
  In (i, x) (enum_from k l) <->
  (k <= i)%Z /\ nth_error l (Z.to_nat (i - k)) = Some x.
Proof.
  revert k; induction l as [|y l IH]; intros k; simpl.
  - split; [tauto|]. intros [_ H]. destruct (Z.to_nat _); discriminate.
  - rewrite IH. split.
    + intros [H | [Hk Hn]].
      * injection H as <- <-. split; [lia|]. now rewrite Z.sub_diag.
      * split; [lia|]. replace (Z.to_nat (i - k)) with (S (Z.to_nat (i - (k + 1)))) by lia.
        exact Hn.
    + intros [Hk Hn]. destruct (Z.eq_dec i k) as [->|Hne].
      * left. rewrite Z.sub_diag in Hn. simpl in Hn. now injection Hn as ->.
      * right. split; [lia|].
        replace (Z.to_nat (i - k)) with (S (Z.to_nat (i - (k + 1)))) in Hn by lia. exact Hn.
Qed.

Lemma In_enumerate {A} (l : list A) i x :
  In (i, x) (enumerate l) <-> (0 <= i)%Z /\ nth_error l (Z.to_nat i) = Some x.
Proof. unfold enumerate. rewrite In_enum_from. now rewrite Z.sub_0_r. Qed.

Lemma map_snd_enum_from {A} (l : list A) k : map snd (enum_from k l) = l.
Proof. revert k; induction l; intros k; simpl; f_equal; auto. Qed.

Lemma fold_max_ge l x : (x <= fold_left Z.max l x)%Z /\ Forall (fun y => y <= fold_left Z.max l x)%Z l.
Proof.
  revert x; induction l as [|y l IH]; intros x; simpl; [split; [lia | constructor]|].
  destruct (IH (Z.max x y)) as [H1 H2]. split; [lia|]. constructor; [lia | exact H2].
Qed.

Lemma fold_min_le l x : (fold_left Z.min l x <= x)%Z /\ Forall (fun y => fold_left Z.min l x <= y)%Z l.
Proof.
  revert x; induction l as [|y l IH]; intros x; simpl; [split; [lia | constructor]|].
  destruct (IH (Z.min x y)) as [H1 H2]. split; [lia|]. constructor; [lia | exact H2].
Qed.

Lemma list_max_spec l m : list_max l = Some m -> forall y, In y l -> (y <= m)%Z.
Proof.
  destruct l as [|x l]; simpl; [discriminate|]. intros [= <-] y [<- | Hy].
  - apply fold_max_ge.
  - pose proof (proj2 (fold_max_ge l x)) as H. rewrite Forall_forall in H. auto.
Qed.

Lemma list_min_spec l m : list_min l = Some m -> forall y, In y l -> (m <= y)%Z.
Proof.
  destruct l as [|x l]; simpl; [discriminate|]. intros [= <-] y [<- | Hy].
  - apply fold_min_le.
  - pose proof (proj2 (fold_min_le l x)) as H. rewrite Forall_forall in H. auto.
Qed.

Lemma list_max_Some l : l <> [] -> exists m, list_max l = Some m.
Proof. destruct l; [congruence | eexists; reflexivity]. Qed.

Lemma list_min_Some l : l <> [] -> exists m, list_min l = Some m.
Proof. destruct l; [congruence | eexists; reflexivity]. Qed.

Lemma list_max_singleton x : list_max [x] = Some x.
Proof. reflexivity. Qed.

Lemma list_min_singleton x : list_min [x] = Some x.
Proof. reflexivity. Qed.

Lemma Sorted_lt_NoDup (l : list Z) : Sorted Z.lt l -> NoDup l.
Proof.
  intros Hs. apply Sorted_StronglySorted in Hs; [|intros a b c; lia].
  induction Hs as [|a l _ IH Hall]; constructor; [|exact IH].
  intros Hin. rewrite Forall_forall in Hall. specialize (Hall a Hin). lia.
Qed.

Lemma filter_all_false {A} (f : A -> bool) (l : list A) :
  (forall x, In x l -> f x = false) -> filter f l = [].
Proof.
  induction l as [|x l IH]; intros H; simpl; [reflexivity|].
  rewrite (H x (or_introl eq_refl)). apply IH. intros y Hy. apply H. now right.
Qed.

(** A duplicate-free list whose only member is [v] is [[v]]. *)
Lemma NoDup_only_singleton {A} (l : list A) (v : A) :
  NoDup l -> (forall x, In x l <-> x = v) -> l = [v].
Proof.
  intros Hnd Hin. destruct l as [|a [|b l]].
  - destruct (proj2 (Hin v) eq_refl).
  - f_equal. apply Hin. now left.
  - exfalso. inversion Hnd as [|? ? Hna _]; subst. apply Hna.
    rewrite (proj1 (Hin a) (or_introl eq_refl)), <- (proj1 (Hin b) (or_intror (or_introl eq_refl))).
    now left.
Qed.

Lemma Zsum_bounds (l : list Z) (a b : Z) :
  Forall (fun y => a <= y <= b)%Z l ->
  (Z.of_nat (length l) * a <= Zsum l <= Z.of_nat (length l) * b)%Z.
Proof.
  induction 1; unfold Zsum in *; cbn [length fold_right]; [lia|].
  rewrite Nat2Z.inj_succ, !Z.mul_succ_l. lia.
Qed.

(** A mean lies between any bounds of its (non-empty) list. *)
Lemma Qmean_bounds (l : list Z) (a b : Z) : l <> [] ->
  Forall (fun y => a <= y <= b)%Z l -> inject_Z a <= Qmean l <= inject_Z b.
Proof.
  intros Hne Hb. apply Zsum_bounds in Hb.
  assert (0 < Z.of_nat (length l))%Z as Hn by (destruct l; [congruence | simpl; lia]).
  unfold Qmean. rewrite Zlt_Qlt in Hn. split.
  - apply Qle_shift_div_l; [exact Hn|]. rewrite <- inject_Z_mult, <- Zle_Qle. lia.
  - apply Qle_shift_div_r; [exact Hn|]. rewrite <- inject_Z_mult, <- Zle_Qle. lia.
Qed.

Lemma otraverse_Some {A B} (f : A -> option B) l :
  (forall x, In x l -> exists y, f x = Some y) ->
  exists ys, otraverse f l = Some ys /\ Forall2 (fun x y => f x = Some y) l ys.
Proof.
  induction l as [|x l IH]; intros H; simpl; [eauto|].
  destruct (H x (or_introl eq_refl)) as [y Hy]. rewrite Hy.
  destruct IH as [ys [Hys HF]]; [intros; apply H; now right|]. rewrite Hys. eauto.
Qed.

(** The mean of a non-empty list of finite floats is finite. *)
Lemma stack_mean_Fin (l : list pyfloat) :
  l <> [] -> Forall (fun v => exists q, v = Fin q) l -> exists q, stack_mean l = Some (Fin q).
Proof.
  intros Hne Hf. destruct l as [|v l]; [contradiction|].
  assert (exists q, py_sum (v :: l) = Fin q) as [q Hq].
  { clear Hne. induction Hf as [|x xs [qx ->] _ [qs Hs]]; [now exists 0|].
    exists (qx + qs). cbn. unfold py_sum in Hs. now rewrite Hs. }
  exists (q / inject_Z (Z.of_nat (length (v :: l)))). cbn [stack_mean]. now rewrite Hq.
Qed.

Lemma In_firstn {A} n (l : list A) x : In x (firstn n l) -> In x l.
Proof. intros H. rewrite <- (firstn_skipn n l). apply in_or_app. now left. Qed.

Lemma nth_error_nth_lt {A} (l : list A) n (d : A) :
  (n < length l)%nat -> nth_error l n = Some (nth n l d).
Proof. apply nth_error_nth'. Qed.

#[export] Hint Resolve list_max_spec list_min_spec : foci.
#[export] Hint Rewrite list_max_singleton list_min_singleton : foci_rw.

(** ** Tactics *)

(** [lra] over [Q] after pushing [inject_Z] through sums: [lra] treats
    [inject_Z 1] as an unknown, so it is turned into the constant first. *)
Ltac qlra :=
  rewrite ?inject_Z_plus in *; change (inject_Z 1) with 1 in *; Lqa.lra.

(** [lia] with [Z.div] and [Z.modulo] by constants turned into their
    Euclidean equations first. *)
Ltac zdiv_lia := Z.to_euclidean_division_equations; lia.
