(* ===== verification/Paths.v ===== *)
(** * File paths ([posixpath] of Python's standard library)

    The module builds its output paths with [os.path.join] (lines 189,
    204-209, 225) and Python's [open] and [plt.savefig] need the directory
    of a path, [os.path.dirname], to exist.  Both functions are not in the
    repository; they are modelled from CPython's [posixpath] and shown to
    agree on the paths the module builds: the directory of a joined path is
    the directory it was joined to (a round trip), from which distinct
    checkpoint names give distinct files. *)

From Stdlib Require Import String Ascii List Lia.
Import ListNotations.
Local Open Scope bool_scope.

(** ** [posixpath.join] and [posixpath.dirname] (Python's standard library) *)
Module PosixPath.

Definition is_slash (c : ascii) : bool := Ascii.eqb c "/"%char.

Definition starts_with_slash (s : string) : bool :=
  match s with String c _ => is_slash c | EmptyString => false end.

Definition ends_with_slash (s : string) : bool :=
  match rev (list_ascii_of_string s) with c :: _ => is_slash c | [] => false end.

(** One step of [os.path.join(a, *p)]. *)
Definition join2 (path b : string) : string :=
  if starts_with_slash b then b
  else if String.eqb path "" || ends_with_slash path then (path ++ b)%string
  else (path ++ "/" ++ b)%string.

Definition path_join (a : string) (p : list string) : string := fold_left join2 p a.

Fixpoint drop_while {A} (f : A -> bool) (l : list A) : list A :=
  match l with x :: l' => if f x then drop_while f l' else l | [] => [] end.

(** [os.path.dirname]: the part up to the last slash, trailing slashes
    removed unless it consists only of slashes. *)
Definition dirname (p : string) : string :=
  let head := rev (drop_while (fun c => negb (is_slash c)) (rev (list_ascii_of_string p))) in
  if forallb is_slash head then string_of_list_ascii head
  else string_of_list_ascii (rev (drop_while is_slash (rev head))).

(** *** Lemmas on strings and paths *)

Lemma list_ascii_app (s1 s2 : string) :
  list_ascii_of_string (s1 ++ s2) = list_ascii_of_string s1 ++ list_ascii_of_string s2.
Proof. induction s1 as [|c s1 IH]; simpl; [reflexivity | now rewrite IH]. Qed.

Lemma list_ascii_inj (s1 s2 : string) : list_ascii_of_string s1 = list_ascii_of_string s2 -> s1 = s2.
Proof.
  intros H. rewrite <- (string_of_list_ascii_of_string s1), <- (string_of_list_ascii_of_string s2).
  now f_equal.
Qed.

Lemma string_app_assoc (a b c : string) : ((a ++ b) ++ c)%string = (a ++ (b ++ c))%string.
Proof. apply list_ascii_inj. rewrite !list_ascii_app. symmetry. apply app_assoc. Qed.

Lemma string_app_inv_l (p a b : string) : (p ++ a)%string = (p ++ b)%string -> a = b.
Proof.
  intros H%(f_equal list_ascii_of_string). rewrite !list_ascii_app in H.
  apply list_ascii_inj. eapply app_inv_head. exact H.
Qed.

Lemma string_app_inv_r (a b t : string) : (a ++ t)%string = (b ++ t)%string -> a = b.
Proof.
  intros H%(f_equal list_ascii_of_string). rewrite !list_ascii_app in H.
  apply list_ascii_inj. eapply app_inv_tail. exact H.
Qed.

(** Joining a relative component appends it after a separator that depends
    only on the left part. *)
Lemma join2_relative (path b : string) : starts_with_slash b = false ->
  join2 path b = ((if String.eqb path "" || ends_with_slash path then path
                   else path ++ "/") ++ b)%string.
Proof.
  intros Hb. unfold join2. rewrite Hb.
  destruct (String.eqb path "" || ends_with_slash path); [reflexivity|].
  now rewrite string_app_assoc.
Qed.

Lemma starts_with_slash_app (n t : string) :
  starts_with_slash n = false -> starts_with_slash t = false ->
  starts_with_slash (n ++ t) = false.
Proof. destruct n; simpl; auto. Qed.

(** A path component without any slash (a file or directory name). *)
Definition no_slash (s : string) : bool :=
  forallb (fun c => negb (is_slash c)) (list_ascii_of_string s).

Lemma join2_suffix path b : exists pre, join2 path b = (pre ++ b)%string.
Proof.
  unfold join2. destruct (starts_with_slash b); [now exists ""%string|].
  destruct (String.eqb path "" || ends_with_slash path); [now exists path|].
  exists (path ++ "/")%string. now rewrite string_app_assoc.
Qed.

Lemma no_slash_start b : no_slash b = true -> starts_with_slash b = false.
Proof. destruct b as [|c b]; [reflexivity|]. cbn. now destruct (is_slash c). Qed.

Lemma drop_while_all {A} (f : A -> bool) (l m : list A) :
  forallb f l = true -> drop_while f (l ++ m) = drop_while f m.
Proof.
  induction l as [|x l IH]; [reflexivity|]. cbn. intros (-> & Hl)%andb_prop. now apply IH.
Qed.

Lemma ends_with_slash_app (a b : string) :
  b <> ""%string -> ends_with_slash (a ++ b) = ends_with_slash b.
Proof.
  intros Hb. unfold ends_with_slash. rewrite list_ascii_app, rev_app_distr.
  destruct (rev (list_ascii_of_string b)) eqn:E; [|reflexivity].
  apply (f_equal (@rev ascii)) in E. rewrite rev_involutive in E.
  destruct b; [contradiction | discriminate].
Qed.

(** The last character of a non-empty path that does not end with a
    slash. *)
Lemma ends_with_slash_last d : d <> ""%string -> ends_with_slash d = false ->
  exists c r, rev (list_ascii_of_string d) = c :: r /\ is_slash c = false.
Proof.
  unfold ends_with_slash. destruct (rev (list_ascii_of_string d)) as [|c r] eqn:E; intros Hd He.
  - apply (f_equal (@rev ascii)) in E. rewrite rev_involutive in E.
    destruct d; [contradiction | discriminate].
  - eauto.
Qed.

Lemma no_slash_app a b : no_slash (a ++ b) = no_slash a && no_slash b.
Proof. unfold no_slash. now rewrite list_ascii_app, forallb_app. Qed.

(** A directory joined to a non-empty name without a trailing slash is a
    directory path [dirname] gives back. *)
Lemma join2_dir_shape p b :
  b <> ""%string -> ends_with_slash b = false ->
  join2 p b <> ""%string /\ ends_with_slash (join2 p b) = false.
Proof.
  intros Hb He. destruct (join2_suffix p b) as [pre ->]. split.
  - destruct pre; cbn; [exact Hb | discriminate].
  - now rewrite ends_with_slash_app.
Qed.

Lemma forallb_rev {A} (f : A -> bool) (l : list A) : forallb f (rev l) = forallb f l.
Proof.
  induction l as [|x l IH]; [reflexivity|]. cbn. rewrite forallb_app, IH. cbn.
  now rewrite Bool.andb_true_r, Bool.andb_comm.
Qed.

(** Round trip of [os.path.join] and [os.path.dirname]: joining a
    slash-free name to a non-empty directory path without a trailing slash
    and taking the directory gives that path back. *)
Lemma dirname_join2 d b :
  d <> ""%string -> ends_with_slash d = false -> no_slash b = true -> dirname (join2 d b) = d.
Proof.
  intros Hd He Hb. destruct (ends_with_slash_last d Hd He) as (c & r & Er & Hc).
  unfold join2. rewrite (no_slash_start b Hb), (proj2 (String.eqb_neq _ _) Hd), He. cbn [orb].
  unfold dirname. rewrite !list_ascii_app. cbn [list_ascii_of_string app].
  rewrite rev_app_distr. cbn [rev]. rewrite <- app_assoc, drop_while_all by
    (rewrite forallb_rev; exact Hb).
  cbn [app drop_while]. change (negb (is_slash "/"%char)) with false. cbv iota.
  cbn [rev]. rewrite rev_involutive.
  assert (forallb is_slash (list_ascii_of_string d ++ ["/"%char]) = false) as Hf.
  { rewrite <- forallb_rev, rev_app_distr, Er. cbn. now rewrite Hc. }
  rewrite Hf, rev_app_distr. cbn [rev app drop_while]. change (is_slash "/"%char) with true.
  cbv iota. rewrite Er. cbn [drop_while]. rewrite Hc, <- Er, rev_involutive.
  apply string_of_list_ascii_of_string.
Qed.

End PosixPath.
