(* ===== verification/Rounding.v ===== *)
(** * Rounding of focus descriptors ([draw_label], line 51)

    [draw_label] rounds every entry of a focus with [t.round(label).int()]:
    the two centre coordinates, which are exact rationals (means of pixel
    indices), and the radius [sqrt(d)/2], where [d] is the squared
    bounding-box diagonal of the region.  [torch.round] rounds half to
    even.  This file defines both roundings executably and proves that they
    compute the nearest integer (ties to even) of the exact value: over [Q]
    for the centre, over the real numbers of the Standard Library for the
    radius. *)

From Stdlib Require Import ZArith QArith Qround Reals Lra Lia Lqa.
From S2P Require Import Prelude.

(** ** Specification: nearest integer, ties to even *)

Definition nearest_even (q : Q) (k : Z) : Prop :=
  (inject_Z k - (1#2) < q /\ q < inject_Z k + (1#2)) \/
  ((q == inject_Z k - (1#2) \/ q == inject_Z k + (1#2)) /\ Z.even k = true).

Definition nearest_even_R (x : R) (k : Z) : Prop :=
  ((IZR k - /2 < x)%R /\ (x < IZR k + /2)%R) \/
  ((x = IZR k - /2 \/ x = IZR k + /2)%R /\ Z.even k = true).

(** ** [torch.round] on an exact rational *)

Definition round_half_even (q : Q) : Z :=
  let f := Qfloor q in
  match Qcompare (q - inject_Z f) (1#2) with
  | Lt => f
  | Gt => f + 1
  | Eq => if Z.even f then f else f + 1
  end.

(** ** [torch.round] of the radius [sqrt(d)/2], in integers

    With [s = Z.sqrt d], the value [sqrt(d)/2] is a tie [m + 1/2] exactly
    when [d] is the square of the odd number [s = 2m+1]; otherwise the
    nearest integer is [(s+1)/2]. *)
Definition round_sqrt_half (d : Z) : Z :=
  let s := Z.sqrt d in
  if (s * s =? d)%Z && Z.odd s then
    let m := (s / 2)%Z in if Z.even m then m else (m + 1)%Z
  else ((s + 1) / 2)%Z.

(** ** Lemmas *)

Lemma inject_Z_lt_iff (a b : Z) : inject_Z a < inject_Z b <-> (a < b)%Z.
Proof. now rewrite Zlt_Qlt. Qed.

Lemma inject_Z_le_iff (a b : Z) : inject_Z a <= inject_Z b <-> (a <= b)%Z.
Proof. now rewrite Zle_Qle. Qed.

Lemma inject_Z_succ (a : Z) : inject_Z (a + 1) == inject_Z a + 1.
Proof. now rewrite inject_Z_plus. Qed.

Lemma Z_even_succ_neg (k : Z) : Z.even (k + 1) = negb (Z.even k).
Proof. rewrite Z.even_add. now destruct (Z.even k). Qed.

(** Two integers within distance [1] of each other are equal or adjacent. *)
Lemma Z_close_cases (a b : Z) :
  inject_Z a - 1 <= inject_Z b -> inject_Z b <= inject_Z a + 1 ->
  b = a \/ b = (a + 1)%Z \/ b = (a - 1)%Z.
Proof.
  intros H1 H2.
  assert (inject_Z (a + -1) <= inject_Z b) as H1'
    by (rewrite inject_Z_plus; exact H1).
  assert (inject_Z b <= inject_Z (a + 1)) as H2' by (rewrite inject_Z_plus; exact H2).
  rewrite inject_Z_le_iff in H1', H2'. lia.
Qed.

#[export] Hint Rewrite inject_Z_plus Z_even_succ_neg : foci_rw.

(** ** Theorems over [Q] *)

(** [round_half_even] meets the specification. *)
Lemma round_half_even_spec (q : Q) : nearest_even q (round_half_even q).
Proof.
  unfold round_half_even, nearest_even. cbv zeta.
  pose proof (Qfloor_le q) as Hlo. pose proof (Qlt_floor q) as Hhi.
  set (f := Qfloor q) in *. rewrite inject_Z_plus in Hhi.
  destruct (Qcompare_spec (q - inject_Z f) (1#2)) as [E|L|G].
  - destruct (Z.even f) eqn:He.
    + right. split; [right; lra | exact He].
    + right. split; [left; qlra |].
      rewrite Z_even_succ_neg, He. reflexivity.
  - left. split; lra.
  - left. split; qlra.
Qed.

(** The specification determines the integer. *)
Lemma nearest_even_unique (q : Q) (k1 k2 : Z) :
  nearest_even q k1 -> nearest_even q k2 -> k1 = k2.
Proof.
  unfold nearest_even. intros H1 H2.
  assert (inject_Z k1 - 1 <= inject_Z k2 /\ inject_Z k2 <= inject_Z k1 + 1) as [Ha Hb]
    by (destruct H1 as [H1|[[H1|H1] _]]; destruct H2 as [H2|[[H2|H2] _]]; split; lra).
  destruct (Z_close_cases k1 k2 Ha Hb) as [-> | [-> | ->]]; [reflexivity | |].
  - destruct H1 as [H1|[[H1|H1] E1]]; destruct H2 as [H2|[[H2|H2] E2]]; try qlra;
      rewrite Z_even_succ_neg, E1 in E2; discriminate.
  - assert (inject_Z k1 == inject_Z (k1 - 1) + 1) as Hk
      by (rewrite <- inject_Z_succ; now rewrite Z.sub_add).
    destruct H1 as [H1|[[H1|H1] E1]]; destruct H2 as [H2|[[H2|H2] E2]];
      try (change (inject_Z 1) with 1 in Hk; lra);
      replace k1 with ((k1 - 1) + 1)%Z in E1 by lia;
      rewrite Z_even_succ_neg, E2 in E1; discriminate.
Qed.

(** C9: Refinement: [round_half_even q] is exactly the integer nearest to [q],
    ties going to the even neighbour, i.e. what [torch.round] returns. *)
Theorem round_half_even_iff (q : Q) (k : Z) :
  round_half_even q = k <-> nearest_even q k.
Proof.
  split.
  - intros <-. apply round_half_even_spec.
  - intros H. apply (nearest_even_unique q); [apply round_half_even_spec | exact H].
Qed.

(** [round_half_even] respects equality of rationals. *)
Lemma round_half_even_Qeq (q1 q2 : Q) : q1 == q2 -> round_half_even q1 = round_half_even q2.
Proof.
  intros E. apply (nearest_even_unique q2); [|apply round_half_even_spec].
  pose proof (round_half_even_spec q1) as H. unfold nearest_even in *.
  destruct H as [H|[[H|H] He]]; [left; lra | right; split; [left; lra | exact He]
                                             | right; split; [right; lra | exact He]].
Qed.

(** Rounding keeps a value between two integers between them. *)
Lemma round_half_even_bounds (a b : Z) (q : Q) :
  inject_Z a <= q -> q <= inject_Z b -> (a <= round_half_even q <= b)%Z.
Proof.
  intros Ha Hb. pose proof (round_half_even_spec q) as Hs. set (k := round_half_even q) in *.
  assert (inject_Z k - (1#2) <= q /\ q <= inject_Z k + (1#2)) as [Hl Hu]
    by (destruct Hs as [[H1 H2]|[[E|E] _]]; split; Lqa.lra).
  assert (inject_Z a < inject_Z (k + 1)) as H1 by qlra.
  assert (inject_Z k < inject_Z (b + 1)) as H2 by qlra.
  rewrite inject_Z_lt_iff in H1, H2. lia.
Qed.

Lemma round_half_even_Z (z : Z) : round_half_even (inject_Z z) = z.
Proof.
  apply (nearest_even_unique (inject_Z z)); [apply round_half_even_spec|]. left. split; lra.
Qed.

(** ** Theorems over the real numbers *)

Lemma sqrt_IZR_square (s : Z) : (0 <= s)%Z -> sqrt (IZR (s * s)) = IZR s.
Proof. intros Hs. rewrite mult_IZR. apply sqrt_square. now apply IZR_le. Qed.

(** [Z.sqrt d] brackets the real square root of [d], strictly from below
    unless [d] is a perfect square. *)
Lemma sqrt_IZR_bounds (d : Z) : (0 <= d)%Z ->
  (IZR (Z.sqrt d) <= sqrt (IZR d) < IZR (Z.sqrt d) + 1)%R /\
  ((Z.sqrt d * Z.sqrt d)%Z <> d -> (IZR (Z.sqrt d) < sqrt (IZR d))%R).
Proof.
  intros Hd. pose proof (Z.sqrt_spec d Hd) as [Hlo Hhi]. pose proof (Z.sqrt_nonneg d) as Hs.
  set (s := Z.sqrt d) in *.
  assert (IZR s + 1 = IZR (s + 1))%R as E1 by (rewrite plus_IZR; reflexivity).
  rewrite E1, <- (sqrt_IZR_square s Hs), <- (sqrt_IZR_square (s + 1)) by lia.
  split; [split|].
  - apply sqrt_le_1_alt, IZR_le. exact Hlo.
  - apply sqrt_lt_1_alt. split; [apply IZR_le; lia | apply IZR_lt; rewrite <- Z.add_1_r in Hhi; lia].
  - intros Hne. apply sqrt_lt_1_alt. split; [apply IZR_le; lia | apply IZR_lt; lia].
Qed.

Lemma round_sqrt_half_nearest (d : Z) : (0 <= d)%Z ->
  nearest_even_R (sqrt (IZR d) / 2) (round_sqrt_half d).
Proof.
  intros Hd. destruct (sqrt_IZR_bounds d Hd) as [[Hlo Hhi] Hstrict].
  pose proof (Z.sqrt_nonneg d) as Hs.
  unfold round_sqrt_half, nearest_even_R. set (s := Z.sqrt d) in *.
  destruct ((s * s =? d)%Z && Z.odd s) eqn:C.
  - apply andb_prop in C as [Hsq Hodd]. apply Z.eqb_eq in Hsq.
    apply Z.odd_spec in Hodd as [m Hm].
    replace (s / 2)%Z with m by zdiv_lia.
    assert (sqrt (IZR d) = 2 * IZR m + 1)%R as Hx
      by (rewrite <- Hsq, sqrt_IZR_square, Hm, plus_IZR, mult_IZR by lia; reflexivity).
    rewrite Hx. destruct (Z.even m) eqn:He.
    + right. split; [right; Lra.lra | exact He].
    + right. rewrite plus_IZR. split; [left; Lra.lra |]. now rewrite Z_even_succ_neg, He.
  - destruct (Z.Even_or_Odd s) as [[m Hm] | [m Hm]].
    + replace ((s + 1) / 2)%Z with m by zdiv_lia.
      rewrite Hm, mult_IZR in Hlo, Hhi. left. split; Lra.lra.
    + replace ((s + 1) / 2)%Z with (m + 1)%Z by zdiv_lia.
      assert (s * s <> d)%Z as Hne.
      { intros Hsq. apply Z.eqb_eq in Hsq. rewrite Hsq in C.
        rewrite Hm, Z.odd_odd in C. discriminate. }
      specialize (Hstrict Hne).
      rewrite Hm, plus_IZR, mult_IZR in Hhi, Hstrict. rewrite plus_IZR. left. split; Lra.lra.
Qed.

Lemma nearest_even_R_unique (x : R) (k1 k2 : Z) :
  nearest_even_R x k1 -> nearest_even_R x k2 -> k1 = k2.
Proof.
  unfold nearest_even_R. intros H1 H2.
  assert (IZR k1 - 1 <= IZR k2 <= IZR k1 + 1)%R as Hb
    by (destruct H1 as [H1|[[H1|H1] _]]; destruct H2 as [H2|[[H2|H2] _]]; Lra.lra).
  rewrite <- minus_IZR, <- plus_IZR in Hb. destruct Hb as [Hb1 Hb2].
  apply le_IZR in Hb1, Hb2.
  destruct (Z.eq_dec k2 k1) as [->|Hne]; [reflexivity|].
  assert (k2 = k1 + 1 \/ k2 = k1 - 1)%Z as [-> | ->] by lia.
  - rewrite plus_IZR in H2.
    destruct H1 as [H1|[[H1|H1] E1]]; destruct H2 as [H2|[[H2|H2] E2]]; try Lra.lra;
      rewrite Z_even_succ_neg, E1 in E2; discriminate.
  - rewrite minus_IZR in H2.
    destruct H1 as [H1|[[H1|H1] E1]]; destruct H2 as [H2|[[H2|H2] E2]]; try Lra.lra;
      replace k1 with ((k1 - 1) + 1)%Z in E1 by lia;
      rewrite Z_even_succ_neg, E2 in E1; discriminate.
Qed.

(** C8: Refinement: for every squared diameter [d >= 0], [round_sqrt_half d] is
    exactly the integer nearest to the real radius [sqrt(d)/2] computed by
    [max_distance(label) / 2], ties to even, i.e. what
    [t.round(label).int()] stores as the circle radius. *)
Theorem round_sqrt_half_iff (d k : Z) : (0 <= d)%Z ->
  round_sqrt_half d = k <-> nearest_even_R (sqrt (IZR d) / 2) k.
Proof.
  intros Hd. split.
  - intros <-. now apply round_sqrt_half_nearest.
  - intros H. apply (nearest_even_R_unique (sqrt (IZR d) / 2)); [|exact H].
    now apply round_sqrt_half_nearest.
Qed.

Lemma round_sqrt_half_iff_witness :
  (0 <= 9)%Z /\ (round_sqrt_half 9 = 2%Z <-> nearest_even_R (sqrt (IZR 9) / 2) 2).
Proof. split; [lia | apply (round_sqrt_half_iff 9 2); lia]. Defined.

(** The radius test [r > 0] of [draw_label_img] (line 40) holds exactly when
    the squared diameter is positive. *)
Lemma radius_pos_iff (d : Z) : (0 <= d)%Z -> (0 < sqrt (IZR d) / 2)%R <-> (0 < d)%Z.
Proof.
  intros Hd. split.
  - intros H. destruct (Z.eq_dec d 0) as [->|Hne]; [|lia].
    rewrite sqrt_0 in H. Lra.lra.
  - intros H. apply IZR_lt in H. pose proof (sqrt_lt_R0 _ H). Lra.lra.
Qed.
