(* ===== verification/LabelExtraction.v ===== *)
(** * Label extraction and circle drawing ([max_distance], [draw_label_img],
      [draw_label], lines 14-55)

    A labelled region map (the output of [watershed_label]) is turned into
    one focus per non-zero label: the mean of its pixel coordinates and the
    radius [max_distance / 2], where [max_distance] is the diagonal of the
    region's bounding box.  Foci of radius [0] are dropped; the others are
    rounded with [torch.round] and drawn with [cv.circle].

    The radius is kept exactly as the integer [d] it is the root of
    ([r = sqrt d / 2]); [Rounding.round_sqrt_half_spec] relates the integer
    computation to the real one.  [cv.circle] is an OpenCV raster routine:
    the canvas records each call (centre, radius, colour, thickness) in
    order, on top of the unchanged pixel array. *)

From Stdlib Require Import ZArith QArith Qround Reals List Sorted Lia Lqa.
From S2P Require Import Prelude Rounding.
Import ListNotations.

Module Labels.

(** A label image after [squeeze]: rows of integer labels. *)
Definition grid := list (list Z).

(** Pixel coordinates [(i, j)] = (row, column), as appended at line 34
    (the constant third coordinate [1] is only a slot for the radius). *)
Definition pixel := (Z * Z)%type.

(** The view of a tensor after [squeeze(0)]: a [1 x W] grid loses its first
    dimension. *)
Inductive squeezed := Sq2 (g : grid) | Sq1 (row : list Z).

Definition squeeze0 (g : grid) : squeezed :=
  match g with [row] => Sq1 row | _ => Sq2 g end.

(** [np.unique]: the sorted list of distinct values. *)
Fixpoint insert_unique (v : Z) (l : list Z) : list Z :=
  match l with
  | [] => [v]
  | w :: l' => if (v <? w)%Z then v :: l else if (v =? w)%Z then l else w :: insert_unique v l'
  end.

Definition np_unique (vals : list Z) : list Z := fold_right insert_unique [] vals.

Definition squeezed_values (s : squeezed) : list Z :=
  match s with Sq2 g => concat g | Sq1 row => row end.

(** Lines 24-28: the labels the loop visits, [0] skipped. *)
Definition nonzero_values (vals : list Z) : list Z :=
  filter (fun v => negb (v =? 0)%Z) (np_unique vals).

(** Lines 31-34: the pixels whose label equals [value], in row-major order. *)
Definition region_pixels (g : grid) (value : Z) : list pixel :=
  flat_map (fun '(i, row) =>
    flat_map (fun '(j, x) => if (x =? value)%Z then [(i, j)] else []) (enumerate row))
    (enumerate g).

(** Lines 23-34: the pixel lists of the non-zero labels, in ascending label
    order.  On a squeezed [1 x W] image, [label_img.shape[1]] raises an
    [IndexError] as soon as a non-zero label is visited ([None]). *)
Definition label_regions (label_img : grid) : option (list (list pixel)) :=
  let s := squeeze0 label_img in
  let values := nonzero_values (squeezed_values s) in
  match s with
  | Sq2 g => Some (map (region_pixels g) values)
  | Sq1 _ => match values with [] => Some [] | _ => None end
  end.

(** Lines 14-19: [max_distance], squared.  [None]: [t.max] of an empty
    tensor raises. *)
Definition max_distance_sq (coords : list pixel) : option Z :=
  match list_max (map fst coords), list_max (map snd coords),
        list_min (map fst coords), list_min (map snd coords) with
  | Some max_x, Some max_y, Some min_x, Some min_y =>
      Some ((max_x - min_x) ^ 2 + (max_y - min_y) ^ 2)%Z
  | _, _, _, _ => None
  end.

(** Lines 14-19 over the reals: [np.sqrt] of the squared distance. *)
Definition max_distance (coords : list pixel) : option R :=
  option_map (fun d => sqrt (IZR d)) (max_distance_sq coords).

(** A focus [(mean row, mean column, r)] with [r = sqrt f_diam_sq / 2]. *)
Record focus := mk_focus { f_row : Q; f_col : Q; f_diam_sq : Z }.

Definition focus_radius (f : focus) : R := (sqrt (IZR (f_diam_sq f)) / 2)%R.

(** Lines 37-42 for one label: [None] when torch raises (empty label),
    [Some None] when [r > 0] fails and the label is skipped. *)
Definition focus_of_label (label : list pixel) : option (option focus) :=
  match max_distance_sq label with
  | None => None
  | Some d =>
      if (0 <? d)%Z
      then Some (Some (mk_focus (Qmean (map fst label)) (Qmean (map snd label)) d))
      else Some None
  end.

(** Lines 35-42: the foci of all labels, in label order. *)
Fixpoint foci_of_labels (labels : list (list pixel)) : option (list focus) :=
  match labels with
  | [] => Some []
  | label :: rest =>
      match focus_of_label label, foci_of_labels rest with
      | Some o, Some fs => Some (match o with Some f => f :: fs | None => fs end)
      | _, _ => None
      end
  end.

(** Lines 23-43: the foci of a label image. *)
Definition extract_foci (label_img : grid) : option (list focus) :=
  match label_regions label_img with
  | None => None
  | Some labels => foci_of_labels labels
  end.

End Labels.

Module Draw.
Import Labels.

(** An RGB colour as passed to [cv.circle]. *)
Definition color := (Z * Z * Z)%type.

(** One [cv.circle(img, center, radius, color, thickness)] call. *)
Record circle := mk_circle
  { c_center : Z * Z; c_radius : Z; c_color : color; c_thickness : Z }.

(** An [H x W x 3] image. *)
Definition image := list (list (list Q)).

(** The image being drawn on: its pixels and the circles drawn so far. *)
Record canvas := mk_canvas { cv_pixels : image; cv_circles : list circle }.

(** [cv.circle]: draws one more circle on the canvas. *)
Definition cv_circle (img : canvas) (center : Z * Z) (radius : Z) (col : color)
    (thickness : Z) : canvas :=
  mk_canvas (cv_pixels img) (cv_circles img ++ [mk_circle center radius col thickness]).

(** Line 51: [t.round(label).int().tolist()] for one focus. *)
Definition round_focus (f : focus) : Z * Z * Z :=
  (round_half_even (f_row f), round_half_even (f_col f), round_sqrt_half (f_diam_sq f)).

(** Lines 49-55: one circle per focus, centre [(y, x)] = (column, row). *)
Definition draw_label (raw_label : list focus) (img : canvas) (col : color) : canvas :=
  fold_left (fun img '(x, y, r) => cv_circle img (y, x) r col 1)
    (map round_focus raw_label) img.

(** Lines 22-46: [None] when the extraction raises; the image is returned
    as it is when there is no focus. *)
Definition draw_label_img (label_img : grid) (img : canvas) (col : color) : option canvas :=
  match extract_foci label_img with
  | None => None
  | Some foci => if (0 <? length foci)%nat then Some (draw_label foci img col) else Some img
  end.

(** The circle that [draw_label] draws for a focus. *)
Definition circle_of (col : color) (f : focus) : circle :=
  let '(x, y, r) := round_focus f in mk_circle (y, x) r col 1.

End Draw.

(** ** Lemmas on the extraction *)

Module LabelsFacts.
Import Labels.

Lemma In_insert_unique v l x : In x (insert_unique v l) <-> x = v \/ In x l.
Proof.
  induction l as [|w l IH]; simpl; [intuition congruence|].
  destruct (Z.ltb_spec v w); simpl; [intuition congruence|].
  destruct (Z.eqb_spec v w); simpl; [subst; intuition congruence|]. rewrite IH. intuition congruence.
Qed.

Lemma HdRel_insert_unique w v l :
  HdRel Z.lt w l -> (w < v)%Z -> HdRel Z.lt w (insert_unique v l).
Proof.
  intros Hhd Hwv. destruct l as [|u l]; simpl; [constructor; exact Hwv|].
  inversion Hhd; subst.
  destruct (Z.ltb_spec v u); [constructor; exact Hwv|].
  destruct (Z.eqb_spec v u); constructor; assumption.
Qed.

Lemma insert_unique_sorted v l : Sorted Z.lt l -> Sorted Z.lt (insert_unique v l).
Proof.
  induction 1 as [|w l Hs IH Hhd]; simpl; [repeat constructor|].
  destruct (Z.ltb_spec v w).
  - constructor; [constructor; assumption | constructor; assumption].
  - destruct (Z.eqb_spec v w); [constructor; assumption|].
    constructor; [exact IH | apply HdRel_insert_unique; [exact Hhd | lia]].
Qed.

(** [np_unique] returns the distinct values, strictly ascending. *)
Theorem np_unique_spec (vals : list Z) :
  Sorted Z.lt (np_unique vals) /\ (forall x, In x (np_unique vals) <-> In x vals).
Proof.
  induction vals as [|v vals [Hs Hin]]; simpl; [split; [constructor | tauto]|].
  split; [now apply insert_unique_sorted|].
  intros x. rewrite In_insert_unique, Hin. split; intros [H|H]; auto.
Qed.

Lemma In_region_pixels g v i j :
  In (i, j) (region_pixels g v) <->
  (0 <= i)%Z /\ (0 <= j)%Z /\
  exists row, nth_error g (Z.to_nat i) = Some row /\ nth_error row (Z.to_nat j) = Some v.
Proof.
  unfold region_pixels. rewrite in_flat_map. split.
  - intros [[i' row] [Hin Hp]]. rewrite in_flat_map in Hp. destruct Hp as [[j' x] [Hj Hp]].
    destruct (Z.eqb_spec x v) as [->|]; [|destruct Hp].
    destruct Hp as [[= <- <-]|[]].
    apply In_enumerate in Hin as [Hi Hr], Hj as [Hj Hx]. eauto.
  - intros (Hi & Hj & row & Hr & Hx). exists (i, row).
    split; [now apply In_enumerate|].
    apply in_flat_map. exists (j, v). split; [now apply In_enumerate|].
    rewrite Z.eqb_refl. now left.
Qed.

Lemma region_pixels_nonempty g v : In v (concat g) -> region_pixels g v <> [].
Proof.
  intros Hv. apply in_concat in Hv as [row [Hrow Hv]].
  apply In_nth_error in Hrow as [i Hi], Hv as [j Hj].
  assert (In (Z.of_nat i, Z.of_nat j) (region_pixels g v)) as H
    by (apply In_region_pixels; rewrite !Nat2Z.id; repeat split; try lia; eauto).
  intros E. rewrite E in H. destruct H.
Qed.

Lemma max_distance_sq_nonneg coords d : max_distance_sq coords = Some d -> (0 <= d)%Z.
Proof.
  unfold max_distance_sq.
  repeat match goal with |- context [match ?o with Some _ => _ | None => _ end] => destruct o end;
    try discriminate.
  intros [= <-]. nia.
Qed.

Lemma max_distance_sq_Some coords : coords <> [] -> exists d, max_distance_sq coords = Some d.
Proof. destruct coords as [|[x y] cs]; [congruence | eexists; reflexivity]. Qed.

Lemma focus_of_label_Some label : label <> [] -> exists o, focus_of_label label = Some o.
Proof.
  intros H. destruct (max_distance_sq_Some label H) as [d Hd].
  unfold focus_of_label. rewrite Hd. destruct (0 <? d)%Z; eauto.
Qed.

(** [foci_of_labels] never raises on non-empty labels and keeps exactly the
    foci of positive radius. *)
Lemma foci_of_labels_spec labels :
  (forall l, In l labels -> l <> []) ->
  exists fs, foci_of_labels labels = Some fs /\
    (forall f, In f fs <-> exists l, In l labels /\ focus_of_label l = Some (Some f)).
Proof.
  induction labels as [|l ls IH]; intros Hne; simpl.
  - exists []. split; [reflexivity | firstorder].
  - destruct (focus_of_label_Some l (Hne l (or_introl eq_refl))) as [o Ho].
    destruct IH as [fs [Hfs Hin]]; [intros; apply Hne; now right|].
    rewrite Ho, Hfs. destruct o as [f0|]; eexists; (split; [reflexivity|]); intros f.
    + simpl. rewrite Hin. split.
      * intros [<-|[l' [Hl' Hf]]]; [exists l; auto | exists l'; auto].
      * intros [l' [[<-|Hl'] Hf]]; [left; congruence | right; eauto].
    + rewrite Hin. split.
      * intros [l' [Hl' Hf]]; eauto.
      * intros [l' [[<-|Hl'] Hf]]; [congruence | eauto].
Qed.

Lemma foci_of_labels_sound labels fs f :
  foci_of_labels labels = Some fs -> In f fs ->
  exists l, In l labels /\ focus_of_label l = Some (Some f).
Proof.
  revert fs. induction labels as [|l ls IH]; intros fs; simpl.
  - intros [= <-] [].
  - destruct (focus_of_label l) as [o|] eqn:Ho; [|discriminate].
    destruct (foci_of_labels ls) as [fs'|] eqn:Hls; [|discriminate].
    intros [= <-] Hf. destruct o as [f0|].
    + destruct Hf as [<-|Hf]; [eauto|].
      destruct (IH fs' eq_refl Hf) as [l' [Hl' Hf']]; eauto.
    + destruct (IH fs' eq_refl Hf) as [l' [Hl' Hf']]; eauto.
Qed.

Lemma squeeze0_not_one g : length g <> 1%nat -> squeeze0 g = Sq2 g.
Proof. destruct g as [|r [|r' g]]; simpl; congruence. Qed.

Lemma region_pixels_In g v p : In p (region_pixels g v) -> In v (concat g).
Proof.
  destruct p as [i j]. intros (_ & _ & row & Hr & Hv)%In_region_pixels.
  apply in_concat. exists row. split; eapply nth_error_In; eassumption.
Qed.

Lemma In_nonzero_values vals v : In v (nonzero_values vals) <-> v <> 0%Z /\ In v vals.
Proof.
  unfold nonzero_values. rewrite filter_In, (proj2 (np_unique_spec vals)).
  destruct (Z.eqb_spec v 0); simpl; intuition congruence.
Qed.

Lemma nonzero_values_NoDup vals : NoDup (nonzero_values vals).
Proof. apply NoDup_filter, Sorted_lt_NoDup, np_unique_spec. Qed.

Lemma label_regions_two_dim g : length g <> 1%nat ->
  label_regions g = Some (map (region_pixels g) (nonzero_values (concat g))).
Proof. intros Hg. unfold label_regions. now rewrite (squeeze0_not_one g Hg). Qed.

End LabelsFacts.

Module Extraction.
Import Labels LabelsFacts.

(** On a two-dimensional label image the extraction never raises. *)
Lemma extract_foci_total g : length g <> 1%nat -> exists fs, extract_foci g = Some fs.
Proof.
  intros Hg. unfold extract_foci. rewrite (label_regions_two_dim g Hg).
  destruct (foci_of_labels_spec (map (region_pixels g) (nonzero_values (concat g))))
    as [fs [Hfs _]]; [|eauto].
  intros l (v & <- & Hv%In_nonzero_values)%in_map_iff. now apply region_pixels_nonempty.
Qed.

(** C1: Functional behaviour of [draw_label_img]'s extraction (lines 23-43): on
    a genuinely two-dimensional label image it never raises, and it returns
    exactly the foci of the non-zero labels whose bounding-box diagonal is
    positive, each computed from all pixels of its label. *)
Theorem extract_foci_spec g : length g <> 1%nat ->
  exists fs, extract_foci g = Some fs /\
    forall f, In f fs <->
      exists v, v <> 0%Z /\ In v (concat g) /\ focus_of_label (region_pixels g v) = Some (Some f).
Proof.
  intros Hg. unfold extract_foci. rewrite (label_regions_two_dim g Hg).
  destruct (foci_of_labels_spec (map (region_pixels g) (nonzero_values (concat g))))
    as [fs [Hfs Hin]].
  { intros l (v & <- & Hv%In_nonzero_values)%in_map_iff. now apply region_pixels_nonempty. }
  exists fs. split; [exact Hfs|]. intros f. rewrite Hin. split.
  - intros (l & (v & <- & Hv%In_nonzero_values)%in_map_iff & Hf). exists v. tauto.
  - intros (v & Hnz & Hv & Hf). exists (region_pixels g v).
    split; [apply in_map, In_nonzero_values; tauto | exact Hf].
Qed.

(** Soundness, for label images of every shape: each focus comes from a
    non-zero label of the image. *)
Lemma extract_foci_sound g fs f : extract_foci g = Some fs -> In f fs ->
  exists v, v <> 0%Z /\ focus_of_label (region_pixels g v) = Some (Some f).
Proof.
  unfold extract_foci, label_regions.
  destruct (squeeze0 g) as [g'|row] eqn:Hsq.
  - intros Hfs Hf. destruct (foci_of_labels_sound _ _ _ Hfs Hf)
      as (l & (v & <- & Hv%In_nonzero_values)%in_map_iff & Hl).
    exists v. split; [tauto|].
    destruct g as [|r0 [|r1 g]]; simpl in Hsq; try discriminate; injection Hsq as <-; exact Hl.
  - destruct (nonzero_values (squeezed_values (Sq1 row))); [|discriminate].
    intros [= <-] [].
Qed.

Lemma extract_foci_spec_witness :
  length [[1; 0; 1]; [0; 0; 0]]%Z <> 1%nat /\
  exists fs, extract_foci [[1; 0; 1]; [0; 0; 0]]%Z = Some fs /\
    forall f, In f fs <->
      exists v, v <> 0%Z /\ In v (concat [[1; 0; 1]; [0; 0; 0]]%Z) /\
        focus_of_label (region_pixels [[1; 0; 1]; [0; 0; 0]]%Z v) = Some (Some f).
Proof. split; [discriminate | apply extract_foci_spec; discriminate]. Defined.

(** A label image whose labels are all [0] yields no focus, whatever its
    shape. *)
Theorem extract_foci_background g :
  (forall x, In x (concat g) -> x = 0%Z) -> extract_foci g = Some [].
Proof.
  intros Hz.
  assert (forall vals, (forall x, In x vals -> x = 0%Z) -> nonzero_values vals = []) as Hnil.
  { intros vals Hv. apply filter_all_false. intros x Hx%(proj2 (np_unique_spec vals)).
    now rewrite (Hv x Hx). }
  destruct g as [|row [|row' g]];
    cbv [extract_foci label_regions squeeze0 squeezed_values];
    rewrite Hnil; try reflexivity; try exact Hz.
  intros x Hx. apply Hz. simpl. now rewrite app_nil_r.
Qed.

(** C13: Spec property 3, on the data model's label maps (non-negative
    integers): with no positive label there is no focus. *)
Theorem extract_foci_no_positive g :
  (forall x, In x (concat g) -> 0 <= x /\ ~ 0 < x)%Z -> extract_foci g = Some [].
Proof.
  intros H. apply extract_foci_background. intros x Hx. specialize (H x Hx). lia.
Qed.

Lemma extract_foci_no_positive_witness :
  (forall x, In x (concat [[0; 0]; [0; 0]]) -> 0 <= x /\ ~ 0 < x)%Z /\
  extract_foci [[0; 0]; [0; 0]]%Z = Some [].
Proof.
  assert (forall x, In x (concat [[0; 0]; [0; 0]]) -> 0 <= x /\ ~ 0 < x)%Z as H
    by (intros x Hx; simpl in Hx; intuition lia).
  split; [exact H | apply extract_foci_no_positive; exact H].
Defined.

(** C19: A [1 x W] label image with a foreground pixel makes [draw_label_img]
    raise: [squeeze(0)] drops the row dimension and [label_img.shape[1]]
    (line 32) is out of range. *)
Theorem extract_foci_one_row_raises row :
  (exists x, In x row /\ x <> 0%Z) -> extract_foci [row] = None.
Proof.
  intros [x [Hx Hnz]]. cbv [extract_foci label_regions squeeze0 squeezed_values].
  destruct (nonzero_values row) eqn:E; [|reflexivity].
  assert (In x (nonzero_values row)) as H by (apply In_nonzero_values; tauto).
  rewrite E in H. destruct H.
Qed.

Lemma extract_foci_one_row_raises_witness :
  (exists x, In x [1; 0; 1] /\ x <> 0)%Z /\ extract_foci [[1; 0; 1]]%Z = None.
Proof.
  assert (exists x, In x [1; 0; 1] /\ x <> 0)%Z as H by (exists 1%Z; split; [now left | lia]).
  split; [exact H | apply extract_foci_one_row_raises; exact H].
Defined.

(** A label covering a single pixel has radius [0] and is skipped. *)
Lemma focus_of_label_single p : focus_of_label [p] = Some None.
Proof. destruct p as [i j]. unfold focus_of_label, max_distance_sq. simpl. now rewrite !Z.sub_diag. Qed.

(** C12: When every label covers one pixel, no focus is produced (spec property
    2 on two-dimensional images). *)
Theorem extract_foci_single_pixels g : length g <> 1%nat ->
  (forall v, v <> 0%Z -> In v (concat g) -> length (region_pixels g v) = 1%nat) ->
  extract_foci g = Some [].
Proof.
  intros Hg Hone. destruct (extract_foci_total g Hg) as [fs Hfs]. rewrite Hfs.
  destruct fs as [|f fs]; [reflexivity|]. exfalso.
  destruct (extract_foci_sound g _ f Hfs (or_introl eq_refl)) as (v & Hnz & Hf).
  assert (In v (concat g)) as Hv.
  { destruct (region_pixels g v) as [|p l] eqn:E; [discriminate|].
    apply (region_pixels_In g v p). rewrite E. now left. }
  specialize (Hone v Hnz Hv). destruct (region_pixels g v) as [|p [|q l]]; try discriminate.
  rewrite focus_of_label_single in Hf. discriminate.
Qed.

Lemma extract_foci_single_pixels_witness :
  length [[1; 0; 2]; [0; 0; 0]]%Z <> 1%nat /\
  (forall v, v <> 0%Z -> In v (concat [[1; 0; 2]; [0; 0; 0]]%Z) ->
     length (region_pixels [[1; 0; 2]; [0; 0; 0]]%Z v) = 1%nat) /\
  extract_foci [[1; 0; 2]; [0; 0; 0]]%Z = Some [].
Proof.
  assert (forall v, v <> 0%Z -> In v (concat [[1; 0; 2]; [0; 0; 0]]%Z) ->
     length (region_pixels [[1; 0; 2]; [0; 0; 0]]%Z v) = 1%nat) as H.
  { intros v Hnz Hv. simpl in Hv.
    destruct Hv as [<-|[<-|[<-|[<-|[<-|[<-|[]]]]]]]; try lia; reflexivity. }
  split; [discriminate|]. split; [exact H|].
  apply extract_foci_single_pixels; [discriminate | exact H].
Defined.

End Extraction.

Module Geometry.
Import Labels LabelsFacts.

Lemma focus_of_label_inv pts f : focus_of_label pts = Some (Some f) ->
  exists d, max_distance_sq pts = Some d /\ (0 < d)%Z /\
    f = mk_focus (Qmean (map fst pts)) (Qmean (map snd pts)) d.
Proof.
  unfold focus_of_label. destruct (max_distance_sq pts) as [d|]; [|discriminate].
  destruct (Z.ltb_spec 0 d); [|discriminate]. intros [= <-]. eauto.
Qed.

Lemma max_distance_sq_nil : max_distance_sq [] = None.
Proof. reflexivity. Qed.

(** C14: Bounds: the centre of a focus lies in every axis-aligned box that
    contains the pixels of its label. *)
Theorem focus_in_bounding_box pts f (a b c d : Z) :
  focus_of_label pts = Some (Some f) ->
  (forall p, In p pts -> (a <= fst p <= b)%Z /\ (c <= snd p <= d)%Z) ->
  (inject_Z a <= f_row f <= inject_Z b) /\ (inject_Z c <= f_col f <= inject_Z d).
Proof.
  intros (dd & Hd & _ & ->)%focus_of_label_inv Hbox.
  assert (pts <> []) as Hne by (intros ->; discriminate).
  simpl. split; apply Qmean_bounds; try (destruct pts; [congruence | discriminate]);
    apply Forall_forall; intros y (p & <- & Hp)%in_map_iff; apply Hbox, Hp.
Qed.

(** C15: The radius of an extracted focus is [max_distance / 2] computed over
    the reals (lines 39-41), it is positive, and the integer radius drawn
    by [cv.circle] is its [torch.round]. *)
Theorem focus_radius_spec pts f : focus_of_label pts = Some (Some f) ->
  max_distance pts = Some (2 * focus_radius f)%R /\ (0 < focus_radius f)%R /\
  nearest_even_R (focus_radius f) (round_sqrt_half (f_diam_sq f)).
Proof.
  intros (d & Hd & Hpos & ->)%focus_of_label_inv. unfold max_distance, focus_radius. simpl.
  rewrite Hd. simpl. split; [f_equal; field|]. split.
  - apply radius_pos_iff; lia.
  - apply round_sqrt_half_nearest. lia.
Qed.

Lemma focus_in_bounding_box_witness :
  focus_of_label [(0, 0); (0, 2)]%Z = Some (Some (mk_focus (Qmean [0; 0]%Z) (Qmean [0; 2]%Z) 4)) /\
  (forall p, In p [(0, 0); (0, 2)]%Z -> (0 <= fst p <= 0)%Z /\ (0 <= snd p <= 2)%Z) /\
  (inject_Z 0 <= Qmean [0; 0]%Z <= inject_Z 0) /\ (inject_Z 0 <= Qmean [0; 2]%Z <= inject_Z 2).
Proof.
  assert (focus_of_label [(0, 0); (0, 2)]%Z =
          Some (Some (mk_focus (Qmean [0; 0]%Z) (Qmean [0; 2]%Z) 4))) as Hf by reflexivity.
  assert (forall p, In p [(0, 0); (0, 2)]%Z -> (0 <= fst p <= 0)%Z /\ (0 <= snd p <= 2)%Z) as Hb
    by (intros p [<-|[<-|[]]]; simpl; lia).
  split; [exact Hf|]. split; [exact Hb|].
  exact (focus_in_bounding_box _ _ 0 0 0 2 Hf Hb).
Defined.

Lemma focus_radius_spec_witness :
  focus_of_label [(0, 0); (0, 2)]%Z = Some (Some (mk_focus (Qmean [0; 0]%Z) (Qmean [0; 2]%Z) 4)) /\
  max_distance [(0, 0); (0, 2)]%Z =
    Some (2 * focus_radius (mk_focus (Qmean [0; 0]%Z) (Qmean [0; 2]%Z) 4))%R /\
  (0 < focus_radius (mk_focus (Qmean [0; 0]%Z) (Qmean [0; 2]%Z) 4))%R /\
  nearest_even_R (focus_radius (mk_focus (Qmean [0; 0]%Z) (Qmean [0; 2]%Z) 4)) (round_sqrt_half 4).
Proof.
  assert (focus_of_label [(0, 0); (0, 2)]%Z =
          Some (Some (mk_focus (Qmean [0; 0]%Z) (Qmean [0; 2]%Z) 4))) as Hf by reflexivity.
  split; [exact Hf | exact (focus_radius_spec _ _ Hf)].
Defined.

(** The pixels of a label lie inside a label map of [length g] rows of at
    most [W] columns. *)
Lemma region_pixels_box g W v p :
  Forall (fun row => (length row <= W)%nat) g -> In p (region_pixels g v) ->
  (0 <= fst p <= Z.of_nat (length g) - 1)%Z /\ (0 <= snd p <= Z.of_nat W - 1)%Z.
Proof.
  intros HW Hp. destruct p as [i j]. apply In_region_pixels in Hp as (Hi & Hj & row & Hr & Hx).
  pose proof (nth_error_Some g (Z.to_nat i)) as Li. pose proof (nth_error_Some row (Z.to_nat j)) as Lj.
  rewrite Forall_forall in HW. pose proof (HW row (nth_error_In _ _ Hr)) as Hrow.
  rewrite Hr in Li. rewrite Hx in Lj. cbn [fst snd].
  assert (Z.to_nat i < length g)%nat by (apply Li; discriminate).
  assert (Z.to_nat j < length row)%nat by (apply Lj; discriminate). lia.
Qed.

(** C31: Bounds of the drawn circles: on a label map of [length g] rows of at
    most [W] columns, every circle [draw_label] draws from the extracted
    foci has its rounded centre inside the image: row in [[0, length g)],
    column in [[0, W)]. *)
Theorem drawn_centre_in_image g W fs f :
  Forall (fun row => (length row <= W)%nat) g -> extract_foci g = Some fs -> In f fs ->
  (0 <= fst (fst (Draw.round_focus f)) < Z.of_nat (length g))%Z /\
  (0 <= snd (fst (Draw.round_focus f)) < Z.of_nat W)%Z.
Proof.
  intros HW Hfs Hf. destruct (Extraction.extract_foci_sound g fs f Hfs Hf) as (v & _ & Hl).
  apply focus_of_label_inv in Hl as (d & Hd & _ & ->).
  assert (region_pixels g v <> []) as Hne by (intros E; rewrite E in Hd; discriminate).
  cbn [Draw.round_focus fst snd f_row f_col].
  assert (forall (sel : pixel -> Z) a b, (forall p, In p (region_pixels g v) -> (a <= sel p <= b)%Z) ->
            (a <= round_half_even (Qmean (map sel (region_pixels g v))) <= b)%Z) as Hr.
  { intros sel a b Hb. destruct (Qmean_bounds (map sel (region_pixels g v)) a b) as [H1 H2].
    - destruct (region_pixels g v); [congruence | discriminate].
    - apply Forall_forall. intros y (p & <- & Hp)%in_map_iff. exact (Hb p Hp).
    - exact (round_half_even_bounds a b _ H1 H2). }
  split; [assert (0 <= round_half_even (Qmean (map fst (region_pixels g v))) <= Z.of_nat (length g) - 1)%Z
          | assert (0 <= round_half_even (Qmean (map snd (region_pixels g v))) <= Z.of_nat W - 1)%Z];
    try lia; apply Hr; intros p Hp; apply (region_pixels_box g W v p HW Hp).
Qed.

Lemma drawn_centre_in_image_witness :
  exists fs f, Forall (fun row => (length row <= 3)%nat) [[1; 0; 1]; [0; 0; 0]]%Z /\
    extract_foci [[1; 0; 1]; [0; 0; 0]]%Z = Some fs /\ In f fs /\
    (0 <= fst (fst (Draw.round_focus f)) < Z.of_nat (length [[1; 0; 1]; [0; 0; 0]]%Z))%Z /\
    (0 <= snd (fst (Draw.round_focus f)) < Z.of_nat 3)%Z.
Proof.
  assert (Forall (fun row => (length row <= 3)%nat) [[1; 0; 1]; [0; 0; 0]]%Z) as HW
    by (repeat constructor).
  destruct (extract_foci [[1; 0; 1]; [0; 0; 0]]%Z) as [[|f rest]|] eqn:E;
    [vm_compute in E; discriminate E | | vm_compute in E; discriminate E].
  exists (f :: rest), f. split; [exact HW|]. split; [reflexivity|]. split; [now left|].
  exact (drawn_centre_in_image _ 3 _ f HW E (or_introl eq_refl)).
Defined.

End Geometry.

Module Examples.
Import Labels LabelsFacts Extraction Geometry.

Lemma nonzero_values_only g v : v <> 0%Z -> In v (concat g) ->
  (forall x, In x (concat g) -> x = 0%Z \/ x = v) -> nonzero_values (concat g) = [v].
Proof.
  intros Hnz Hv Honly. apply NoDup_only_singleton; [apply nonzero_values_NoDup|].
  intros x. rewrite In_nonzero_values. split.
  - intros [Hx Hin]. destruct (Honly x Hin); [contradiction | assumption].
  - intros ->. tauto.
Qed.

Lemma sqrt_4_half : (sqrt (IZR 4) / 2 = 1)%R.
Proof.
  replace (IZR 4) with (2 * 2)%R by (simpl; Lra.lra).
  rewrite sqrt_square by Lra.lra. Lra.lra.
Qed.

(** C7: Spec property 1: a two-dimensional label image whose only label covers
    the pixels [(0,0)] and [(0,2)] yields one focus, centred at [(0,1)]
    with radius [1]. *)
Theorem two_pixel_focus g v : length g <> 1%nat -> v <> 0%Z ->
  (forall x, In x (concat g) -> x = 0%Z \/ x = v) ->
  region_pixels g v = [(0, 0); (0, 2)]%Z ->
  exists f, extract_foci g = Some [f] /\ f_row f == 0 /\ f_col f == 1 /\ focus_radius f = 1%R.
Proof.
  intros Hg Hnz Honly Hreg.
  assert (In v (concat g)) as Hv by (apply (region_pixels_In g v (0, 0)%Z); rewrite Hreg; now left).
  unfold extract_foci. rewrite label_regions_two_dim, (nonzero_values_only g v) by assumption.
  simpl. rewrite Hreg. eexists. split; [reflexivity|].
  split; [reflexivity|]. split; [reflexivity|]. apply sqrt_4_half.
Qed.

Lemma two_pixel_focus_witness :
  exists f, extract_foci [[1; 0; 1]; [0; 0; 0]]%Z = Some [f] /\
    f_row f == 0 /\ f_col f == 1 /\ focus_radius f = 1%R.
Proof.
  apply (two_pixel_focus [[1; 0; 1]; [0; 0; 0]]%Z 1%Z).
  - discriminate.
  - discriminate.
  - intros x Hx. simpl in Hx. intuition.
  - reflexivity.
Defined.

(** On a [1 x 3] image the same label makes the code raise instead. *)
Example two_pixel_one_row_raises : extract_foci [[1; 0; 1]]%Z = None.
Proof. reflexivity. Qed.

(** Negative labels are not skipped: only the value [0] is (line 27). *)
Example negative_label_extracted :
  option_map (map Draw.round_focus) (extract_foci [[-1; -1; -1]; [0; 0; 0]]%Z) = Some [(0, 1, 1)]%Z.
Proof. reflexivity. Qed.

(** C20: Two horizontally adjacent pixels form a focus of radius [1/2 > 0], so
    it is kept (line 40), but [torch.round] sends [1/2] to [0]: the circle
    is drawn with radius [0]. *)
Theorem adjacent_pair_drawn_radius_zero (i j : Z) :
  exists f, focus_of_label ([(i, j); (i, j + 1)]%Z) = Some (Some f) /\
    (0 < focus_radius f)%R /\ round_sqrt_half (f_diam_sq f) = 0%Z.
Proof.
  unfold focus_of_label, max_distance_sq. cbn.
  rewrite Z.max_id, Z.min_id, Z.sub_diag.
  replace (Z.max j (j + 1)) with (j + 1)%Z by lia. replace (Z.min j (j + 1)) with j by lia.
  replace (j + 1 - j)%Z with 1%Z by ring. simpl.
  eexists. split; [reflexivity|]. split; [|reflexivity].
  unfold focus_radius. simpl. apply radius_pos_iff; lia.
Qed.

End Examples.

Module DrawFacts.
Import Labels Draw.

Lemma circle_of_round col f x y r :
  round_focus f = (x, y, r) -> circle_of col f = mk_circle (y, x) r col 1.
Proof. unfold circle_of. now intros ->. Qed.

(** [draw_label] keeps the pixels and appends one circle per focus, in the
    order of the foci. *)
Theorem draw_label_spec fs img col :
  draw_label fs img col = mk_canvas (cv_pixels img) (cv_circles img ++ map (circle_of col) fs).
Proof.
  unfold draw_label. revert img. induction fs as [|f fs IH]; intros img; cbn [map fold_left].
  - destruct img; cbn. now rewrite app_nil_r.
  - destruct (round_focus f) as [[x y] r] eqn:E. rewrite IH. unfold cv_circle.
    cbn [cv_pixels cv_circles]. rewrite <- app_assoc. cbn [app].
    now rewrite (circle_of_round col f x y r E).
Qed.

(** [draw_label_img] draws exactly the extracted foci: it raises when the
    extraction raises, and otherwise appends one circle per focus to the
    circles already on the image (none when there is no focus). *)
Theorem draw_label_img_spec g img col :
  draw_label_img g img col =
  option_map (fun fs => mk_canvas (cv_pixels img) (cv_circles img ++ map (circle_of col) fs))
    (extract_foci g).
Proof.
  unfold draw_label_img. destruct (extract_foci g) as [[|f fs]|]; simpl; try reflexivity.
  - destruct img; simpl. now rewrite app_nil_r.
  - now rewrite draw_label_spec.
Qed.

End DrawFacts.
