(* ===== verification/Watershed.v ===== *)
(** * Watershed segmentation ([watershed_label], lines 58-72)

    [watershed_label] casts a mask to integers, computes its Euclidean
    distance transform, seeds markers at the local maxima of the distance
    (3x3 footprint), labels the markers and floods [-distance] from them
    inside the mask.  The four library routines (scipy's
    [distance_transform_edt] and [label], scikit-image's [peak_local_max]
    and [watershed]) are the interface [Segmenter]; the guarantees the rest
    of the code relies on ([watershed] labels only points of the mask, with
    non-negative labels, in the mask's shape) are [SegmenterLaws].  The
    composition of lines 65-72 is modelled as written. *)

From Stdlib Require Import ZArith QArith Qround List Lia.
From S2P Require Import Prelude LabelExtraction.
Import ListNotations.

(** A 2-d array lookup [a[i, j]]. *)
Definition grid_at {A} (g : list (list A)) (i j : nat) : option A :=
  match nth_error g i with Some row => nth_error row j | None => None end.

(** [map] with the index, as [np.zeros(shape)] filled position by position. *)
Definition mapi2 {A B} (f : Z -> Z -> A -> B) (g : list (list A)) : list (list B) :=
  map (fun '(i, row) => map (fun '(j, x) => f i j x) (enumerate row)) (enumerate g).

(** The library routines called by [watershed_label]. *)
Class Segmenter := {
  (** the scalar type of the distance map (floats) *)
  dist_val : Type;
  dist_neg : dist_val -> dist_val;
  distance_transform_edt : list (list Z) -> list (list dist_val);
  (** [peak_local_max(distance, footprint=..., labels=image)]: coordinates *)
  peak_local_max : list (list dist_val) -> list (list bool) -> list (list Z) -> list (Z * Z);
  (** [ndi.label(mask)[0]] *)
  ndi_label : list (list bool) -> list (list Z);
  (** [watershed(image, markers, mask=mask)] *)
  watershed : list (list dist_val) -> list (list Z) -> list (list Z) -> list (list Z)
}.

(** What scikit-image documents for [watershed] with a mask. *)
Class SegmenterLaws `{Segmenter} : Prop := {
  watershed_shape : forall d m msk, map (@length Z) (watershed d m msk) = map (@length Z) msk;
  watershed_outside_mask : forall d m msk i j,
    grid_at msk i j = Some 0%Z -> grid_at (watershed d m msk) i j = Some 0%Z;
  watershed_nonneg : forall d m msk x, In x (concat (watershed d m msk)) -> (0 <= x)%Z
}.

(** [x.astype(int)] on a float: truncation towards zero. *)
Definition py_int (q : Q) : Z :=
  if Qle_bool 0 q then Qfloor q else (- Qfloor (- q))%Z.

(** [np.ones((3, 3))] *)
Definition footprint3 : list (list bool) := repeat (repeat true 3) 3.

Section WatershedLabel.
Context `{Segmenter}.

(** Lines 58-72. *)
Definition watershed_label (image : list (list Q)) : list (list Z) :=
  let image := map (map py_int) image in
  let distance := distance_transform_edt image in
  let coords := peak_local_max distance footprint3 image in
  let mask := mapi2 (fun i j _ => existsb (fun c => (fst c =? i)%Z && (snd c =? j)%Z) coords)
                    distance in
  let markers := ndi_label mask in
  watershed (map (map dist_neg) distance) markers image.

End WatershedLabel.

(** ** Lemmas on 2-d lookups *)

Lemma grid_at_map {A B} (f : A -> B) g i j :
  grid_at (map (map f) g) i j = option_map f (grid_at g i j).
Proof.
  unfold grid_at. rewrite nth_error_map.
  destruct (nth_error g i); simpl; [apply nth_error_map | reflexivity].
Qed.

Lemma grid_at_In {A} (g : list (list A)) i j x : grid_at g i j = Some x -> In x (concat g).
Proof.
  unfold grid_at. destruct (nth_error g i) as [row|] eqn:Hr; [|discriminate].
  intros Hx. apply in_concat. exists row. split; eapply nth_error_In; eassumption.
Qed.

Lemma In_concat_grid_at {A} (g : list (list A)) x :
  In x (concat g) -> exists i j, grid_at g i j = Some x.
Proof.
  intros (row & Hrow & Hx)%in_concat.
  apply In_nth_error in Hrow as [i Hi], Hx as [j Hj].
  exists i, j. unfold grid_at. now rewrite Hi.
Qed.

(** Two arrays of the same shape have the same valid positions. *)
Lemma grid_at_same_shape {A B} (g1 : list (list A)) (g2 : list (list B)) i j x :
  map (@length A) g1 = map (@length B) g2 -> grid_at g1 i j = Some x ->
  exists y, grid_at g2 i j = Some y.
Proof.
  revert g2 i. induction g1 as [|r1 g1 IH]; intros [|r2 g2] i Hs Hx; try discriminate.
  - destruct i; discriminate.
  - injection Hs as Hl Hs. destruct i as [|i]; [|exact (IH g2 i Hs Hx)].
    unfold grid_at in *; simpl in *.
    destruct (nth_error r2 j) eqn:E; [eauto|].
    apply nth_error_None in E. assert (nth_error r1 j <> None) as Hx' by congruence.
    apply nth_error_Some in Hx'. lia.
Qed.

Module WatershedFacts.
Import Labels LabelsFacts Extraction.

Section Laws.
Context `{SegmenterLaws}.

(** [watershed_label] labels nothing outside the mask: a pixel whose value
    truncates to [0] gets label [0]. *)
Theorem watershed_label_background image i j q :
  grid_at image i j = Some q -> py_int q = 0%Z -> grid_at (watershed_label image) i j = Some 0%Z.
Proof.
  intros Hq Hz. unfold watershed_label. apply watershed_outside_mask.
  rewrite grid_at_map, Hq. simpl. now rewrite Hz.
Qed.

Lemma watershed_label_foreground image i j v :
  grid_at (watershed_label image) i j = Some v -> v <> 0%Z ->
  exists q, grid_at image i j = Some q /\ py_int q <> 0%Z.
Proof.
  intros Hv Hnz. unfold watershed_label in Hv.
  destruct (grid_at_same_shape _ (map (map py_int) image) i j v (watershed_shape _ _ _) Hv)
    as [y Hy].
  rewrite grid_at_map in Hy. destruct (grid_at image i j) as [q|] eqn:Hq; [|discriminate].
  exists q. split; [reflexivity|]. intros Hz. injection Hy as <-.
  apply (watershed_label_background image i j q Hq) in Hz. unfold watershed_label in Hz.
  congruence.
Qed.

(** C16: Every focus drawn from [watershed_label image] comes from a label all
    of whose pixels are foreground pixels of [image]. *)
Theorem foci_in_foreground image fs f :
  extract_foci (watershed_label image) = Some fs -> In f fs ->
  exists v, v <> 0%Z /\ focus_of_label (region_pixels (watershed_label image) v) = Some (Some f) /\
    forall i j, In (i, j) (region_pixels (watershed_label image) v) ->
      exists q, grid_at image (Z.to_nat i) (Z.to_nat j) = Some q /\ py_int q <> 0%Z.
Proof.
  intros Hfs Hf. destruct (extract_foci_sound _ _ _ Hfs Hf) as (v & Hnz & Hv).
  exists v. repeat split; [exact Hnz | exact Hv|].
  intros i j (_ & _ & row & Hr & Hx)%In_region_pixels.
  apply (watershed_label_foreground _ _ _ v); [unfold grid_at; now rewrite Hr | exact Hnz].
Qed.

(** C17: A mask with no foreground pixel yields no focus. *)
Theorem watershed_label_empty_mask image :
  (forall q, In q (concat image) -> py_int q = 0%Z) ->
  extract_foci (watershed_label image) = Some [].
Proof.
  intros Hz. apply extract_foci_background. intros x Hx.
  destruct (Z.eq_dec x 0) as [|Hnz]; [assumption|]. exfalso.
  destruct (In_concat_grid_at _ _ Hx) as (i & j & Hij).
  destruct (watershed_label_foreground image i j x Hij Hnz) as (q & Hq & Hq0).
  apply Hq0, Hz. eapply grid_at_In. exact Hq.
Qed.

End Laws.
End WatershedFacts.

(** ** A segmenter satisfying the laws

    Every foreground point of the mask gets label [1].  It instantiates the
    interface in concrete runs (witnesses); it is not scikit-image. *)
Module StubSegmenter.

#[export] Instance stub_segmenter : Segmenter := {
  dist_val := Z;
  dist_neg := Z.opp;
  distance_transform_edt := fun img => img;
  peak_local_max := fun _ _ _ => [];
  ndi_label := map (map (fun b : bool => if b then 1%Z else 0%Z));
  watershed := fun _ _ msk => map (map (fun x => if (x =? 0)%Z then 0%Z else 1%Z)) msk
}.

#[export] Instance stub_segmenter_laws : SegmenterLaws.
Proof.
  split; simpl.
  - intros _ _ msk. rewrite map_map. apply map_ext. intros row. apply length_map.
  - intros _ _ msk i j Hz. now rewrite grid_at_map, Hz.
  - intros _ _ msk x (row & (row' & <- & _)%in_map_iff & (y & <- & _)%in_map_iff)%in_concat.
    destruct (y =? 0)%Z; lia.
Qed.

End StubSegmenter.

Module WatershedWitnesses.
Import Labels WatershedFacts StubSegmenter.

Definition two_dots : list (list Q) := [[1; 0; 1]; [0; 0; 0]].

Definition two_dots_focus : focus := mk_focus (Qmean [0; 0]%Z) (Qmean [0; 2]%Z) 4.

Lemma foci_in_foreground_witness :
  extract_foci (watershed_label two_dots) = Some [two_dots_focus] /\
  In two_dots_focus [two_dots_focus] /\
  exists v, v <> 0%Z /\
    focus_of_label (region_pixels (watershed_label two_dots) v) = Some (Some two_dots_focus) /\
    forall i j, In (i, j) (region_pixels (watershed_label two_dots) v) ->
      exists q, grid_at two_dots (Z.to_nat i) (Z.to_nat j) = Some q /\ py_int q <> 0%Z.
Proof.
  assert (extract_foci (watershed_label two_dots) = Some [two_dots_focus]) as Hfs
    by reflexivity.
  split; [exact Hfs|]. split; [now left|].
  exact (foci_in_foreground two_dots _ _ Hfs (or_introl eq_refl)).
Defined.

Lemma watershed_label_empty_mask_witness :
  (forall q, In q (concat [[0; 0]; [0; 0]]) -> py_int q = 0%Z) /\
  extract_foci (watershed_label [[0; 0]; [0; 0]]) = Some [].
Proof.
  assert (forall q, In q (concat [[0; 0]; [0; 0]]) -> py_int q = 0%Z) as H
    by (intros q Hq; simpl in Hq; intuition (subst; reflexivity)).
  split; [exact H | exact (watershed_label_empty_mask _ H)].
Defined.

End WatershedWitnesses.
