(* ===== verification/Visualize.v ===== *)
(** * Visualisation of predictions ([visualize_predictions], lines 75-142)

    For the first two samples of a batch whose ground truth has a positive
    pixel, the ground-truth mask and the prediction thresholded at [0.5]
    are segmented with [watershed_label], their foci are drawn on the
    image (prediction in magenta first, ground truth in green on top), and
    the two panels are saved to [save_path] (or shown).  With fewer than two
    such samples nothing happens.  Each panel goes through [imshow], which
    raises for an image whose channel count is not one, three or four.  The
    figure is modelled by its panels and its title; axis styling and [dpi]
    are recorded, not rendered. *)

From Stdlib Require Import String Ascii DecimalString DecimalPos DecimalZ.
From Stdlib Require Import ZArith QArith Qround List Lia.
From S2P Require Import Prelude Rounding LabelExtraction Watershed Paths.
Import ListNotations.

Module Viz.
Import Labels Draw.

(** A [C x H x W] tensor. *)
Definition tensor3 := list (list (list Q)).

(** Line 82: [(labels[i] > 0).any()]. *)
Definition any_positive (t : tensor3) : bool :=
  existsb (fun q => negb (Qle_bool q 0)) (concat (concat t)).

(** Line 82: the first two sample indices with a positive ground-truth pixel. *)
Definition select_indices (labels : list tensor3) : list nat :=
  firstn 2 (filter (fun i => any_positive (nth i labels [])) (seq 0 (length labels))).

(** Line 90: [img.permute(1, 2, 0)], from [C x H x W] to [H x W x C]. *)
Definition permute_120 (img : tensor3) : image :=
  match img with
  | [] => []
  | ch0 :: _ =>
      map (fun h => map (fun w => flat_map (fun ch => match grid_at ch h w with
                                                     | Some x => [x] | None => [] end) img)
                        (seq 0 (length (nth h ch0 []))))
          (seq 0 (length ch0))
  end.

(** Lines 97-99: [(pred_label[0] > 0.5).float()]. *)
Definition threshold (pred : list (list Q)) : list (list Q) :=
  map (map (fun q => if Qle_bool q (1#2) then 0 else 1)) pred.

Definition magenta : color := (1, 0, 1)%Z.
Definition green : color := (0, 1, 0)%Z.

(** A figure: its panels, left to right, and its title. *)
Record figure := mk_figure { fig_panels : list canvas; fig_title : string }.

(** What a call does: nothing, [plt.savefig(path, dpi=...)], or
    [plt.show()]. *)
Inductive viz_effect :=
| VizSkipped
| VizSaved (path : string) (dpi : Z) (fig : figure)
| VizShown (fig : figure).

(** Line 112: [axes[index].imshow(img)] on the [H x W x C] image.
    matplotlib squeezes a single channel to a 2-d image and accepts three
    (RGB) or four (RGBA) channels; any other last dimension raises
    [TypeError: Invalid shape].  [C] is the sample's channel count, which
    [permute(1, 2, 0)] moved last and the drawing keeps (OpenCV's
    [cv.circle] refuses more than four channels, which raises earlier and
    ends the call the same way). *)
Definition imshow_channels_ok (channels : nat) : bool :=
  ((channels =? 1) || (channels =? 3) || (channels =? 4))%nat.

Definition imshow (channels : nat) (img : canvas) : option canvas :=
  if imshow_channels_ok channels then Some img else None.

Section Render.
Context `{Segmenter}.

(** Lines 87-112 for one sample; [None]: [label[0]] or [pred_label[0]]
    raises, the extraction does, or [imshow] rejects the image's shape. *)
Definition render_panel (img label pred_label : tensor3) : option canvas :=
  match label, pred_label with
  | label0 :: _, pred0 :: _ =>
      let sharpened_label := watershed_label label0 in
      let sharpened_pred_label := watershed_label (threshold pred0) in
      match draw_label_img sharpened_pred_label (mk_canvas (permute_120 img) []) magenta with
      | None => None
      | Some img1 =>
          match draw_label_img sharpened_label img1 green with
          | None => None
          | Some img2 => imshow (length img) img2
          end
      end
  | _, _ => None
  end.

(** Line 139. *)
Definition title (epoch : Z) : string :=
  ("Epoch " ++ NilZero.string_of_int (Z.to_int epoch) ++ ", Green = true label")%string.

(** Lines 75-142; [None] when the call raises. *)
Definition visualize_predictions (imgs labels pred_labels : list tensor3) (save_path : string)
    (epoch : Z) (plot : bool) : option viz_effect :=
  let indices := select_indices labels in
  if (length indices <? 2)%nat then Some VizSkipped
  else
    match otraverse (fun i => match nth_error imgs i, nth_error labels i, nth_error pred_labels i with
                              | Some img, Some label, Some pred => render_panel img label pred
                              | _, _, _ => None
                              end) indices with
    | None => None
    | Some panels =>
        let fig := mk_figure panels (title epoch) in
        Some (if plot then VizShown fig else VizSaved save_path 500 fig)
    end.

End Render.
End Viz.

Module VizFacts.
Import Labels Draw Viz LabelsFacts Extraction DrawFacts.

(** The number of samples with a positive ground-truth pixel. *)
Definition count_qualifying (labels : list tensor3) : nat :=
  length (filter (fun i => any_positive (nth i labels [])) (seq 0 (length labels))).

(** A sample whose ground truth and prediction have a first channel that
    is a genuine 2-d image (height other than [1]). *)
Definition well_formed_sample (label pred : tensor3) : Prop :=
  exists l0 ls p0 ps, label = l0 :: ls /\ pred = p0 :: ps /\
    length l0 <> 1%nat /\ length p0 <> 1%nat.

Lemma length_select_indices labels :
  length (select_indices labels) = Nat.min 2 (count_qualifying labels).
Proof. unfold select_indices, count_qualifying. apply length_firstn. Qed.

Lemma In_select_indices labels i : In i (select_indices labels) ->
  (i < length labels)%nat /\ any_positive (nth i labels []) = true.
Proof.
  unfold select_indices. intros (Hi & Hq)%In_firstn%filter_In.
  apply in_seq in Hi. split; [lia | exact Hq].
Qed.

Lemma watershed_label_length `{SegmenterLaws} (x : list (list Q)) :
  length (watershed_label x) = length x.
Proof.
  unfold watershed_label. rewrite <- (length_map (@length Z)), watershed_shape.
  now rewrite !length_map.
Qed.

Lemma filter_seq_increasing (f : nat -> bool) a n x l :
  filter f (seq a n) = x :: l -> forall y, In y l -> (x < y)%nat.
Proof.
  revert a. induction n as [|n IH]; intros a; simpl; [discriminate|].
  destruct (f a).
  - intros [= <- <-] y (Hy & _)%filter_In. apply in_seq in Hy. lia.
  - apply IH.
Qed.

Lemma select_indices_two labels : (2 <= count_qualifying labels)%nat ->
  exists i0 i1, select_indices labels = [i0; i1] /\ (i0 < i1)%nat.
Proof.
  intros Hc. pose proof (length_select_indices labels) as Hl.
  unfold select_indices in *.
  destruct (filter _ (seq 0 (length labels))) as [|i0 [|i1 rest]] eqn:E;
    cbn [firstn length] in Hl; try lia.
  exists i0, i1. split; [reflexivity|].
  apply (filter_seq_increasing _ _ _ _ _ E). now left.
Qed.

(** The panel promised for a sample: the prediction's foci in magenta,
    then the ground truth's foci in green on top, over the permuted image. *)
Definition panel_spec `{Segmenter} (img label pred : tensor3) (c : canvas) : Prop :=
  exists l0 p0 fp ft,
    hd_error label = Some l0 /\ hd_error pred = Some p0 /\
    extract_foci (watershed_label (threshold p0)) = Some fp /\
    extract_foci (watershed_label l0) = Some ft /\
    c = mk_canvas (permute_120 img) (map (circle_of magenta) fp ++ map (circle_of green) ft).

Lemma render_panel_eq `{SegmenterLaws} img label pred :
  well_formed_sample label pred ->
  exists c, render_panel img label pred = imshow (length img) c /\ panel_spec img label pred c.
Proof.
  intros (l0 & ls & p0 & ps & -> & -> & Hl & Hp).
  destruct (extract_foci_total (watershed_label (threshold p0))) as [fp Hfp].
  { rewrite watershed_label_length. unfold threshold. now rewrite length_map. }
  destruct (extract_foci_total (watershed_label l0)) as [ft Hft].
  { now rewrite watershed_label_length. }
  eexists. split; [|exists l0, p0, fp, ft; repeat split; eassumption].
  unfold render_panel. rewrite draw_label_img_spec, Hfp. cbn [option_map].
  rewrite draw_label_img_spec, Hft. reflexivity.
Qed.

(** C6: Spec property 4: with fewer than two samples that have a positive
    ground-truth pixel, the call does nothing (no figure is written). *)
Theorem visualize_skips `{Segmenter} (imgs labels preds : list tensor3) path epoch plot :
  (count_qualifying labels < 2)%nat ->
  visualize_predictions imgs labels preds path epoch plot = Some VizSkipped.
Proof.
  intros Hc. unfold visualize_predictions.
  replace (length (select_indices labels) <? 2)%nat with true; [reflexivity|].
  symmetry. apply Nat.ltb_lt. rewrite length_select_indices. lia.
Qed.

(** With two qualifying samples whose first channels are 2-d maps, the
    call draws the two panels and passes each to [imshow]. *)
Lemma visualize_two_panels `{SegmenterLaws} (imgs labels preds : list tensor3) path epoch plot :
  (2 <= count_qualifying labels)%nat ->
  length imgs = length labels -> length preds = length labels ->
  (forall i, In i (select_indices labels) -> well_formed_sample (nth i labels []) (nth i preds [])) ->
  exists i0 i1 c0 c1,
    select_indices labels = [i0; i1] /\ (i0 < i1)%nat /\
    panel_spec (nth i0 imgs []) (nth i0 labels []) (nth i0 preds []) c0 /\
    panel_spec (nth i1 imgs []) (nth i1 labels []) (nth i1 preds []) c1 /\
    visualize_predictions imgs labels preds path epoch plot =
      match imshow (length (nth i0 imgs [])) c0, imshow (length (nth i1 imgs [])) c1 with
      | Some d0, Some d1 =>
          Some (let fig := mk_figure [d0; d1] (title epoch) in
                if plot then VizShown fig else VizSaved path 500 fig)
      | _, _ => None
      end.
Proof.
  intros Hc Hi Hp Hwf. destruct (select_indices_two labels Hc) as (i0 & i1 & Hsel & Hlt).
  assert (forall i, In i (select_indices labels) -> exists c,
            (render_panel (nth i imgs []) (nth i labels []) (nth i preds []) = imshow (length (nth i imgs [])) c /\
             panel_spec (nth i imgs []) (nth i labels []) (nth i preds []) c) /\
            (i < length labels)%nat) as Hpanel.
  { intros i Hin. destruct (render_panel_eq (nth i imgs []) _ _ (Hwf i Hin)) as [c Hpc].
    exists c. split; [exact Hpc | now apply In_select_indices]. }
  rewrite Hsel in Hpanel.
  destruct (Hpanel i0 (or_introl eq_refl)) as (c0 & [Hc0 Hs0] & Hl0).
  destruct (Hpanel i1 (or_intror (or_introl eq_refl))) as (c1 & [Hc1 Hs1] & Hl1).
  exists i0, i1, c0, c1. repeat split; try assumption.
  unfold visualize_predictions. rewrite Hsel. cbn [otraverse length Nat.ltb Nat.leb].
  rewrite !(@nth_error_nth_lt tensor3 _ _ []) by lia. rewrite Hc0, Hc1.
  destruct (imshow _ c0), (imshow _ c1); reflexivity.
Qed.

(** C2: With at least two qualifying samples in well-formed batches whose
    images have one, three or four channels, the call renders the first
    two of them, left to right, and saves (or shows) the figure titled
    with the epoch. *)
Theorem visualize_renders `{SegmenterLaws} (imgs labels preds : list tensor3) path epoch plot :
  (2 <= count_qualifying labels)%nat ->
  length imgs = length labels -> length preds = length labels ->
  (forall i, In i (select_indices labels) -> well_formed_sample (nth i labels []) (nth i preds [])) ->
  (forall i, In i (select_indices labels) -> imshow_channels_ok (length (nth i imgs [])) = true) ->
  exists i0 i1 c0 c1,
    select_indices labels = [i0; i1] /\ (i0 < i1)%nat /\
    panel_spec (nth i0 imgs []) (nth i0 labels []) (nth i0 preds []) c0 /\
    panel_spec (nth i1 imgs []) (nth i1 labels []) (nth i1 preds []) c1 /\
    visualize_predictions imgs labels preds path epoch plot =
      Some (let fig := mk_figure [c0; c1] (title epoch) in
            if plot then VizShown fig else VizSaved path 500 fig).
Proof.
  intros Hc Hi Hp Hwf Hch.
  destruct (visualize_two_panels imgs labels preds path epoch plot Hc Hi Hp Hwf)
    as (i0 & i1 & c0 & c1 & Hsel & Hlt & Hs0 & Hs1 & ->).
  exists i0, i1, c0, c1. repeat split; try assumption.
  rewrite Hsel in Hch. unfold imshow.
  rewrite (Hch i0 (or_introl eq_refl)), (Hch i1 (or_intror (or_introl eq_refl))). reflexivity.
Qed.

(** C3: Line 112 raises: when one of the two rendered samples has an
    image whose channel count is not one, three or four, [imshow] raises
    [TypeError] and the call fails, after the figure was opened and nothing
    was written. *)
Theorem visualize_bad_channels_raises `{SegmenterLaws} (imgs labels preds : list tensor3) path epoch plot :
  (2 <= count_qualifying labels)%nat ->
  length imgs = length labels -> length preds = length labels ->
  (forall i, In i (select_indices labels) -> well_formed_sample (nth i labels []) (nth i preds [])) ->
  (exists i, In i (select_indices labels) /\ imshow_channels_ok (length (nth i imgs [])) = false) ->
  visualize_predictions imgs labels preds path epoch plot = None.
Proof.
  intros Hc Hi Hp Hwf (i & Hin & Hbad).
  destruct (visualize_two_panels imgs labels preds path epoch plot Hc Hi Hp Hwf)
    as (i0 & i1 & c0 & c1 & Hsel & _ & _ & _ & ->).
  rewrite Hsel in Hin. unfold imshow.
  destruct Hin as [E|[E|[]]]; subst i; rewrite Hbad;
    [|destruct (imshow_channels_ok (length (nth i0 imgs [])))]; reflexivity.
Qed.

(** ** The figure title *)

(** Reading the epoch back from a title, as a reader of the saved figure
    does: strip ["Epoch "] and [", Green = true label"], parse the integer. *)
Fixpoint strip_prefix (p s : list ascii) : option (list ascii) :=
  match p, s with
  | [], _ => Some s
  | a :: p', b :: s' => if Ascii.eqb a b then strip_prefix p' s' else None
  | _ :: _, [] => None
  end.

Definition parse_title (t : string) : option Z :=
  match strip_prefix (list_ascii_of_string "Epoch ") (list_ascii_of_string t) with
  | None => None
  | Some r =>
      match strip_prefix (rev (list_ascii_of_string ", Green = true label")) (rev r) with
      | None => None
      | Some num => option_map Z.of_int (NilZero.int_of_string (string_of_list_ascii (rev num)))
      end
  end.

Lemma strip_prefix_app p r : strip_prefix p (p ++ r) = Some r.
Proof. induction p as [|a p IH]; [reflexivity|]. cbn. now rewrite Ascii.eqb_refl. Qed.

(** C29: Round trip of the figure title (line 139): the epoch is read back
    from the title [f"Epoch {epoch}, Green = true label"] for every
    integer epoch, negative ones included, so figures of different epochs
    carry different titles. *)
Theorem parse_title_roundtrip epoch : parse_title (title epoch) = Some epoch.
Proof.
  unfold parse_title, title. rewrite !PosixPath.list_ascii_app.
  rewrite strip_prefix_app, rev_app_distr, strip_prefix_app, rev_involutive,
    string_of_list_ascii_of_string.
  rewrite NilZero.isi; [cbn [option_map]; now rewrite DecimalZ.of_to | |];
    destruct epoch; cbn; try discriminate;
    intros [= E]; exact (DecimalPos.Unsigned.to_uint_nonnil _ E).
Qed.

(** ** [img.permute(1, 2, 0)] *)

(** A [c x h x w] tensor: [c] channels of [h] rows of [w] values. *)
Definition shape3 {A} (t : list (list (list A))) (c h w : nat) : Prop :=
  length t = c /\ Forall (fun ch => length ch = h /\ Forall (fun row => length row = w) ch) t.

(** [t[i, j, k]]. *)
Definition at3 {A} (t : list (list (list A))) (i j k : nat) : option A :=
  match grid_at t i j with Some v => nth_error v k | None => None end.

Lemma grid_at_shape {A} (ch : list (list A)) h w i j :
  length ch = h -> Forall (fun row => length row = w) ch -> (i < h)%nat -> (j < w)%nat ->
  grid_at ch i j <> None.
Proof.
  intros Hh Hw Hi Hj. unfold grid_at.
  destruct (nth_error ch i) as [row|] eqn:E; [|apply nth_error_None in E; lia].
  rewrite Forall_forall in Hw. pose proof (Hw row (nth_error_In _ _ E)) as Hr.
  destruct (nth_error row j) eqn:E2; [discriminate | apply nth_error_None in E2; lia].
Qed.

(** Collecting the defined entries, when all are defined, is [map]. *)
Lemma nth_error_flat_map_some {A B} (f : A -> option B) (l : list A) k :
  (forall x, In x l -> f x <> None) ->
  nth_error (flat_map (fun x => match f x with Some y => [y] | None => [] end) l) k =
  match nth_error l k with Some x => f x | None => None end.
Proof.
  revert k. induction l as [|x l IH]; intros [|k] Hf; cbn; [reflexivity | reflexivity | |];
    (destruct (f x) eqn:E; [|exfalso; exact (Hf x (or_introl eq_refl) E)]); [reflexivity|].
  apply IH. intros; apply Hf; now right.
Qed.

Lemma length_flat_map_some {A B} (f : A -> option B) (l : list A) :
  (forall x, In x l -> f x <> None) ->
  length (flat_map (fun x => match f x with Some y => [y] | None => [] end) l) = length l.
Proof.
  induction l as [|x l IH]; intros Hf; [reflexivity|]. cbn.
  destruct (f x) eqn:E; [|exfalso; exact (Hf x (or_introl eq_refl) E)].
  cbn. f_equal. apply IH. intros; apply Hf; now right.
Qed.

(** Every channel of a well-shaped tensor is defined at [(i, j)]. *)
Lemma channels_defined {A} (img : list (list (list A))) c h w i j :
  shape3 img c h w -> (i < h)%nat -> (j < w)%nat -> forall ch, In ch img -> grid_at ch i j <> None.
Proof.
  intros [_ Hf] Hi Hj ch Hch. rewrite Forall_forall in Hf. destruct (Hf ch Hch) as [Hh Hw].
  exact (grid_at_shape ch h w i j Hh Hw Hi Hj).
Qed.

(** C28: Type of [img.permute(1, 2, 0)] (line 90): a [C x H x W] image with
    at least one channel becomes an [H x W x C] image, and pixel [(i, j)]
    holds channel [k] of the source at [(i, j)]. *)
Theorem permute_120_spec img c h w :
  (0 < c)%nat -> shape3 img c h w ->
  shape3 (permute_120 img) h w c /\
  forall i j k, (i < h)%nat -> (j < w)%nat -> (k < c)%nat -> at3 (permute_120 img) i j k = at3 img k i j.
Proof.
  intros Hc Hs. pose proof Hs as [Hlen Hf]. rewrite Forall_forall in Hf.
  destruct img as [|ch0 rest]; [cbn in Hlen; lia|].
  destruct (Hf ch0 (or_introl eq_refl)) as [Hh0 Hw0]. rewrite Forall_forall in Hw0.
  assert (forall i, (i < h)%nat -> length (nth i ch0 []) = w) as Hrow.
  { intros i Hi. apply Hw0, nth_In. lia. }
  unfold permute_120. split.
  - split; [now rewrite length_map, length_seq|].
    apply Forall_forall. intros row (i & <- & Hi%in_seq)%in_map_iff.
    rewrite length_map, length_seq, Hrow by lia. split; [reflexivity|].
    apply Forall_forall. intros px (j & <- & Hj%in_seq)%in_map_iff.
    rewrite length_flat_map_some; [exact Hlen|]. intros ch Hch.
    exact (channels_defined _ c h w i j Hs ltac:(lia) ltac:(lia) ch Hch).
  - intros i j k Hi Hj Hk. unfold at3, grid_at at 1.
    rewrite nth_error_map, nth_error_seq, (proj2 (Nat.ltb_lt _ _)) by lia. cbn [option_map].
    rewrite nth_error_map, nth_error_seq, Hrow, (proj2 (Nat.ltb_lt j w))
      by lia. cbn [option_map].
    rewrite nth_error_flat_map_some
      by (intros ch Hch; exact (channels_defined _ c h w i j Hs Hi Hj ch Hch)).
    cbn [Nat.add]. unfold grid_at. destruct (nth_error (ch0 :: rest) k) as [chk|]; [|reflexivity].
    now destruct (nth_error chk i).
Qed.

End VizFacts.

Module VizWitnesses.
Import Labels Draw Viz VizFacts StubSegmenter.

Definition dots : tensor3 := [[[1; 0; 1]; [0; 0; 0]]].
Definition blank : tensor3 := [[[0; 0; 0]; [0; 0; 0]]].
Definition rgb : tensor3 := [[[0; 0; 0]; [0; 0; 0]]; [[0; 0; 0]; [0; 0; 0]]; [[0; 0; 0]; [0; 0; 0]]].

Lemma visualize_skips_witness :
  (count_qualifying [dots; blank; blank] < 2)%nat /\
  visualize_predictions [rgb; rgb; rgb] [dots; blank; blank] [dots; dots; dots]
    "val_pred.png" 0 false = Some VizSkipped.
Proof.
  split; [vm_compute; lia | apply visualize_skips; vm_compute; lia].
Defined.

Lemma visualize_renders_witness :
  (2 <= count_qualifying [dots; blank; dots])%nat /\
  exists i0 i1 c0 c1,
    select_indices [dots; blank; dots] = [i0; i1] /\ (i0 < i1)%nat /\
    panel_spec (nth i0 [rgb; rgb; rgb] []) (nth i0 [dots; blank; dots] [])
      (nth i0 [blank; blank; dots] []) c0 /\
    panel_spec (nth i1 [rgb; rgb; rgb] []) (nth i1 [dots; blank; dots] [])
      (nth i1 [blank; blank; dots] []) c1 /\
    visualize_predictions [rgb; rgb; rgb] [dots; blank; dots] [blank; blank; dots]
      "val_pred.png" 3 false =
      Some (let fig := mk_figure [c0; c1] (title 3) in
            if false then VizShown fig else VizSaved "val_pred.png" 500 fig).
Proof.
  split; [vm_compute; lia|].
  apply visualize_renders; [vm_compute; lia | reflexivity | reflexivity | |].
  - intros i Hi. change (select_indices [dots; blank; dots]) with [0; 2]%nat in Hi.
    destruct Hi as [<-|[<-|[]]]; do 4 eexists; repeat split; discriminate.
  - intros i Hi. change (select_indices [dots; blank; dots]) with [0; 2]%nat in Hi.
    destruct Hi as [<-|[<-|[]]]; reflexivity.
Defined.

(** A two-channel image (e.g. a stain pair): [imshow] rejects it. *)
Definition two_stains : tensor3 := [[[0; 0; 0]; [0; 0; 0]]; [[0; 0; 0]; [0; 0; 0]]].

Lemma visualize_bad_channels_raises_witness :
  (2 <= count_qualifying [dots; blank; dots])%nat /\
  visualize_predictions [two_stains; rgb; rgb] [dots; blank; dots] [blank; blank; dots]
    "val_pred.png" 3 false = None.
Proof.
  split; [vm_compute; lia|].
  apply visualize_bad_channels_raises; [vm_compute; lia | reflexivity | reflexivity | |].
  - intros i Hi. change (select_indices [dots; blank; dots]) with [0; 2]%nat in Hi.
    destruct Hi as [<-|[<-|[]]]; do 4 eexists; repeat split; discriminate.
  - exists 0%nat. split; [vm_compute; now left | reflexivity].
Defined.

Definition two_channel : tensor3 := [[[1; 2]; [3; 4]]; [[5; 6]; [7; 8]]].

Lemma permute_120_spec_witness :
  (0 < 2)%nat /\ shape3 two_channel 2 2 2 /\
  shape3 (permute_120 two_channel) 2 2 2 /\
  forall i j k, (i < 2)%nat -> (j < 2)%nat -> (k < 2)%nat ->
    at3 (permute_120 two_channel) i j k = at3 two_channel k i j.
Proof.
  assert (shape3 two_channel 2 2 2) as Hs by (split; [reflexivity | repeat constructor]).
  split; [lia|]. split; [exact Hs|].
  exact (permute_120_spec two_channel 2 2 2 ltac:(lia) Hs).
Defined.

End VizWitnesses.
