(* ===== verification/Loss.v ===== *)
(** * The training loss ([self.loss], line 151; [t.nn.BCELoss])

    [Model.__init__] sets [self.loss = lambda x, y: self.criterion(
    x.flatten(), y.flatten())] with [criterion = t.nn.BCELoss()]: the mean
    over all elements of [-(y log x + (1 - y) log(1 - x))], where torch
    clamps each logarithm to at least [-100].  torch (1.x, the releases
    of the Lightning API this module uses) raises when the two tensors
    differ in size and when an input lies outside [[0, 1]]; later releases
    also check the targets, which the labels ([0/1] masks) pass.  The mean
    over no element is [nan].  The logarithm is a parameter of the
    section (the float math library); the theorems that need its sign
    assume it is non-positive on [(0, 1]]. *)

From Stdlib Require Import ZArith QArith Qminmax List Permutation Lia Lqa Psatz.
From Stdlib Require Import Morphisms.
From S2P Require Import Prelude.
Import ListNotations.

Module BCE.

(** A batch tensor [N x C x H x W], flattened in row-major order. *)
Definition flatten (t : list (list (list (list Q)))) : list Q := concat (concat (concat t)).

(** One sample [C x H x W] of the batch, flattened. *)
Definition sample_flat (s : list (list (list Q))) : list Q := concat (concat s).

Section Loss.
Variable log : Q -> Q.

(** [max(log(x), -100)], with [log 0 = -inf]. *)
Definition clamped_log (x : Q) : Q :=
  if Qle_bool x 0 then -100 else Qmax (log x) (-100).

Definition bce_term (x y : Q) : Q :=
  - (y * clamped_log x + (1 - y) * clamped_log (1 - x)).

Definition in_unit (x : Q) : bool := Qle_bool 0 x && Qle_bool x 1.

Fixpoint Qsum (l : list Q) : Q :=
  match l with [] => 0 | x :: l' => x + Qsum l' end.

(** [BCELoss()(x, y)] on flattened tensors; [None] when torch raises. *)
Definition bce_loss (xs ys : list Q) : option pyfloat :=
  if negb (length xs =? length ys)%nat then None
  else if negb (forallb in_unit xs) then None
  else match xs with
       | [] => Some NaN
       | _ => Some (Fin (Qsum (map (fun '(x, y) => bce_term x y) (combine xs ys))
                         / inject_Z (Z.of_nat (length xs))))
       end.

(** Line 151. *)
Definition loss (y_pred labels : list (list (list (list Q)))) : option pyfloat :=
  bce_loss (flatten y_pred) (flatten labels).

(** ** Lemmas *)

Lemma flatten_cons s t : flatten (s :: t) = sample_flat s ++ flatten t.
Proof. unfold flatten, sample_flat. cbn [concat]. now rewrite !concat_app. Qed.

Lemma combine_app_eq {A B} (a c : list A) (b d : list B) :
  length a = length b -> combine (a ++ c) (b ++ d) = combine a b ++ combine c d.
Proof.
  revert b. induction a as [|x a IH]; intros [|y b] H; cbn in *; try discriminate; [reflexivity|].
  f_equal. apply IH. lia.
Qed.

#[export] Instance concat_perm_proper {A} : Proper (@Permutation (list A) ==> @Permutation A) (@concat A).
Proof.
  intros l l' H. induction H as [|x l l' _ IH|x y l|l l' l'' _ IH1 _ IH2]; cbn [concat].
  - reflexivity.
  - now rewrite IH.
  - rewrite !app_assoc. apply Permutation_app_tail, Permutation_app_comm.
  - now rewrite IH1.
Qed.

(** Pairing two batches whose samples agree in size, element by element,
    pairs them sample by sample. *)
Lemma combine_flatten ps ls :
  Forall2 (fun p l => length (sample_flat p) = length (sample_flat l)) ps ls ->
  combine (flatten ps) (flatten ls) =
    concat (map (fun '(p, l) => combine (sample_flat p) (sample_flat l)) (combine ps ls)).
Proof.
  induction 1 as [|p l ps ls Hpl _ IH]; [reflexivity|].
  rewrite !flatten_cons, combine_app_eq by exact Hpl. cbn [combine map concat]. now rewrite IH.
Qed.

Lemma length_flatten ps ls :
  Forall2 (fun p l => length (sample_flat p) = length (sample_flat l)) ps ls ->
  length (flatten ps) = length (flatten ls).
Proof.
  induction 1 as [|p l ps ls Hpl _ IH]; [reflexivity|].
  rewrite !flatten_cons, !length_app. lia.
Qed.


Lemma Qsum_perm (l l' : list Q) : Permutation l l' -> Qsum l == Qsum l'.
Proof.
  induction 1 as [|x l l' _ IH|x y l|l l' l'' _ IH1 _ IH2]; simpl.
  - reflexivity.
  - now rewrite IH.
  - Lqa.lra.
  - now rewrite IH1.
Qed.

Lemma map_fst_combine {A B} (xs : list A) (ys : list B) :
  length xs = length ys -> map fst (combine xs ys) = xs.
Proof.
  revert ys; induction xs as [|x xs IH]; intros [|y ys] H; simpl in *; try discriminate; auto.
  f_equal. apply IH. lia.
Qed.

Lemma forallb_map {A B} (f : B -> bool) (g : A -> B) (l : list A) :
  forallb f (map g l) = forallb (fun x => f (g x)) l.
Proof. induction l as [|x l IH]; simpl; [reflexivity | now rewrite IH]. Qed.

Lemma forallb_perm {A} (f : A -> bool) (l l' : list A) :
  Permutation l l' -> forallb f l = forallb f l'.
Proof.
  intros Hp. apply Bool.eq_true_iff_eq. rewrite !forallb_forall.
  split; intros H x Hx; apply H; [apply (Permutation_in x (Permutation_sym Hp)) |
                                  apply (Permutation_in x Hp)]; exact Hx.
Qed.

Lemma in_unit_iff x : in_unit x = true <-> 0 <= x <= 1.
Proof. unfold in_unit. rewrite Bool.andb_true_iff, !Qle_bool_iff. tauto. Qed.

Lemma Qsum_bounds (l : list Q) (a b : Q) :
  Forall (fun t => a <= t <= b) l ->
  inject_Z (Z.of_nat (length l)) * a <= Qsum l <= inject_Z (Z.of_nat (length l)) * b.
Proof.
  induction 1 as [|t l Ht _ IH]; simpl Qsum; cbn [length].
  - change (inject_Z (Z.of_nat 0)) with 0. Lqa.lra.
  - rewrite Nat2Z.inj_succ, <- Z.add_1_r, inject_Z_plus. change (inject_Z 1) with 1. Lqa.lra.
Qed.

(** ** Theorems *)

(** [BCELoss] on flat tensors does not depend on the order of the
    elements, as long as predictions and labels are permuted together. *)
Lemma bce_loss_perm xs ys xs' ys' :
  length xs = length ys -> length xs' = length ys' ->
  Permutation (combine xs ys) (combine xs' ys') ->
  opt_py_eq (bce_loss xs ys) (bce_loss xs' ys').
Proof.
  intros Hl Hl' Hp.
  assert (length xs = length xs') as Hlen.
  { apply Permutation_length in Hp. rewrite !length_combine in Hp. lia. }
  assert (forallb in_unit xs = forallb in_unit xs') as Hu.
  { rewrite <- (map_fst_combine xs ys Hl), <- (map_fst_combine xs' ys' Hl'), !forallb_map.
    now apply forallb_perm. }
  unfold bce_loss. rewrite Hl, Hl', !Nat.eqb_refl, Hu. cbn [negb].
  destruct (forallb in_unit xs'); [|exact I].
  destruct xs as [|x xs], xs' as [|x' xs']; try discriminate; cbv beta iota; [exact I|].
  cbn [negb]. unfold opt_py_eq, py_eq. rewrite <- Hl, <- Hl', Hlen.
  apply Qdiv_comp; [|reflexivity].
  apply Qsum_perm. now apply Permutation_map.
Qed.

Section Bounds.
(** The float logarithm is non-positive on [(0, 1]]. *)
Hypothesis log_nonpos : forall x, 0 < x <= 1 -> log x <= 0.

Lemma clamped_log_bounds x : 0 <= x <= 1 -> -100 <= clamped_log x <= 0.
Proof.
  intros Hx. unfold clamped_log. destruct (Qle_bool x 0) eqn:E; [Lqa.lra|].
  assert (0 < x) as Hpos.
  { apply Qnot_le_lt. intros H. apply Qle_bool_iff in H. congruence. }
  assert (log x <= 0) as Hlog by (apply log_nonpos; split; [exact Hpos | apply Hx]).
  destruct (Q.max_spec (log x) (-100)) as [[Hm E1]|[Hm E1]]; rewrite E1; Lqa.lra.
Qed.

Lemma bce_term_bounds x y : 0 <= x <= 1 -> 0 <= y <= 1 -> 0 <= bce_term x y <= 100.
Proof.
  intros Hx Hy. unfold bce_term.
  pose proof (clamped_log_bounds x Hx).
  pose proof (clamped_log_bounds (1 - x) ltac:(Lqa.lra)). nra.
Qed.

(** C18: Bounds: with labels in [[0, 1]], the loss lies in [[0, 100]]; the clamp
    of the logarithm at [-100] is what bounds it above. *)
Theorem bce_loss_bounds xs ys l :
  Forall (fun y => 0 <= y <= 1) ys -> bce_loss xs ys = Some (Fin l) -> 0 <= l <= 100.
Proof.
  intros Hys. unfold bce_loss.
  destruct (Nat.eqb_spec (length xs) (length ys)) as [Hl|]; cbn [negb]; [|discriminate].
  destruct (forallb in_unit xs) eqn:Hu; cbn [negb]; [|discriminate].
  rewrite forallb_forall in Hu. rewrite Forall_forall in Hys.
  destruct xs as [|x0 xs0] eqn:Exs; [discriminate|]. rewrite <- Exs in *. intros [= <-].
  assert (Forall (fun t => 0 <= t <= 100)
            (map (fun '(x, y) => bce_term x y) (combine xs ys))) as Hb.
  { apply Forall_forall. intros t ([x y] & <- & Hxy)%in_map_iff.
    apply bce_term_bounds; [apply in_unit_iff, Hu; eapply in_combine_l |
                            apply Hys; eapply in_combine_r]; exact Hxy. }
  apply Qsum_bounds in Hb. rewrite length_map, length_combine, <- Hl, Nat.min_id in Hb.
  assert (0 < inject_Z (Z.of_nat (length xs))) as Hn
    by (rewrite Exs; change 0 with (inject_Z 0); rewrite <- Zlt_Qlt; simpl; lia).
  split.
  - apply Qle_shift_div_l; [exact Hn | Lqa.lra].
  - apply Qle_shift_div_r; [exact Hn | Lqa.lra].
Qed.
End Bounds.

End Loss.
End BCE.

Module LossWitnesses.
Import BCE.

Definition sample_a : list (list (list Q)) := [[[1#4; 3#4]]].
Definition sample_b : list (list (list Q)) := [[[1#2]]].
Definition label_a : list (list (list Q)) := [[[0; 1]]].
Definition label_b : list (list (list Q)) := [[[1]]].


Lemma bce_loss_bounds_witness :
  (forall x, 0 < x <= 1 -> (fun _ : Q => 0) x <= 0) /\
  Forall (fun y => 0 <= y <= 1) [0; 1] /\
  bce_loss (fun _ => 0) [1#4; 3#4] [0; 1] = Some (Fin ((0 + (0 + 0)) / inject_Z 2)) /\
  0 <= (0 + (0 + 0)) / inject_Z 2 <= 100.
Proof.
  assert (forall x, 0 < x <= 1 -> (fun _ : Q => 0) x <= 0) as Hlog
    by (intros x _; apply Qle_refl).
  assert (Forall (fun y => 0 <= y <= 1) [0; 1]) as Hy
    by (repeat constructor; discriminate).
  assert (bce_loss (fun _ => 0) [1#4; 3#4] [0; 1] = Some (Fin ((0 + (0 + 0)) / inject_Z 2)))
    as Hl by reflexivity.
  split; [exact Hlog|]. split; [exact Hy|]. split; [exact Hl|].
  exact (bce_loss_bounds (fun _ => 0) Hlog _ _ _ Hy Hl).
Defined.

End LossWitnesses.
