(* ===== verification/Orchestrator.v ===== *)
(** * The Lightning module ([class Model], lines 145-241)

    The module holds the classifier, the BCE criterion and [best_loss]
    (initially [float("inf")]).  Its hooks are called by the training loop:
    [training_step], [validation_step] and [test_step] compute the loss of a
    batch (and, at batch index [0], print the prediction range or visualise
    the predictions); the [*_epoch_end] hooks average the losses; and
    [validation_epoch_end] checkpoints every configured sub-model when the
    average beats [best_loss].

    The state the hooks touch is the record [orch]: [best_loss], the files
    under [save_path] (a [gmap] from paths to contents), the existing
    directories, the sequence of printed and logged events, and the current
    epoch.  Python's exception semantics are the monad [PyM]: a hook returns
    its final state together with either its value or the exception it
    raised, so the writes done before an exception stay visible.  The
    classifier and [state_dict] are the interface [Network]. *)

From stdpp Require Import base gmap strings.
From Stdlib Require Import String Ascii.
From Stdlib Require Import ZArith QArith Qminmax List Lia.
From S2P Require Import Prelude LabelExtraction Watershed Visualize Loss Paths.
Import ListNotations.

(** ** The classifier (an [nn.Module]) *)
Class Network := {
  weights : Type;
  state_dict : Type;
  (** [self.classifier(x)] *)
  classifier : weights -> list Viz.tensor3 -> list Viz.tensor3;
  (** [self.__getattr__(name).state_dict()]; [None]: no such attribute *)
  module_state : weights -> string -> option state_dict
}.

Module Orch.
Import PosixPath Viz.

(** The configuration fields the module reads ([self.params]). *)
Record config := mk_config { save_path : string; model : list string }.

Section State.
Context `{Network}.

Inductive file :=
| FileEmpty                      (** created by [open(path, "wb")] *)
| FileState (sd : state_dict)    (** written by [t.save] *)
| FileFigure (fig : figure).     (** written by [plt.savefig] *)

Inductive event :=
| EvPrintRange (mx mn : Q)       (** line 163 *)
| EvPrintNewBest                 (** line 202 *)
| EvShow (fig : figure)          (** [plt.show()] *)
| EvLog (name : string) (v : pyfloat).   (** [self.log(name, v)] *)

Record orch := mk_orch {
  best_loss : pyfloat;
  files : gmap string file;
  dirs : gset string;
  events : list event;
  current_epoch : Z;
  (** matplotlib's global state: the number of open [pyplot] figures *)
  figures : nat
}.

Inductive exn :=
| ExcLoss                        (** [BCELoss] raised *)
| ExcReduce                      (** [max]/[min] of an empty tensor *)
| ExcVisualize                   (** [visualize_predictions] raised *)
| ExcStack                       (** [t.stack([])] *)
| ExcAttribute (name : string)   (** [AttributeError] *)
| ExcFileNotFound (path : string)
| ExcIsADirectory (path : string).

(** Python statements: a final state and a value or an exception. *)
Definition PyM (A : Type) := orch -> orch * (exn + A).

Definition py_ret {A} (a : A) : PyM A := fun st => (st, inr a).
Definition py_bind {A B} (m : PyM A) (k : A -> PyM B) : PyM B :=
  fun st => match m st with
            | (st', inl e) => (st', inl e)
            | (st', inr a) => k a st'
            end.
Definition py_raise {A} (e : exn) : PyM A := fun st => (st, inl e).
Definition py_get : PyM orch := fun st => (st, inr st).
Definition py_modify (f : orch -> orch) : PyM unit := fun st => (f st, inr tt).
Definition py_lift {A} (e : exn) (o : option A) : PyM A :=
  match o with Some a => py_ret a | None => py_raise e end.

End State.


Declare Scope py_scope.
Delimit Scope py_scope with py.
Notation "x <- c1 ;; c2" := (py_bind c1 (fun x => c2))
  (at level 100, c1 at next level, right associativity) : py_scope.
Notation "c1 ;; c2" := (py_bind c1 (fun _ : unit => c2))
  (at level 100, right associativity) : py_scope.
Open Scope py_scope.


Section Hooks.
Context `{Network} `{Segmenter}.
(** The float logarithm used by [BCELoss]. *)
Variable log : Q -> Q.
(** [self.params] *)
Variable params : config.

(** *** State updates *)

Definition emit (ev : event) : PyM unit :=
  py_modify (fun st => mk_orch (best_loss st) (files st) (dirs st) (events st ++ [ev])
                               (current_epoch st) (figures st)).

Definition set_best_loss (v : pyfloat) : PyM unit :=
  py_modify (fun st => mk_orch v (files st) (dirs st) (events st) (current_epoch st) (figures st)).

Definition put_file (path : string) (f : file) : PyM unit :=
  py_modify (fun st => mk_orch (best_loss st) (<[path := f]> (files st)) (dirs st) (events st)
                               (current_epoch st) (figures st)).

(** [plt.subplots(nrows=1, ncols=len(indices))] (line 87): a new figure,
    which becomes the current one. *)
Definition open_figure (st : orch) : orch :=
  mk_orch (best_loss st) (files st) (dirs st) (events st) (current_epoch st) (S (figures st)).

Definition plt_subplots : PyM unit := py_modify open_figure.

(** [plt.clf(); plt.close()] (lines 141-142): the current figure is cleared
    and closed. *)
Definition plt_close : PyM unit :=
  py_modify (fun st => mk_orch (best_loss st) (files st) (dirs st) (events st) (current_epoch st)
                               (Nat.pred (figures st))).

(** Opening [path] for writing fails when it is a directory or its parent
    does not exist; otherwise the file is created (or truncated). *)
Definition check_writable (path : string) : PyM unit :=
  st <- py_get ;;
  if bool_decide (path ∈ dirs st) then py_raise (ExcIsADirectory path)
  else let d := dirname path in
       if String.eqb d "" || bool_decide (d ∈ dirs st) then py_ret tt
       else py_raise (ExcFileNotFound path).

(** [open(path, "wb")] *)
Definition open_wb (path : string) : PyM unit :=
  check_writable path ;; put_file path FileEmpty.

(** [t.save(sd, f)] into the opened file. *)
Definition t_save (path : string) (sd : state_dict) : PyM unit := put_file path (FileState sd).

(** [plt.savefig(path, dpi=...)] *)
Definition savefig (path : string) (fig : figure) : PyM unit :=
  check_writable path ;; put_file path (FileFigure fig).

(** [self.__getattr__(name).state_dict()] *)
Definition getattr_state (w : weights) (name : string) : PyM state_dict :=
  py_lift (ExcAttribute name) (module_state w name).

Definition Qlist_max (l : list Q) : option Q :=
  match l with [] => None | x :: l' => Some (fold_left Qmax l' x) end.
Definition Qlist_min (l : list Q) : option Q :=
  match l with [] => None | x :: l' => Some (fold_left Qmin l' x) end.

(** *** Hooks *)

(** The checkpoint file of a sub-model (lines 204-209). *)
Definition checkpoint_path (name : string) : string :=
  path_join (save_path params) ["checkpoint"; (name ++ ".pt")%string].

(** Lines 75-142 as called from a step: with two qualifying samples a
    figure is opened, rendered, written or shown, and closed; an exception
    raised after [plt.subplots] (while rendering, or by [savefig]) leaves
    it open. *)
Definition run_visualize (x labels y_pred : list tensor3) (path : string) : PyM unit :=
  st <- py_get ;;
  match visualize_predictions x labels y_pred path (current_epoch st) false with
  | Some VizSkipped => py_ret tt
  | None => plt_subplots ;; py_raise ExcVisualize
  | Some (VizSaved p _ fig) => plt_subplots ;; savefig p fig ;; plt_close
  | Some (VizShown fig) => plt_subplots ;; emit (EvShow fig) ;; plt_close
  end.

(** Lines 158-174. *)
Definition training_step (w : weights) (batch : list tensor3 * list tensor3) (batch_idx : Z)
    : PyM pyfloat :=
  let '(x, labels) := batch in
  let y_pred := classifier w x in
  loss <- py_lift ExcLoss (BCE.loss log y_pred labels) ;;
  (if (batch_idx =? 0)%Z then
     mx <- py_lift ExcReduce (Qlist_max (BCE.flatten y_pred)) ;;
     mn <- py_lift ExcReduce (Qlist_min (BCE.flatten y_pred)) ;;
     emit (EvPrintRange mx mn)
   else py_ret tt) ;;
  py_ret loss.

(** Lines 176-178. *)
Definition training_epoch_end (outputs : list pyfloat) : PyM unit :=
  avg <- py_lift ExcStack (stack_mean outputs) ;;
  emit (EvLog "train_loss" avg).

(** Lines 180-196 (and 216-232 with [test_pred.png]). *)
Definition eval_step (file_name : string) (w : weights)
    (batch : list tensor3 * list tensor3) (batch_idx : Z) : PyM pyfloat :=
  let '(x, labels) := batch in
  let y_pred := classifier w x in
  loss <- py_lift ExcLoss (BCE.loss log y_pred labels) ;;
  (if (batch_idx =? 0)%Z
   then run_visualize x labels y_pred (path_join (save_path params) [file_name])
   else py_ret tt) ;;
  py_ret loss.

Definition validation_step := eval_step "val_pred.png".
Definition test_step := eval_step "test_pred.png".

(** Lines 203-212: the loop over the configured sub-models. *)
Fixpoint save_checkpoints (w : weights) (names : list string) : PyM unit :=
  match names with
  | [] => py_ret tt
  | name :: rest =>
      open_wb (checkpoint_path name) ;;
      sd <- getattr_state w name ;;
      t_save (checkpoint_path name) sd ;;
      save_checkpoints w rest
  end.

(** Lines 198-214. *)
Definition validation_epoch_end (w : weights) (outputs : list pyfloat) : PyM pyfloat :=
  avg <- py_lift ExcStack (stack_mean outputs) ;;
  st <- py_get ;;
  (if py_lt avg (best_loss st) then
     set_best_loss avg ;;
     emit EvPrintNewBest ;;
     save_checkpoints w (model params)
   else py_ret tt) ;;
  emit (EvLog "val_loss" avg) ;;
  py_ret avg.

(** Lines 234-236. *)
Definition test_epoch_end (outputs : list pyfloat) : PyM pyfloat :=
  py_lift ExcStack (stack_mean outputs).

End Hooks.

(** The state of a freshly constructed module (line 152). *)
Definition init_orch `{Network} (dirs0 : gset string) : orch :=
  mk_orch Inf ∅ dirs0 [] 0 0.

End Orch.

Module OrchFacts.
Import PosixPath Viz Orch.

Section Facts.
Context `{Network} `{Segmenter}.
Variable log : Q -> Q.
Variable params : config.

Abbreviation checkpoint_path := (checkpoint_path params).
Abbreviation save_checkpoints := (save_checkpoints params).

(** A path [open(path, "wb")] accepts. *)
Definition writable (st : orch) (p : string) : Prop :=
  (p ∉ dirs st) /\ (dirname p = ""%string \/ dirname p ∈ dirs st).

(** Distinct sub-model names (without a leading slash) have distinct
    checkpoint files. *)
Lemma checkpoint_path_inj n1 n2 :
  starts_with_slash n1 = false -> starts_with_slash n2 = false ->
  checkpoint_path n1 = checkpoint_path n2 -> n1 = n2.
Proof.
  intros H1 H2. unfold Orch.checkpoint_path, path_join. cbn [fold_left].
  rewrite !(join2_relative (join2 _ _)) by (apply starts_with_slash_app; [assumption | reflexivity]).
  intros E%string_app_inv_l. eapply string_app_inv_r. exact E.
Qed.

(** The checkpoint directory [save_path/checkpoint] is a directory path
    [dirname] gives back. *)
Lemma checkpoint_dir_shape :
  path_join (save_path params) ["checkpoint"] <> ""%string /\
  ends_with_slash (path_join (save_path params) ["checkpoint"]) = false.
Proof. apply join2_dir_shape; [discriminate | reflexivity]. Qed.

(** The directory of a checkpoint file is [save_path/checkpoint]. *)
Lemma checkpoint_dirname n :
  no_slash n = true -> dirname (checkpoint_path n) = path_join (save_path params) ["checkpoint"].
Proof.
  intros Hn. destruct checkpoint_dir_shape as [H1 H2].
  unfold Orch.checkpoint_path, path_join in *. cbn [fold_left] in *.
  apply dirname_join2; [exact H1 | exact H2 | now rewrite no_slash_app, Hn].
Qed.

(** C24: [open(checkpoint, "wb")] (lines 204-208) on a slash-free sub-model
    name: it raises [IsADirectoryError] when the checkpoint path is a
    directory, [FileNotFoundError] when [save_path/checkpoint] does not
    exist (nothing creates it), and succeeds otherwise, without changing
    the state. *)
Theorem open_checkpoint_spec n st :
  no_slash n = true ->
  check_writable (checkpoint_path n) st =
    (st, if bool_decide (checkpoint_path n ∈ dirs st) then inl (ExcIsADirectory (checkpoint_path n))
         else if bool_decide (path_join (save_path params) ["checkpoint"] ∈ dirs st) then inr tt
         else inl (ExcFileNotFound (checkpoint_path n))).
Proof.
  intros Hn. unfold check_writable, py_bind, py_get. cbv beta iota.
  destruct (bool_decide (checkpoint_path n ∈ dirs st)); [reflexivity|].
  rewrite (checkpoint_dirname n Hn).
  destruct (String.eqb_spec (path_join (save_path params) ["checkpoint"]) "") as [E|_];
    [exfalso; exact (proj1 checkpoint_dir_shape E) | cbn [orb]].
  now destruct (bool_decide _).
Qed.

Lemma check_writable_ok st p : writable st p -> check_writable p st = (st, inr tt).
Proof.
  intros [Hd Hp]. unfold check_writable, py_bind, py_get. cbn.
  rewrite bool_decide_false by exact Hd.
  destruct Hp as [-> | Hp]; [reflexivity|].
  rewrite (bool_decide_true _ Hp), Bool.orb_true_r. reflexivity.
Qed.

(** The state after writing [f] at [p]. *)
Definition with_file (st : orch) (p : string) (f : file) : orch :=
  mk_orch (best_loss st) (<[p := f]> (files st)) (dirs st) (events st) (current_epoch st) (figures st).

(** What the loop of lines 203-212 needs of each sub-model. *)
Definition checkpointable (w : weights) (st : orch) (n : string) : Prop :=
  starts_with_slash n = false /\ writable st (checkpoint_path n) /\ module_state w n <> None.

Lemma save_checkpoints_ok w names st :
  (forall n, In n names -> checkpointable w st n) ->
  exists st', save_checkpoints w names st = (st', inr tt) /\
    best_loss st' = best_loss st /\ dirs st' = dirs st /\ events st' = events st /\
    current_epoch st' = current_epoch st /\
    (forall n, In n names -> files st' !! checkpoint_path n = option_map FileState (module_state w n)) /\
    (forall p, (forall n, In n names -> p <> checkpoint_path n) -> files st' !! p = files st !! p).
Proof.
  revert st. induction names as [|n rest IH]; intros st Hok.
  - exists st. repeat split; try reflexivity. intros n [].
  - destruct (Hok n (or_introl eq_refl)) as (Hs & Hw & Hm).
    destruct (module_state w n) as [sd|] eqn:Hsd; [|contradiction].
    set (st2 := with_file (with_file st (checkpoint_path n) FileEmpty) (checkpoint_path n) (FileState sd)).
    assert (save_checkpoints w (n :: rest) st = save_checkpoints w rest st2) as ->.
    { cbn [Orch.save_checkpoints]. unfold open_wb, py_bind at 1 2 3.
      rewrite check_writable_ok by exact Hw. cbn. unfold getattr_state. rewrite Hsd. reflexivity. }
    destruct (IH st2) as (st' & Hrun & Hb & Hd & He & Hc & Hin & Hout).
    { intros n' Hn'. destruct (Hok n' (or_intror Hn')) as (? & [? ?] & ?). now repeat split. }
    exists st'. split; [exact Hrun|]. repeat split; try assumption.
    + intros n' [<-|Hn']; [|now apply Hin].
      destruct (in_dec string_dec n rest) as [Hr|Hr]; [now apply Hin|].
      rewrite Hout; [cbn; now rewrite lookup_insert_eq, Hsd|].
      intros n'' Hn'' E. apply Hr. apply checkpoint_path_inj in E as ->; [exact Hn''| exact Hs|].
      apply (Hok n'' (or_intror Hn'')).
    + intros p Hp. rewrite Hout by (intros n' Hn'; apply Hp; now right). unfold st2, with_file; cbn [files].
      rewrite !lookup_insert_ne; [reflexivity | |]; intros E; apply (Hp n (or_introl eq_refl)); congruence.
Qed.

Lemma checkpointable_dirs w st1 st2 n :
  dirs st1 = dirs st2 -> checkpointable w st1 n -> checkpointable w st2 n.
Proof. unfold checkpointable, writable. intros ->. tauto. Qed.

Lemma save_checkpoints_app w pre rest st :
  save_checkpoints w (pre ++ rest) st =
  match save_checkpoints w pre st with
  | (st', inl e) => (st', inl e)
  | (st', inr _) => save_checkpoints w rest st'
  end.
Proof.
  revert st. induction pre as [|n pre IH]; intros st; [reflexivity|].
  cbn [app Orch.save_checkpoints]. unfold py_bind at 1 4.
  destruct (open_wb _ st) as [st1 [e|[]]]; [reflexivity|].
  unfold py_bind at 1 3. destruct (getattr_state w n st1) as [st2 [e|sd]]; [reflexivity|].
  unfold py_bind at 1 2. destruct (t_save _ sd st2) as [st3 [e|[]]]; [reflexivity|].
  apply IH.
Qed.

(** C4: Spec property 5, improving case: when the average of the validation
    losses is below [best_loss], [best_loss] becomes the average, the new
    best is printed, every configured sub-model's [state_dict] is written to
    its checkpoint file (other files untouched), and the average is logged
    and returned. *)
Theorem validation_epoch_end_improves w outputs st avg :
  stack_mean outputs = Some avg -> py_lt avg (best_loss st) = true ->
  (forall n, In n (model params) -> checkpointable w st n) ->
  exists st', validation_epoch_end params w outputs st = (st', inr avg) /\
    best_loss st' = avg /\
    events st' = events st ++ [EvPrintNewBest; EvLog "val_loss" avg] /\
    dirs st' = dirs st /\ current_epoch st' = current_epoch st /\
    (forall n, In n (model params) ->
       files st' !! checkpoint_path n = option_map FileState (module_state w n)) /\
    (forall p, (forall n, In n (model params) -> p <> checkpoint_path n) ->
       files st' !! p = files st !! p).
Proof.
  intros Havg Hlt Hok. unfold validation_epoch_end, py_lift. rewrite Havg.
  unfold py_bind, py_ret, py_get. rewrite Hlt. cbn [set_best_loss emit py_modify].
  match goal with |- context [Orch.save_checkpoints _ w ?ns ?s2] =>
    destruct (save_checkpoints_ok w ns s2) as (st3 & Hrun & Hb & Hd & He & Hc & Hin & Hout) end.
  { intros n Hn. eapply checkpointable_dirs; [|exact (Hok n Hn)]. reflexivity. }
  rewrite Hrun. cbn. eexists. split; [reflexivity|]. cbn.
  rewrite Hb, Hd, He, Hc. cbn. rewrite <- app_assoc. repeat split; try reflexivity.
  - exact Hin.
  - exact Hout.
Qed.

(** C5: Spec property 5, other case: when the average is not below
    [best_loss], only the log line is added. *)
Theorem validation_epoch_end_keeps w outputs st avg :
  stack_mean outputs = Some avg -> py_lt avg (best_loss st) = false ->
  validation_epoch_end params w outputs st =
    (mk_orch (best_loss st) (files st) (dirs st) (events st ++ [EvLog "val_loss" avg])
             (current_epoch st) (figures st), inr avg).
Proof.
  intros Havg Hlt. unfold validation_epoch_end, py_lift. rewrite Havg.
  unfold py_bind, py_ret, py_get. rewrite Hlt. reflexivity.
Qed.

(** C11: A configured name that is not an attribute of the module: [best_loss]
    has already been lowered, the checkpoint files of the names before it are
    written, its own file has been created empty by [open(..., "wb")], and
    the [AttributeError] escapes before the loss is logged. *)
Theorem validation_epoch_end_missing_module w outputs st avg pre n post :
  stack_mean outputs = Some avg -> py_lt avg (best_loss st) = true ->
  model params = pre ++ n :: post ->
  (forall m, In m pre -> checkpointable w st m) ->
  writable st (checkpoint_path n) -> module_state w n = None ->
  exists st', validation_epoch_end params w outputs st = (st', inl (ExcAttribute n)) /\
    best_loss st' = avg /\ files st' !! checkpoint_path n = Some FileEmpty /\
    events st' = events st ++ [EvPrintNewBest].
Proof.
  intros Havg Hlt Hm Hok Hw Hnone. unfold validation_epoch_end, py_lift. rewrite Havg.
  unfold py_bind, py_ret, py_get. rewrite Hlt, Hm. cbn [set_best_loss emit py_modify].
  rewrite save_checkpoints_app.
  match goal with |- context [Orch.save_checkpoints _ w pre ?s2] =>
    destruct (save_checkpoints_ok w pre s2) as (st3 & Hrun & Hb & Hd & He & Hc & _ & _) end.
  { intros m Hin. eapply checkpointable_dirs; [|exact (Hok m Hin)]. reflexivity. }
  rewrite Hrun. cbn [Orch.save_checkpoints]. unfold open_wb, py_bind.
  assert (writable st3 (checkpoint_path n)) as Hw3
    by (cbn in Hd; unfold writable in *; rewrite Hd; exact Hw).
  rewrite (check_writable_ok _ _ Hw3).
  cbn. unfold getattr_state. rewrite Hnone. cbn.
  eexists. split; [reflexivity|]. cbn. rewrite Hb, He.
  split; [reflexivity|]. split; [apply lookup_insert_eq | reflexivity].
Qed.

(** C21: A failure inside [visualize_predictions] at batch index [0] escapes
    [validation_step]: nothing catches it (lines 186-193), and the figure
    [plt.subplots] opened before the failure is never closed (line 142 is
    not reached). *)
Theorem validation_step_visualize_raises w x labels st l :
  BCE.loss log (classifier w x) labels = Some l ->
  visualize_predictions x labels (classifier w x) (path_join (save_path params) ["val_pred.png"])
    (current_epoch st) false = None ->
  validation_step log params w (x, labels) 0 st = (open_figure st, inl ExcVisualize).
Proof.
  intros Hl Hv. unfold validation_step, eval_step, py_bind, py_lift. rewrite Hl.
  unfold py_ret, run_visualize, py_bind, py_get. cbn [Z.eqb]. rewrite Hv. reflexivity.
Qed.

Lemma check_writable_state p st st' r : check_writable p st = (st', r) -> st' = st.
Proof.
  unfold check_writable, py_bind, py_get. cbn.
  destruct (bool_decide (p ∈ dirs st)); [intros [= <- _]; reflexivity|].
  destruct (_ || _); intros [= <- _]; reflexivity.
Qed.

(** [plt.savefig] writes a file; it opens and closes no figure. *)
Lemma savefig_figures p fig st st' r : savefig p fig st = (st', r) -> figures st' = figures st.
Proof.
  unfold savefig, py_bind at 1. destruct (check_writable p st) as [s1 [e|[]]] eqn:E;
    apply check_writable_state in E as ->; intros [= <- _]; reflexivity.
Qed.

(** A visualisation call that returns closes the figure it opened. *)
Lemma run_visualize_figures_ok x labels y_pred path st st' u :
  run_visualize x labels y_pred path st = (st', inr u) -> figures st' = figures st.
Proof.
  unfold run_visualize, py_bind, py_get.
  destruct (visualize_predictions x labels y_pred path (current_epoch st) false)
    as [[| p d fig | fig]|]; cbn -[savefig]; try (intros [= <- _]; reflexivity); try discriminate.
  destruct (savefig p fig (open_figure st)) as [s1 [e|[]]] eqn:E; [discriminate|].
  apply savefig_figures in E. intros [= <- _]. cbn in *. now rewrite E.
Qed.

(** C32: Figure accounting of the visualisation (lines 87 and 141-142): a
    call that returns leaves the number of open [pyplot] figures as it
    found it, and a call that raises leaves exactly one more figure open,
    the one [plt.subplots] created: [plt.close()] is not in a [finally]. *)
Theorem run_visualize_figures x labels y_pred path st st' r :
  run_visualize x labels y_pred path st = (st', r) ->
  figures st' = match r with inl _ => S (figures st) | inr _ => figures st end.
Proof.
  unfold run_visualize, py_bind, py_get.
  destruct (visualize_predictions x labels y_pred path (current_epoch st) false)
    as [[| p d fig | fig]|]; cbn -[savefig]; try (intros [= <- <-]; reflexivity).
  destruct (savefig p fig (open_figure st)) as [s1 [e|[]]] eqn:E;
    apply savefig_figures in E; cbn in E; intros [= <- <-]; cbn; rewrite ?E; reflexivity.
Qed.

End Facts.
End OrchFacts.

(** ** A network for concrete runs: weights and state are one integer, the
    classifier returns its input, and the only attribute is [classifier]. *)
Module StubNetwork.

#[export] Instance stub_network : Network := {
  weights := Z;
  state_dict := Z;
  classifier := fun _ x => x;
  module_state := fun w n => if String.eqb n "classifier" then Some w else None
}.

End StubNetwork.

Module OrchExamples.
Import PosixPath Viz Orch OrchFacts StubNetwork StubSegmenter.

Definition cfg : config := mk_config "runs" ["classifier"].
Definition st_with_best (b : pyfloat) : orch := mk_orch b ∅ {["runs/checkpoint"]} [] 0 0.
Definition val_losses : list pyfloat := [Fin (2#5); Fin (3#5)].

(** Spec property 5 on its own numbers: the losses [0.4] and [0.6] average
    to [0.5]; from a best loss of [0.55] the best becomes [0.5] and the
    classifier is checkpointed; from [0.4] nothing but the log changes. *)
Example validation_epoch_end_spec5 :
  (let '(st', r) := validation_epoch_end cfg (7%Z : weights) val_losses (st_with_best (Fin (11#20))) in
   match r with inr v => v =f Fin (1#2) | inl _ => False end /\
   best_loss st' =f Fin (1#2) /\
   files st' !! "runs/checkpoint/classifier.pt"%string = Some (FileState (7%Z : state_dict))) /\
  (let '(st', r) := validation_epoch_end cfg (7%Z : weights) val_losses (st_with_best (Fin (2#5))) in
   match r with inr v => v =f Fin (1#2) | inl _ => False end /\
   best_loss st' = Fin (2#5) /\ files st' = ∅).
Proof. vm_compute. repeat split; reflexivity. Qed.

Lemma checkpointable_classifier :
  checkpointable cfg (7%Z : weights) (st_with_best (Fin (11#20))) "classifier".
Proof.
  split; [reflexivity|]. split; [|discriminate].
  split; [apply (bool_decide_unpack _); vm_compute; reflexivity|].
  right. apply (bool_decide_unpack _). vm_compute. reflexivity.
Qed.

Lemma validation_epoch_end_improves_witness :
  stack_mean val_losses = Some (Fin (((2#5) + ((3#5) + 0)) / inject_Z 2)) /\
  py_lt (Fin (((2#5) + ((3#5) + 0)) / inject_Z 2)) (best_loss (st_with_best (Fin (11#20)))) = true /\
  (forall n, In n (model cfg) -> checkpointable cfg (7%Z : weights) (st_with_best (Fin (11#20))) n) /\
  exists st', validation_epoch_end cfg (7%Z : weights) val_losses (st_with_best (Fin (11#20))) =
      (st', inr (Fin (((2#5) + ((3#5) + 0)) / inject_Z 2))) /\
    best_loss st' = Fin (((2#5) + ((3#5) + 0)) / inject_Z 2) /\
    events st' = events (st_with_best (Fin (11#20))) ++
      [EvPrintNewBest; EvLog "val_loss" (Fin (((2#5) + ((3#5) + 0)) / inject_Z 2))] /\
    dirs st' = dirs (st_with_best (Fin (11#20))) /\
    current_epoch st' = current_epoch (st_with_best (Fin (11#20))) /\
    (forall n, In n (model cfg) ->
       files st' !! checkpoint_path cfg n = option_map FileState (module_state (7%Z : weights) n)) /\
    (forall p, (forall n, In n (model cfg) -> p <> checkpoint_path cfg n) ->
       files st' !! p = files (st_with_best (Fin (11#20))) !! p).
Proof.
  assert (forall n, In n (model cfg) -> checkpointable cfg (7%Z : weights) (st_with_best (Fin (11#20))) n)
    as Hok by (intros n [<-|[]]; exact checkpointable_classifier).
  split; [reflexivity|]. split; [vm_compute; reflexivity|]. split; [exact Hok|].
  apply validation_epoch_end_improves; [reflexivity | vm_compute; reflexivity | exact Hok].
Defined.

Lemma validation_epoch_end_keeps_witness :
  stack_mean val_losses = Some (Fin (((2#5) + ((3#5) + 0)) / inject_Z 2)) /\
  py_lt (Fin (((2#5) + ((3#5) + 0)) / inject_Z 2)) (best_loss (st_with_best (Fin (2#5)))) = false /\
  validation_epoch_end cfg (7%Z : weights) val_losses (st_with_best (Fin (2#5))) =
    (mk_orch (best_loss (st_with_best (Fin (2#5)))) (files (st_with_best (Fin (2#5))))
       (dirs (st_with_best (Fin (2#5))))
       (events (st_with_best (Fin (2#5))) ++
          [EvLog "val_loss" (Fin (((2#5) + ((3#5) + 0)) / inject_Z 2))])
       (current_epoch (st_with_best (Fin (2#5)))) (figures (st_with_best (Fin (2#5)))),
     inr (Fin (((2#5) + ((3#5) + 0)) / inject_Z 2))).
Proof.
  split; [reflexivity|]. split; [vm_compute; reflexivity|].
  apply (validation_epoch_end_keeps cfg); [reflexivity | vm_compute; reflexivity].
Defined.

Definition cfg_typo : config := mk_config "runs" ["classifier"; "clasifier"].

Lemma validation_epoch_end_missing_module_witness :
  stack_mean val_losses = Some (Fin (((2#5) + ((3#5) + 0)) / inject_Z 2)) /\
  py_lt (Fin (((2#5) + ((3#5) + 0)) / inject_Z 2)) (best_loss (st_with_best (Fin (11#20)))) = true /\
  model cfg_typo = ["classifier"] ++ "clasifier" :: [] /\
  (forall m, In m ["classifier"%string] ->
     checkpointable cfg_typo (7%Z : weights) (st_with_best (Fin (11#20))) m) /\
  writable (st_with_best (Fin (11#20))) (checkpoint_path cfg_typo "clasifier") /\
  module_state (7%Z : weights) "clasifier" = None /\
  exists st', validation_epoch_end cfg_typo (7%Z : weights) val_losses (st_with_best (Fin (11#20))) =
      (st', inl (ExcAttribute "clasifier")) /\
    best_loss st' = Fin (((2#5) + ((3#5) + 0)) / inject_Z 2) /\
    files st' !! checkpoint_path cfg_typo "clasifier" = Some FileEmpty /\
    events st' = events (st_with_best (Fin (11#20))) ++ [EvPrintNewBest].
Proof.
  assert (forall m, In m ["classifier"%string] ->
     checkpointable cfg_typo (7%Z : weights) (st_with_best (Fin (11#20))) m) as Hok
    by (intros m [<-|[]]; exact checkpointable_classifier).
  assert (writable (st_with_best (Fin (11#20))) (checkpoint_path cfg_typo "clasifier")) as Hw.
  { split; [apply (bool_decide_unpack _); vm_compute; reflexivity|].
    right. apply (bool_decide_unpack _). vm_compute. reflexivity. }
  do 3 (split; [first [reflexivity | vm_compute; reflexivity]|]).
  split; [exact Hok|]. split; [exact Hw|]. split; [reflexivity|].
  apply (validation_epoch_end_missing_module cfg_typo _ _ _ _ ["classifier"%string] "clasifier" []);
    [reflexivity | vm_compute; reflexivity | reflexivity | exact Hok | exact Hw | reflexivity].
Defined.

Definition one_row : Viz.tensor3 := [[[1; 0; 1]]].

(** A validation batch of [1 x 3] masks: the loss is computed, then the
    visualisation raises and the step fails. *)
Lemma validation_step_visualize_raises_witness :
  BCE.loss (fun _ => 0) (classifier (7%Z : weights) [one_row; one_row]) [one_row; one_row] =
    Some (Fin (((0 + (0 + (0 + (0 + (0 + (0 + 0))))))) / inject_Z 6)) /\
  visualize_predictions [one_row; one_row] [one_row; one_row]
    (classifier (7%Z : weights) [one_row; one_row])
    (path_join (save_path cfg) ["val_pred.png"]) (current_epoch (st_with_best Inf)) false = None /\
  validation_step (fun _ => 0) cfg (7%Z : weights) ([one_row; one_row], [one_row; one_row]) 0
    (st_with_best Inf) = (open_figure (st_with_best Inf), inl ExcVisualize).
Proof.
  assert (BCE.loss (fun _ => 0) (classifier (7%Z : weights) [one_row; one_row]) [one_row; one_row] =
    Some (Fin (((0 + (0 + (0 + (0 + (0 + (0 + 0))))))) / inject_Z 6))) as Hl.
  { vm_compute. reflexivity. }
  assert (visualize_predictions [one_row; one_row] [one_row; one_row]
    (classifier (7%Z : weights) [one_row; one_row])
    (path_join (save_path cfg) ["val_pred.png"]) (current_epoch (st_with_best Inf)) false = None)
    as Hv by reflexivity.
  split; [exact Hl|]. split; [exact Hv|].
  exact (validation_step_visualize_raises (fun _ => 0) cfg _ _ _ _ _ Hl Hv).
Defined.

Lemma open_checkpoint_spec_witness :
  no_slash "classifier" = true /\
  check_writable (checkpoint_path cfg "classifier") (st_with_best (Fin 1)) =
    (st_with_best (Fin 1),
     if bool_decide (checkpoint_path cfg "classifier" ∈ dirs (st_with_best (Fin 1)))
     then inl (ExcIsADirectory (checkpoint_path cfg "classifier"))
     else if bool_decide (path_join (save_path cfg) ["checkpoint"] ∈ dirs (st_with_best (Fin 1)))
     then inr tt else inl (ExcFileNotFound (checkpoint_path cfg "classifier"))).
Proof.
  split; [reflexivity|].
  exact (open_checkpoint_spec cfg "classifier" (st_with_best (Fin 1)) eq_refl).
Defined.

Lemma run_visualize_figures_witness :
  exists st' r,
    run_visualize [one_row; one_row] [one_row; one_row] [one_row; one_row] "runs/val_pred.png"
      (st_with_best Inf) = (st', r) /\
    figures st' = match r with inl _ => S (figures (st_with_best Inf)) | inr _ => figures (st_with_best Inf) end.
Proof.
  destruct (run_visualize [one_row; one_row] [one_row; one_row] [one_row; one_row] "runs/val_pred.png"
              (st_with_best Inf)) as [st' r] eqn:E.
  exists st', r. split; [reflexivity|]. exact (run_visualize_figures _ _ _ _ _ _ _ E).
Defined.

End OrchExamples.
