(* ===== verification/HookFrames.v ===== *)
(** * Frame reasoning on the hooks of [Model]

    What each hook of the orchestrator ([Orchestrator.v], lines 145-236 of
    [base_classification_model.py]) does to the module's state, one hook
    at a time, independent of the order the driver calls them in.
    [runs_in R m] says that every run of the [PyM] statement [m], whether
    it returns or raises, relates its initial and final state by the
    preorder [R]; it is closed under [py_bind], so the frame of a hook
    follows from the frames of its statements.  The relations: [frame]
    (best loss, directories and checkpoint files kept, events extended),
    [outside] (only the checkpoint files of some names change), [quiet]
    (no validation loss logged), [same_figures], [same_dirs] and [best_le].
    Also here: what a successful [save_checkpoints] and
    [validation_epoch_end] leave behind, the checkpoint invariant
    [ckpt_consistent], and the conditions under which each single hook
    returns.  [Lifecycle.v] composes these along the driver's runs. *)

From stdpp Require Import base gmap strings.
From Stdlib Require Import String.
From Stdlib Require Import ZArith QArith List Lia.
From S2P Require Import Prelude Watershed Visualize Loss Paths Orchestrator.
Import ListNotations.

Module HookFrames.
Import Viz Orch PosixPath.

(** A batch [(x, labels)] as the hooks unpack it. *)
Definition batch := (list tensor3 * list tensor3)%type.

Section PyMonad.
Context `{Network}.

Lemma bind_inr {A B} (m : PyM A) (k : A -> PyM B) st st' b :
  py_bind m k st = (st', inr b) -> exists s1 a, m st = (s1, inr a) /\ k a s1 = (st', inr b).
Proof.
  unfold py_bind. destruct (m st) as [s1 [e|a]]; [discriminate|]. intros Hk. eauto.
Qed.

Lemma bind_ok {A B} (m : PyM A) (k : A -> PyM B) st s1 a :
  m st = (s1, inr a) -> py_bind m k st = k a s1.
Proof. intros E. unfold py_bind. now rewrite E. Qed.

(** ** Frame reasoning on [PyM]

    [runs_in R m]: every run of [m], whether it returns or raises, relates
    its initial and final state by [R].  For a preorder [R] this is closed
    under [py_bind], so a hook's frame follows from the frames of the
    statements it is made of. *)
Definition runs_in (R : relation orch) {A} (m : PyM A) : Prop :=
  forall st st' r, m st = (st', r) -> R st st'.

Section RunsIn.
Context (R : relation orch) `{!PreOrder R}.

Lemma runs_in_bind {A B} (m : PyM A) (k : A -> PyM B) :
  runs_in R m -> (forall a, runs_in R (k a)) -> runs_in R (py_bind m k).
Proof.
  intros Hm Hk st st' r. unfold py_bind.
  destruct (m st) as [s1 [e|a]] eqn:E; intros Hr.
  - injection Hr as <- _. exact (Hm _ _ _ E).
  - transitivity s1; [exact (Hm _ _ _ E) | exact (Hk _ _ _ _ Hr)].
Qed.

Lemma runs_in_ret {A} (a : A) : runs_in R (py_ret a).
Proof. intros st st' r [= <- _]. reflexivity. Qed.

Lemma runs_in_raise {A} e : runs_in R (@py_raise _ A e).
Proof. intros st st' r [= <- _]. reflexivity. Qed.

Lemma runs_in_lift {A} e (o : option A) : runs_in R (py_lift e o).
Proof. destruct o; [apply runs_in_ret | apply runs_in_raise]. Qed.

Lemma runs_in_get : runs_in R py_get.
Proof. intros st st' r [= <- _]. reflexivity. Qed.

Lemma runs_in_modify f : (forall st, R st (f st)) -> runs_in R (py_modify f).
Proof. intros Hf st st' r [= <- _]. apply Hf. Qed.
End RunsIn.

Lemma runs_in_mono (R1 R2 : relation orch) {A} (m : PyM A) :
  (forall st st', R1 st st' -> R2 st st') -> runs_in R1 m -> runs_in R2 m.
Proof. intros HR Hm st st' r E. exact (HR _ _ (Hm _ _ _ E)). Qed.

End PyMonad.

(** Split a [py_bind]: the preorder instance, then both statements. *)
Ltac rbind := apply runs_in_bind; [typeclasses eauto | | intros ?; cbv beta].

(** Decompose a statement into its binds and branches and close the
    leaves with the [runs_in] lemmas ([runs_in_leaf] is extended with the
    hooks' own lemmas inside [Section Hooks]). *)
Ltac runs_in_leaf :=
  first [apply runs_in_ret | apply runs_in_raise | apply runs_in_lift | apply runs_in_get];
  typeclasses eauto.
Ltac runs_in_auto := repeat first [rbind | case_match | runs_in_leaf].

Section Hooks.
Context `{Network} `{Segmenter}.
(** The float logarithm of [BCELoss] (see [Loss.v]) and [self.params]. *)
Variable log : Q -> Q.
Variable params : config.

(** [self.loss(self.classifier(x), labels)] of one batch. *)
Definition batch_loss (w : weights) (b : batch) : option pyfloat :=
  BCE.loss log (classifier w (fst b)) (snd b).

(** *** The hooks other than [validation_epoch_end] *)

(** [st'] keeps [best_loss], the directories and every checkpoint file of
    [st], and extends its events. *)
Definition frame (st st' : orch) : Prop :=
  best_loss st' = best_loss st /\ dirs st' = dirs st /\
  (exists evs, events st' = events st ++ evs) /\
  forall n, In n (model params) ->
    files st' !! checkpoint_path params n = files st !! checkpoint_path params n.

#[export] Instance frame_preorder : PreOrder frame.
Proof.
  split.
  - intros st. repeat split; [exists []; now rewrite app_nil_r].
  - intros s1 s2 s3 (B1 & D1 & [e1 E1] & F1) (B2 & D2 & [e2 E2] & F2).
    repeat split; try congruence.
    + exists (e1 ++ e2). now rewrite E2, E1, app_assoc.
    + intros n Hn. now rewrite F2, F1.
Qed.

Lemma runs_in_emit ev : runs_in frame (emit ev).
Proof. apply runs_in_modify. intros st. repeat split. now exists [ev]. Qed.


(** A path ending in [.png] is never a checkpoint file ([.pt]). *)
Lemma png_not_pt (a b : string) : (a ++ ".png")%string <> (b ++ ".pt")%string.
Proof.
  intros E%(f_equal (fun s => rev (list_ascii_of_string s))).
  rewrite !list_ascii_app, !rev_app_distr in E. discriminate.
Qed.

Lemma figure_not_checkpoint base n :
  path_join (save_path params) [(base ++ ".png")%string] <> checkpoint_path params n.
Proof.
  unfold checkpoint_path, path_join. cbn [fold_left].
  destruct (join2_suffix (save_path params) (base ++ ".png")) as [p1 ->].
  destruct (join2_suffix (join2 (save_path params) "checkpoint") (n ++ ".pt")) as [p2 ->].
  rewrite <- !string_app_assoc. apply png_not_pt.
Qed.

Lemma visualize_saved_path imgs labels preds path epoch p d fig :
  visualize_predictions imgs labels preds path epoch false = Some (VizSaved p d fig) -> p = path.
Proof.
  unfold visualize_predictions. destruct (_ <? 2)%nat; [discriminate|].
  destruct (otraverse _ _); [|discriminate]. now intros [= <- _ _].
Qed.

Lemma runs_in_savefig p fig :
  (forall n, In n (model params) -> p <> checkpoint_path params n) -> runs_in frame (savefig p fig).
Proof.
  intros Hp. unfold savefig, check_writable.
  rbind; [runs_in_auto|].
  apply runs_in_modify. intros st. repeat split.
  - exists []. now rewrite app_nil_r.
  - intros n Hn. cbn [files]. apply lookup_insert_ne. intros E. exact (Hp n Hn E).
Qed.

Lemma runs_in_plt_subplots : runs_in frame plt_subplots.
Proof. apply runs_in_modify. intros st. repeat split. exists []. now rewrite app_nil_r. Qed.

Lemma runs_in_plt_close : runs_in frame plt_close.
Proof. apply runs_in_modify. intros st. repeat split. exists []. now rewrite app_nil_r. Qed.

Lemma runs_in_run_visualize x labels y_pred base :
  runs_in frame (run_visualize x labels y_pred (path_join (save_path params) [(base ++ ".png")%string])).
Proof.
  unfold run_visualize. apply runs_in_bind; [typeclasses eauto | runs_in_leaf | intros st; cbv beta].
  destruct (visualize_predictions x labels y_pred _ (current_epoch st) false)
    as [[| p d fig | fig]|] eqn:E; [runs_in_leaf | | |];
    (rbind; [apply runs_in_plt_subplots|]); [| |runs_in_leaf];
    (rbind; [|apply runs_in_plt_close]); [|apply runs_in_emit].
  apply runs_in_savefig. apply visualize_saved_path in E as ->. intros n _. apply figure_not_checkpoint.
Qed.

Ltac runs_in_leaf ::=
  first [apply runs_in_ret | apply runs_in_raise | apply runs_in_lift | apply runs_in_get |
         apply runs_in_emit | apply runs_in_run_visualize]; try typeclasses eauto.

Lemma runs_in_training_step w b i : runs_in frame (training_step log w b i).
Proof. destruct b. unfold training_step. runs_in_auto. Qed.

Lemma runs_in_training_epoch_end outs : runs_in frame (training_epoch_end outs).
Proof. unfold training_epoch_end. runs_in_auto. Qed.

Lemma runs_in_validation_step w b i : runs_in frame (validation_step log params w b i).
Proof.
  destruct b. unfold validation_step, eval_step.
  rbind; [runs_in_leaf|].
  rbind; [| runs_in_leaf].
  destruct (i =? 0)%Z; [apply (runs_in_run_visualize _ _ _ "val_pred") | runs_in_leaf].
Qed.

Lemma runs_in_test_step w b i : runs_in frame (test_step log params w b i).
Proof.
  destruct b. unfold test_step, eval_step.
  rbind; [runs_in_leaf|].
  rbind; [| runs_in_leaf].
  destruct (i =? 0)%Z; [apply (runs_in_run_visualize _ _ _ "test_pred") | runs_in_leaf].
Qed.


(** *** The checkpoint loop (lines 203-212) *)

(** [p] is the checkpoint file of one of [names]. *)
Definition ckpt_of (names : list string) (p : string) : Prop :=
  exists n, In n names /\ p = checkpoint_path params n.

(** [st'] differs from [st] at most in the checkpoint files of [names]. *)
Definition outside (names : list string) (st st' : orch) : Prop :=
  best_loss st' = best_loss st /\ dirs st' = dirs st /\ events st' = events st /\
  current_epoch st' = current_epoch st /\
  forall p, ~ ckpt_of names p -> files st' !! p = files st !! p.

#[export] Instance outside_preorder names : PreOrder (outside names).
Proof.
  split.
  - intros st. now repeat split.
  - intros s1 s2 s3 (B1 & D1 & E1 & C1 & F1) (B2 & D2 & E2 & C2 & F2).
    repeat split; try congruence. intros p Hp. now rewrite F2, F1.
Qed.

Lemma outside_mono names names' st st' :
  incl names names' -> outside names st st' -> outside names' st st'.
Proof.
  intros Hi (B & D & E & C & F). repeat split; try assumption.
  intros p Hp. apply F. intros (n & Hn & ->). apply Hp. exists n. auto.
Qed.

Lemma runs_in_put_ckpt names n f :
  In n names -> runs_in (outside names) (put_file (checkpoint_path params n) f).
Proof.
  intros Hn. apply runs_in_modify. intros st. repeat split. intros p Hp. cbn [files].
  apply lookup_insert_ne. intros <-. apply Hp. now exists n.
Qed.

Lemma runs_in_save_checkpoints w names :
  runs_in (outside names) (save_checkpoints params w names).
Proof.
  induction names as [|m rest IH]; cbn [save_checkpoints]; [runs_in_leaf|].
  unfold open_wb, check_writable, getattr_state, t_save.
  runs_in_auto; try (apply runs_in_put_ckpt; now left).
  eapply runs_in_mono; [|exact IH]. intros s s'. apply outside_mono. intros n Hn. now right.
Qed.

(** A sub-model name as [model] lists it: not an absolute path. *)
Definition relative_names (names : list string) : Prop :=
  forall n, In n names -> starts_with_slash n = false.

(** The files of [names] hold the [state_dict]s of the weights [w]. *)
Definition saved_from (w : weights) (names : list string) (st : orch) : Prop :=
  forall n, In n names ->
    exists sd, module_state w n = Some sd /\ files st !! checkpoint_path params n = Some (FileState sd).

Lemma save_checkpoints_success w names st st' :
  relative_names names -> save_checkpoints params w names st = (st', inr tt) ->
  saved_from w names st'.
Proof.
  revert st. induction names as [|m rest IH]; intros st Hrel Hrun n Hn; [destruct Hn|].
  cbn [save_checkpoints] in Hrun.
  apply bind_inr in Hrun as (s1 & [] & _ & Hrun).
  apply bind_inr in Hrun as (s2 & sd & Hget & Hrun).
  apply bind_inr in Hrun as (s3 & [] & Hsave & Hrun).
  destruct (in_dec string_dec n rest) as [Hr|Hr].
  { eapply IH; [intros k Hk; apply Hrel; now right | exact Hrun | exact Hr]. }
  destruct Hn as [<-|Hn]; [|contradiction].
  unfold getattr_state, py_lift in Hget.
  destruct (module_state w m) as [sd'|]; [injection Hget as <- <- | discriminate].
  unfold t_save, put_file, py_modify in Hsave. injection Hsave as <-.
  exists sd'. split; [reflexivity|].
  destruct (runs_in_save_checkpoints w rest _ _ _ Hrun) as (_ & _ & _ & _ & Hout).
  rewrite Hout; [apply lookup_insert_eq|].
  intros (k & Hk & E). apply OrchFacts.checkpoint_path_inj in E; [congruence | |];
    apply Hrel; [now left | now right].
Qed.

(** *** [validation_epoch_end] (lines 198-214) *)

Lemma bind_run {A B} (m : PyM A) (k : A -> PyM B) st st' r :
  py_bind m k st = (st', r) ->
  (exists e, m st = (st', inl e)) \/ (exists s1 a, m st = (s1, inr a) /\ k a s1 = (st', r)).
Proof.
  unfold py_bind. destruct (m st) as [s1 [e|a]]; intros Hk; [injection Hk as <- _|]; eauto.
Qed.

(** A successful call logs its value and either changes nothing the
    invariant looks at, or lowers [best_loss] to that value after saving
    every sub-model of [w]. *)
Lemma validation_epoch_end_success w outs st st' v :
  relative_names (model params) ->
  validation_epoch_end params w outs st = (st', inr v) ->
  stack_mean outs = Some v /\ In (EvLog "val_loss" v) (events st') /\
  ((py_lt v (best_loss st) = false /\ frame st st') \/
   (best_loss st' = v /\ py_lt v (best_loss st) = true /\ saved_from w (model params) st')).
Proof.
  intros Hrel Hrun. unfold validation_epoch_end in Hrun.
  apply bind_inr in Hrun as (s1 & avg & Hl & Hrun).
  unfold py_lift in Hl. destruct (stack_mean outs); [injection Hl as <- <- | discriminate].
  apply bind_inr in Hrun as (s2 & st0 & Hg & Hrun). injection Hg as <- <-.
  apply bind_inr in Hrun as (s3 & [] & Hif & Hrun).
  apply bind_inr in Hrun as (s4 & [] & He & Hr). injection Hr as <- <-.
  unfold emit, py_modify in He. injection He as <-. cbn [events best_loss files].
  split; [reflexivity|]. split; [apply in_or_app; right; now left|].
  destruct (py_lt p (best_loss st)) eqn:Hlt.
  - right. apply bind_inr in Hif as (s5 & [] & Hb & Hif).
    apply bind_inr in Hif as (s6 & [] & He2 & Hsave).
    injection Hb as <-. injection He2 as <-.
    destruct (runs_in_save_checkpoints _ _ _ _ _ Hsave) as (B & _).
    split; [exact B|]. split; [reflexivity|].
    exact (save_checkpoints_success _ _ _ _ Hrel Hsave).
  - left. injection Hif as <-. repeat split. now exists [EvLog "val_loss" p].
Qed.

Lemma saved_from_frame w st st' :
  frame st st' -> saved_from w (model params) st -> saved_from w (model params) st'.
Proof.
  intros (_ & _ & _ & F) Hw n Hn. destruct (Hw n Hn) as (sd & Hs & Hf).
  exists sd. rewrite F by exact Hn. auto.
Qed.


(** ** The checkpoint invariant

    Either nothing has been checkpointed and [best_loss] is still [inf],
    or [best_loss] is a logged validation average and the checkpoint files
    of all configured sub-models hold the [state_dict]s of one and the same
    weights. *)
Definition ckpt_consistent (st : orch) : Prop :=
  (best_loss st = Inf /\
   forall n, In n (model params) -> files st !! checkpoint_path params n = None) \/
  (In (EvLog "val_loss" (best_loss st)) (events st) /\
   exists w, saved_from w (model params) st).

Lemma ckpt_consistent_init d : ckpt_consistent (init_orch d).
Proof. left. split; [reflexivity|]. intros n _. apply lookup_empty. Qed.

Lemma ckpt_consistent_frame st st' :
  frame st st' -> ckpt_consistent st -> ckpt_consistent st'.
Proof.
  intros Hfr Hc. pose proof Hfr as (B & _ & [evs E] & F).
  destruct Hc as [[Hb Hn]|[Hin [w Hw]]]; [left|right].
  - split; [congruence|]. intros n Hn'. rewrite F by exact Hn'. auto.
  - split; [rewrite B, E; apply in_or_app; now left|].
    exists w. exact (saved_from_frame w st st' Hfr Hw).
Qed.


Lemma runs_in_test_epoch_end outs : runs_in frame (test_epoch_end outs).
Proof. apply runs_in_lift. exact _. Qed.


(** *** Which hooks log a validation loss *)

(** [st'] extends the events of [st] without logging a validation loss. *)
Definition quiet (st st' : orch) : Prop :=
  exists evs, events st' = events st ++ evs /\ forall v, ~ In (EvLog "val_loss" v) evs.

#[export] Instance quiet_preorder : PreOrder quiet.
Proof.
  split.
  - intros st. exists []. split; [now rewrite app_nil_r | intros v []].
  - intros s1 s2 s3 (e1 & E1 & N1) (e2 & E2 & N2). exists (e1 ++ e2).
    split; [now rewrite E2, E1, app_assoc|]. intros v [Hv|Hv]%in_app_or; [exact (N1 v Hv) | exact (N2 v Hv)].
Qed.

Lemma runs_in_modify_quiet f : (forall st, events (f st) = events st) -> runs_in quiet (py_modify f).
Proof. intros Hf. apply runs_in_modify. intros st. exists []. rewrite Hf, app_nil_r. split; [reflexivity | intros v []]. Qed.

Lemma runs_in_emit_quiet ev : (forall v, ev <> EvLog "val_loss" v) -> runs_in quiet (emit ev).
Proof.
  intros Hev. apply runs_in_modify. intros st. exists [ev]. split; [reflexivity|].
  intros v [E|[]]. exact (Hev v E).
Qed.

(** Close the leaves of a hook for [quiet]. *)
Ltac quiet_leaf :=
  first [ runs_in_leaf
        | apply runs_in_emit_quiet; intros ? ?; discriminate
        | apply runs_in_modify_quiet; intros ?; reflexivity ].

Lemma runs_in_run_visualize_quiet x labels y_pred p : runs_in quiet (run_visualize x labels y_pred p).
Proof. unfold run_visualize, savefig, check_writable, put_file. repeat first [rbind | case_match | quiet_leaf]. Qed.

Lemma runs_in_eval_step_quiet f w b i : runs_in quiet (eval_step log params f w b i).
Proof.
  destruct b. unfold eval_step.
  repeat first [apply runs_in_run_visualize_quiet | rbind | case_match | quiet_leaf].
Qed.

Lemma runs_in_training_step_quiet w b i : runs_in quiet (training_step log w b i).
Proof. destruct b. unfold training_step. repeat first [rbind | case_match | quiet_leaf]. Qed.

Lemma runs_in_training_epoch_end_quiet outs : runs_in quiet (training_epoch_end outs).
Proof. unfold training_epoch_end. repeat first [rbind | quiet_leaf]. Qed.


(** [validation_epoch_end] logs exactly one validation loss, its value,
    last. *)
Lemma validation_epoch_end_events w outs st st' v :
  validation_epoch_end params w outs st = (st', inr v) ->
  exists evs, events st' = events st ++ evs ++ [EvLog "val_loss" v] /\
    forall u, ~ In (EvLog "val_loss" u) evs.
Proof.
  unfold validation_epoch_end. intros Hr.
  apply bind_inr in Hr as (s1 & avg & Hl & Hr). pose proof (runs_in_lift eq _ _ _ _ _ Hl) as <-.
  apply bind_inr in Hr as (s2 & st0 & [= <- <-] & Hr).
  apply bind_inr in Hr as (s3 & [] & Hif & Hr).
  apply bind_inr in Hr as (s4 & [] & [= <-] & [= <- <-]).
  match type of Hif with ?m _ = _ => assert (runs_in quiet m) as Hq end.
  { repeat first [rbind | case_match | quiet_leaf |
      (eapply runs_in_mono; [|apply runs_in_save_checkpoints];
       intros ? ? (_ & _ & Ev & _); exists []; rewrite Ev, app_nil_r; split; [reflexivity | intros ? []])]. }
  destruct (Hq _ _ _ Hif) as (evs & E & N). exists evs. split; [|exact N].
  cbn [events]. now rewrite E, app_assoc.
Qed.

(** No logged validation loss lies below [best_loss]. *)
Definition best_below_logs (st : orch) : Prop :=
  forall v, In (EvLog "val_loss" v) (events st) -> py_lt v (best_loss st) = false.


(** *** Open [pyplot] figures *)

Definition same_figures (st st' : orch) : Prop := figures st' = figures st.

#[export] Instance same_figures_preorder : PreOrder same_figures.
Proof. unfold same_figures. split; [intros st; reflexivity | intros s1 s2 s3 E1 E2; congruence]. Qed.

(** Close the leaves of a statement that opens no figure. *)
Ltac figures_leaf :=
  first [ runs_in_leaf | apply runs_in_modify; intros ?; reflexivity ].

Lemma runs_in_save_checkpoints_figures w names :
  runs_in same_figures (save_checkpoints params w names).
Proof.
  induction names as [|n rest IH]; cbn [save_checkpoints]; [figures_leaf|].
  unfold open_wb, check_writable, getattr_state, t_save, put_file.
  repeat first [rbind | case_match | figures_leaf]. exact IH.
Qed.

Lemma runs_in_validation_epoch_end_figures w outs :
  runs_in same_figures (validation_epoch_end params w outs).
Proof.
  unfold validation_epoch_end, set_best_loss, emit.
  repeat first [rbind | case_match | figures_leaf | apply runs_in_save_checkpoints_figures].
Qed.

Lemma eval_step_figures f w b i st st' v :
  eval_step log params f w b i st = (st', inr v) -> figures st' = figures st.
Proof.
  destruct b as [x labels]. unfold eval_step.
  intros (s1 & l & Hl & (s2 & [] & Hv & [= <- _])%bind_inr)%bind_inr.
  pose proof (runs_in_lift same_figures _ _ _ _ _ Hl) as E1. unfold same_figures in E1.
  destruct (i =? 0)%Z; [apply OrchFacts.run_visualize_figures_ok in Hv | injection Hv as <-]; congruence.
Qed.


Lemma eval_step_loss f w b i st st' v :
  eval_step log params f w b i st = (st', inr v) -> batch_loss w b = Some v.
Proof.
  destruct b as [x labels]. unfold eval_step, batch_loss, py_lift. cbn [fst snd].
  destruct (BCE.loss _ _ _); [|discriminate].
  intros (s1 & l & [= <- <-] & (s2 & [] & _ & [= _ <-])%bind_inr)%bind_inr. reflexivity.
Qed.

Definition same_dirs (st st' : orch) : Prop := dirs st' = dirs st.

#[export] Instance same_dirs_preorder : PreOrder same_dirs.
Proof. unfold same_dirs. split; [intros st; reflexivity | intros s1 s2 s3 E1 E2; congruence]. Qed.

Lemma runs_in_validation_epoch_end_dirs w outs :
  runs_in same_dirs (validation_epoch_end params w outs).
Proof.
  unfold validation_epoch_end, set_best_loss. runs_in_auto;
    first [ apply runs_in_modify; intros st; reflexivity
          | eapply runs_in_mono; [|apply runs_in_emit]; intros ? ? (_ & D & _); exact D
          | eapply runs_in_mono; [|apply runs_in_save_checkpoints]; intros ? ? (_ & D & _); exact D ].
Qed.

Lemma training_step_ok w b i st :
  batch_loss w b <> None -> BCE.flatten (classifier w (fst b)) <> [] ->
  exists st' v, training_step log w b i st = (st', inr v).
Proof.
  destruct b as [x labels]. unfold batch_loss, training_step, py_lift. cbn [fst snd].
  destruct (BCE.loss _ _ _) as [l|]; [intros _ Hf | contradiction].
  unfold Qlist_max, Qlist_min. destruct (BCE.flatten _) as [|q qs]; [contradiction|].
  destruct (i =? 0)%Z; cbn; eauto.
Qed.

Lemma training_epoch_end_ok outs st : outs <> [] -> exists st', training_epoch_end outs st = (st', inr tt).
Proof. destruct outs; [contradiction|]. cbn. eauto. Qed.

Lemma writable_dirs st1 st2 p :
  dirs st1 = dirs st2 -> OrchFacts.writable st1 p -> OrchFacts.writable st2 p.
Proof. unfold OrchFacts.writable. intros ->. tauto. Qed.

Lemma validation_step_ok w b i st :
  batch_loss w b <> None ->
  (forall p e, visualize_predictions (fst b) (snd b) (classifier w (fst b)) p e false <> None) ->
  OrchFacts.writable st (path_join (save_path params) ["val_pred.png"]) ->
  exists st' v, validation_step log params w b i st = (st', inr v).
Proof.
  destruct b as [x labels]. unfold batch_loss, validation_step, eval_step, py_lift. cbn [fst snd].
  destruct (BCE.loss _ _ _) as [l|]; [intros _ Hv Hw | contradiction].
  rewrite (bind_ok _ _ _ _ _ (eq_refl : py_ret l st = (st, inr l))).
  destruct (i =? 0)%Z; [|cbn; eauto].
  assert (exists s2, run_visualize x labels (classifier w x)
                       (path_join (save_path params) ["val_pred.png"]) st = (s2, inr tt)) as (s2 & E2).
  { unfold run_visualize. rewrite (bind_ok _ _ _ _ _ (eq_refl : py_get st = (st, inr st))).
    destruct (visualize_predictions x labels _ _ _ false) as [[| p dpi fig | fig]|] eqn:E.
    - cbn. eauto.
    - apply visualize_saved_path in E as ->.
      rewrite (bind_ok _ _ _ _ _ (eq_refl : plt_subplots st = (open_figure st, inr tt))).
      assert (exists s1, savefig (path_join (save_path params) ["val_pred.png"]) fig (open_figure st)
                           = (s1, inr tt)) as (s1 & Es).
      { unfold savefig. rewrite (bind_ok _ _ _ _ _
          (OrchFacts.check_writable_ok _ _ (writable_dirs st (open_figure st) _ eq_refl Hw))). cbn. eauto. }
      rewrite (bind_ok _ _ _ _ _ Es). cbn. eauto.
    - cbn. eauto.
    - exfalso. exact (Hv _ _ E). }
  rewrite (bind_ok _ _ _ _ _ E2). cbn. eauto.
Qed.

Lemma validation_epoch_end_ok w outs st :
  outs <> [] -> (forall n, In n (model params) -> OrchFacts.checkpointable params w st n) ->
  exists st' v, validation_epoch_end params w outs st = (st', inr v).
Proof.
  intros Hne Hok. destruct outs as [|o outs]; [contradiction|].
  unfold validation_epoch_end, py_lift. cbn [stack_mean].
  unfold py_bind, py_ret, py_get. destruct (py_lt _ (best_loss st)).
  - cbn [set_best_loss emit py_modify].
    match goal with |- context [save_checkpoints _ w ?ns ?s2] =>
      destruct (OrchFacts.save_checkpoints_ok params w ns s2) as (st3 & Hrun & _) end.
    { intros n Hn. eapply OrchFacts.checkpointable_dirs; [|exact (Hok n Hn)]. reflexivity. }
    rewrite Hrun. cbn. eauto.
  - cbn. eauto.
Qed.

(** ** [best_loss] never increases *)

(** [best_loss] of [st'] is that of [st] or below it. *)
Definition best_le (st st' : orch) : Prop :=
  best_loss st' = best_loss st \/ py_lt (best_loss st') (best_loss st) = true.

#[export] Instance best_le_preorder : PreOrder best_le.
Proof.
  split; [intros st; now left|].
  intros s1 s2 s3 [E1|L1] [E2|L2]; [left; congruence | right; congruence |
    right; now rewrite E2 | right; eapply py_lt_trans; eassumption].
Qed.

Lemma runs_in_training_step_figures w b i : runs_in same_figures (training_step log w b i).
Proof. destruct b. unfold training_step, emit. repeat first [rbind | case_match | figures_leaf]. Qed.

Lemma runs_in_training_epoch_end_figures outs : runs_in same_figures (training_epoch_end outs).
Proof. unfold training_epoch_end, emit. repeat first [rbind | figures_leaf]. Qed.

(** [validation_epoch_end] is the only hook that writes [best_loss], and
    only to lower it. *)
Lemma validation_epoch_end_best_le w outs st st' v :
  validation_epoch_end params w outs st = (st', inr v) -> best_le st st'.
Proof.
  unfold validation_epoch_end. intros E.
  apply bind_inr in E as (s1 & avg & Hl & E).
  assert (s1 = st) as -> by (unfold py_lift, py_ret, py_raise in Hl; destruct (stack_mean outs); congruence).
  apply bind_inr in E as (s2 & st0 & [= <- <-] & E).
  apply bind_inr in E as (s3 & [] & Hif & E).
  apply bind_inr in E as (s4 & [] & [= <-] & [= <- _]). cbn [best_loss].
  destruct (py_lt avg (best_loss st)) eqn:Hlt; [|injection Hif as <-; now left].
  apply bind_inr in Hif as (s5 & [] & [= <-] & Hif).
  apply bind_inr in Hif as (s6 & [] & [= <-] & Hsave).
  destruct (runs_in_save_checkpoints _ _ _ _ _ Hsave) as (B & _).
  right. rewrite B. exact Hlt.
Qed.

End Hooks.
End HookFrames.
