(* ===== verification/Lifecycle.v ===== *)
(** * The training lifecycle (the Lightning driver of the hooks)

    The training-loop framework is not part of the repository; the spec
    (section 4.4) fixes the order in which it calls the hooks: per epoch,
    every [training_step] (the optimizer updating the weights after each),
    [training_epoch_end], every [validation_step], [validation_epoch_end],
    then the next epoch.  [fit] is that driver; [hook_step] is the state
    machine of single successful hook calls, and [fit] refines it.  The
    single-hook facts come from [HookFrames]; here they are composed along
    the driver's runs.  Proved here: checkpoint consistency and the
    monotone, minimal [best_loss] over every reachable state; the
    refinement of [fit] by a pure reference run that keeps the first best
    epoch; progress of [fit] (no hook raises) and liveness of
    checkpointing under stated conditions; the test phase [run_test]; no
    pyplot figure open in any reachable state; and [configure_optimizers]. *)

From stdpp Require Import base gmap strings.
From Stdlib Require Import String.
From Stdlib Require Import ZArith QArith List Lia.
From S2P Require Import Prelude Watershed Visualize Loss Paths Orchestrator HookFrames.
Import ListNotations.

Module Lifecycle.
Import Viz Orch PosixPath HookFrames.


Section Driver.
Context `{Network} `{Segmenter}.
Variable log : Q -> Q.
Variable params : config.
(** One optimizer step after [training_step] (configured by
    [configure_optimizers], external). *)
Variable opt_step : weights -> batch -> weights.

(** The relations of [HookFrames] at this module's [params] and [log]. *)
Local Abbreviation frame := (frame params).
Local Abbreviation saved_from := (saved_from params).
Local Abbreviation ckpt_consistent := (ckpt_consistent params).
Local Abbreviation batch_loss := (batch_loss log).

(** The training batches of an epoch, each followed by an optimizer step. *)
Fixpoint train_loop (w : weights) (bs : list (Z * batch)) : PyM (weights * list pyfloat) :=
  match bs with
  | [] => py_ret (w, [])
  | (i, b) :: rest =>
      loss <- training_step log w b i ;;
      r <- train_loop (opt_step w b) rest ;;
      py_ret (fst r, loss :: snd r)
  end.

(** The validation (or test) batches of an epoch. *)
Fixpoint eval_loop (step : weights -> batch -> Z -> PyM pyfloat) (w : weights)
    (bs : list (Z * batch)) : PyM (list pyfloat) :=
  match bs with
  | [] => py_ret []
  | (i, b) :: rest =>
      loss <- step w b i ;;
      losses <- eval_loop step w rest ;;
      py_ret (loss :: losses)
  end.

Definition next_epoch_state (st : orch) : orch :=
  mk_orch (best_loss st) (files st) (dirs st) (events st) (current_epoch st + 1) (figures st).

Definition next_epoch : PyM unit := py_modify next_epoch_state.

(** One epoch, in the order of the spec's section 4.4. *)
Definition run_epoch (w : weights) (train val : list batch) : PyM weights :=
  r <- train_loop w (enumerate train) ;;
  training_epoch_end (snd r) ;;
  vouts <- eval_loop (validation_step log params) (fst r) (enumerate val) ;;
  _ <- validation_epoch_end params (fst r) vouts ;;
  next_epoch ;;
  py_ret (fst r).

Fixpoint fit (epochs : nat) (w : weights) (train val : list batch) : PyM weights :=
  match epochs with
  | O => py_ret w
  | S n => w' <- run_epoch w train val ;; fit n w' train val
  end.

(** [trainer.test]: every [test_step], then [test_epoch_end] (spec section
    4.4: the test hooks are run once, like the validation ones). *)
Definition run_test (w : weights) (test : list batch) : PyM pyfloat :=
  losses <- eval_loop (test_step log params) w (enumerate test) ;;
  test_epoch_end losses.

(** The state machine: one successful hook call, or the end of an epoch. *)
Inductive hook_step : orch -> orch -> Prop :=
| hs_train_step w b i st st' v :
    training_step log w b i st = (st', inr v) -> hook_step st st'
| hs_train_end outs st st' :
    training_epoch_end outs st = (st', inr tt) -> hook_step st st'
| hs_val_step w b i st st' v :
    validation_step log params w b i st = (st', inr v) -> hook_step st st'
| hs_val_end w outs st st' v :
    validation_epoch_end params w outs st = (st', inr v) -> hook_step st st'
| hs_test_step w b i st st' v :
    test_step log params w b i st = (st', inr v) -> hook_step st st'
| hs_test_end outs st st' v :
    test_epoch_end outs st = (st', inr v) -> hook_step st st'
| hs_next_epoch st : hook_step st (next_epoch_state st).

Inductive star : orch -> orch -> Prop :=
| star_refl st : star st st
| star_step st1 st2 st3 : hook_step st1 st2 -> star st2 st3 -> star st1 st3.

(** ** Lemmas *)

Lemma star_trans st1 st2 st3 : star st1 st2 -> star st2 st3 -> star st1 st3.
Proof. induction 1; [auto | intros; eapply star_step; eauto]. Qed.

Lemma star_one st1 st2 : hook_step st1 st2 -> star st1 st2.
Proof. intros. eapply star_step; [eassumption | apply star_refl]. Qed.


Lemma train_loop_star w bs st st' r :
  train_loop w bs st = (st', inr r) -> star st st'.
Proof.
  revert w st r. induction bs as [|[i b] bs IH]; intros w st r; simpl.
  - intros [= <- _]. apply star_refl.
  - intros (s1 & v & H1 & (s2 & r2 & H2 & [= <- _])%bind_inr)%bind_inr.
    eapply star_step; [eapply hs_train_step; exact H1 | eapply IH; exact H2].
Qed.

Lemma eval_loop_star (step : weights -> batch -> Z -> PyM pyfloat) w bs st st' r :
  (forall w b i s s' v, step w b i s = (s', inr v) -> hook_step s s') ->
  eval_loop step w bs st = (st', inr r) -> star st st'.
Proof.
  intros Hstep. revert st r. induction bs as [|[i b] bs IH]; intros st r; simpl.
  - intros [= <- _]. apply star_refl.
  - intros (s1 & v & H1 & (s2 & r2 & H2 & [= <- _])%bind_inr)%bind_inr.
    eapply star_step; [eapply Hstep; exact H1 | eapply IH; exact H2].
Qed.

Lemma run_epoch_star w train val st st' w' :
  run_epoch w train val st = (st', inr w') -> star st st'.
Proof.
  unfold run_epoch.
  intros (s1 & r & H1 & (s2 & [] & H2 & (s3 & vo & H3 & (s4 & v4 & H4 &
          (s5 & [] & H5 & [= <- _])%bind_inr)%bind_inr)%bind_inr)%bind_inr)%bind_inr.
  eapply star_trans; [eapply train_loop_star; exact H1|].
  eapply star_step; [eapply hs_train_end; exact H2|].
  eapply star_trans; [eapply eval_loop_star; [|exact H3]; intros; eapply hs_val_step; eassumption|].
  eapply star_step; [eapply hs_val_end; exact H4|].
  unfold next_epoch, py_modify in H5. injection H5 as <-. apply star_one, hs_next_epoch.
Qed.

Lemma frame_next_epoch st : frame st (next_epoch_state st).
Proof. repeat split. exists []. now rewrite app_nil_r. Qed.

(** Every hook other than [validation_epoch_end] is a frame step. *)
Lemma hook_step_frame_or_val_end st st' :
  hook_step st st' ->
  frame st st' \/ exists w outs v, validation_epoch_end params w outs st = (st', inr v).
Proof.
  destruct 1 as [w b i st st' v E|outs st st' E|w b i st st' v E|w outs st st' v E|
                 w b i st st' v E|outs st st' v E|st].
  - left. exact (runs_in_training_step log params _ _ _ _ _ _ E).
  - left. exact (runs_in_training_epoch_end params _ _ _ _ E).
  - left. exact (runs_in_validation_step log params _ _ _ _ _ _ E).
  - right. eauto.
  - left. exact (runs_in_test_step log params _ _ _ _ _ _ E).
  - left. exact (runs_in_test_epoch_end params _ _ _ _ E).
  - left. apply frame_next_epoch.
Qed.

Lemma hook_step_quiet_or_val_end st st' :
  hook_step st st' ->
  (frame st st' /\ quiet st st') \/ exists w outs v, validation_epoch_end params w outs st = (st', inr v).
Proof.
  destruct 1 as [w b i st st' v E|outs st st' E|w b i st st' v E|w outs st st' v E|
                 w b i st st' v E|outs st st' v E|st].
  - left. exact (conj (runs_in_training_step log params _ _ _ _ _ _ E) (runs_in_training_step_quiet log _ _ _ _ _ _ E)).
  - left. exact (conj (runs_in_training_epoch_end params _ _ _ _ E) (runs_in_training_epoch_end_quiet _ _ _ _ E)).
  - left. exact (conj (runs_in_validation_step log params _ _ _ _ _ _ E) (runs_in_eval_step_quiet log params _ _ _ _ _ _ _ E)).
  - right. eauto.
  - left. exact (conj (runs_in_test_step log params _ _ _ _ _ _ E) (runs_in_eval_step_quiet log params _ _ _ _ _ _ _ E)).
  - left. exact (conj (runs_in_test_epoch_end params _ _ _ _ E) (runs_in_lift quiet _ _ _ _ _ E)).
  - left. split; [apply frame_next_epoch|]. exists []. split; [cbn; now rewrite app_nil_r | intros v []].
Qed.

Lemma hook_step_best_below st st' :
  relative_names (model params) -> hook_step st st' -> best_below_logs st -> best_below_logs st'.
Proof.
  intros Hrel Hs Hb u Hu. destruct (hook_step_quiet_or_val_end _ _ Hs) as [[F (evs & E & N)]|(w & outs & v & Ev)].
  - pose proof F as (B & _). rewrite B. apply Hb.
    rewrite E in Hu. apply in_app_or in Hu as [Hu|Hu]; [exact Hu | contradiction (N u Hu)].
  - destruct (validation_epoch_end_events params _ _ _ _ _ Ev) as (evs & E & N).
    destruct (validation_epoch_end_success params _ _ _ _ _ Hrel Ev) as (_ & _ & [[Hlt F]|(Hb' & Hlt & _)]);
      rewrite E in Hu; apply in_app_or in Hu as [Hu|[Hu|[[= <-]|[]]]%in_app_or];
      try contradiction (N u Hu).
    + pose proof F as (B & _). rewrite B. exact (Hb u Hu).
    + pose proof F as (B & _). now rewrite B.
    + rewrite Hb'. destruct (py_lt u v) eqn:Huv; [|reflexivity].
      pose proof (py_lt_trans _ _ _ Huv Hlt) as Ht. rewrite (Hb u Hu) in Ht. discriminate.
    + rewrite Hb'. apply py_lt_irrefl.
Qed.

(** A successful hook call leaves as many figures open as it found. *)
Lemma hook_step_figures st st' : hook_step st st' -> figures st' = figures st.
Proof.
  destruct 1 as [w b i st st' v E|outs st st' E|w b i st st' v E|w outs st st' v E|
                 w b i st st' v E|outs st st' v E|st].
  - exact (runs_in_training_step_figures _ _ _ _ _ _ _ E).
  - exact (runs_in_training_epoch_end_figures _ _ _ _ E).
  - exact (eval_step_figures log params _ _ _ _ _ _ _ E).
  - exact (runs_in_validation_epoch_end_figures params _ _ _ _ _ E).
  - exact (eval_step_figures log params _ _ _ _ _ _ _ E).
  - exact (runs_in_lift same_figures _ _ _ _ _ E).
  - reflexivity.
Qed.

Lemma hook_step_consistent st st' :
  relative_names (model params) -> hook_step st st' -> ckpt_consistent st -> ckpt_consistent st'.
Proof.
  intros Hrel [Hf|(w & outs & v & E)]%hook_step_frame_or_val_end; [now apply ckpt_consistent_frame|].
  destruct (validation_epoch_end_success params _ _ _ _ _ Hrel E) as (_ & Hin & [[_ Hf]|(Hb & _ & Hs)]).
  - now apply ckpt_consistent_frame.
  - intros _. right. rewrite Hb. split; [exact Hin | now exists w].
Qed.

Lemma star_consistent st st' :
  relative_names (model params) -> star st st' -> ckpt_consistent st -> ckpt_consistent st'.
Proof. intros Hrel. induction 1; eauto using hook_step_consistent. Qed.

Lemma fit_star epochs w train val st st' w' :
  fit epochs w train val st = (st', inr w') -> star st st'.
Proof.
  revert w st. induction epochs as [|k IH]; intros w st; cbn [fit].
  - intros [= <- _]. apply star_refl.
  - intros (s1 & w1 & H1 & H2)%bind_inr.
    eapply star_trans; [eapply run_epoch_star; exact H1 | eapply IH; exact H2].
Qed.

(** ** Refinement: [fit] checkpoints the first best epoch

    The reference below is pure: the weights after an epoch are the
    optimizer steps folded over the training batches, the validation mean
    of weights [w] is the mean of the BCE losses of the validation batches,
    and the run keeps the first epoch whose mean is strictly below the best
    so far.  [fit] refines it: its final [best_loss] and checkpoint files
    are those of the reference. *)


Definition val_mean (val : list batch) (w : weights) : option pyfloat :=
  match otraverse (batch_loss w) val with Some ls => stack_mean ls | None => None end.

(** The reference run: the best validation mean and the weights that
    reached it first. *)
Fixpoint best_run (train val : list batch) (epochs : nat) (w : weights) (best : pyfloat)
    (saved : option weights) : pyfloat * option weights :=
  match epochs with
  | O => (best, saved)
  | S k =>
      let w' := fold_left opt_step train w in
      match val_mean val w' with
      | Some v => if py_lt v best then best_run train val k w' v (Some w')
                  else best_run train val k w' best saved
      | None => (best, saved)
      end
  end.

(** The checkpoint files of [st] hold the weights [saved], or those of
    [st0] when nothing was saved. *)
Definition ckpt_state (st0 : orch) (saved : option weights) (st : orch) : Prop :=
  match saved with
  | Some ws => saved_from ws (model params) st
  | None => forall n, In n (model params) ->
              files st !! checkpoint_path params n = files st0 !! checkpoint_path params n
  end.

Lemma ckpt_state_frame st0 saved st st' :
  frame st st' -> ckpt_state st0 saved st -> ckpt_state st0 saved st'.
Proof.
  destruct saved as [ws|]; cbn [ckpt_state]; [apply saved_from_frame|].
  intros (_ & _ & _ & F) Hs n Hn. rewrite F by exact Hn. auto.
Qed.

Lemma runs_in_train_loop w bs : runs_in frame (train_loop w bs).
Proof.
  revert w. induction bs as [|[i b] bs IH]; intros w; cbn [train_loop]; [runs_in_leaf|].
  rbind; [apply runs_in_training_step|]. rbind; [apply IH | runs_in_leaf].
Qed.

Lemma train_loop_weights w bs st st' r :
  train_loop w bs st = (st', inr r) -> fst r = fold_left opt_step (map snd bs) w.
Proof.
  revert w st r. induction bs as [|[i b] bs IH]; intros w st r; cbn [train_loop map fold_left snd].
  - intros [= <- <-]. reflexivity.
  - intros (s1 & v & H1 & (s2 & r2 & H2 & [= <- <-])%bind_inr)%bind_inr. exact (IH _ _ _ H2).
Qed.


Lemma runs_in_eval_loop (R : relation orch) `{!PreOrder R} (step : weights -> batch -> Z -> PyM pyfloat) w bs :
  (forall w b i, runs_in R (step w b i)) -> runs_in R (eval_loop step w bs).
Proof.
  intros Hs. induction bs as [|[i b] bs IH]; cbn [eval_loop]; [apply runs_in_ret; exact _|].
  apply runs_in_bind; [exact _ | apply Hs | intros v].
  apply runs_in_bind; [exact _ | exact IH | intros vs; apply runs_in_ret; exact _].
Qed.

(** The losses an evaluation loop returns are those of its batches. *)
Lemma eval_loop_losses f w bs st st' ls :
  eval_loop (eval_step log params f) w bs st = (st', inr ls) ->
  otraverse (batch_loss w) (map snd bs) = Some ls.
Proof.
  revert st ls. induction bs as [|[i b] bs IH]; intros st ls; cbn [eval_loop map].
  - intros [= <- <-]. reflexivity.
  - intros (s1 & v & H1 & (s2 & r2 & H2 & [= <- <-])%bind_inr)%bind_inr.
    cbn [snd otraverse]. now rewrite (eval_step_loss log params _ _ _ _ _ _ _ H1), (IH _ _ H2).
Qed.

Lemma eval_loop_spec w bs st st' ls :
  eval_loop (validation_step log params) w bs st = (st', inr ls) ->
  otraverse (batch_loss w) (map snd bs) = Some ls /\ frame st st'.
Proof.
  intros E. split; [exact (eval_loop_losses _ _ _ _ _ _ E)|].
  exact (runs_in_eval_loop frame _ _ _ (runs_in_validation_step log params) _ _ _ E).
Qed.

(** One epoch against the reference: its weights, its validation mean,
    and whether it checkpointed. *)
Lemma run_epoch_spec w train val st st' w' :
  relative_names (model params) -> run_epoch w train val st = (st', inr w') ->
  w' = fold_left opt_step train w /\
  exists v, val_mean val w' = Some v /\
    ((py_lt v (best_loss st) = false /\ frame st st') \/
     (best_loss st' = v /\ py_lt v (best_loss st) = true /\ saved_from w' (model params) st')).
Proof.
  intros Hrel. unfold run_epoch.
  intros (s1 & r & H1 & (s2 & [] & H2 & (s3 & vo & H3 & (s4 & v & H4 &
          (s5 & [] & H5 & [= <- <-])%bind_inr)%bind_inr)%bind_inr)%bind_inr)%bind_inr.
  pose proof (train_loop_weights _ _ _ _ _ H1) as Hw. pose proof (runs_in_train_loop _ _ _ _ _ H1) as F1.
  unfold enumerate in Hw. rewrite map_snd_enum_from in Hw.
  pose proof (runs_in_training_epoch_end params _ _ _ _ H2) as F2.
  destruct (eval_loop_spec _ _ _ _ _ H3) as [Ho F3].
  unfold enumerate in Ho. rewrite map_snd_enum_from in Ho.
  unfold next_epoch, py_modify in H5. injection H5 as <-.
  pose proof (frame_next_epoch s4) as F5.
  assert (frame st s3) as F13 by (transitivity s1; [exact F1|]; transitivity s2; assumption).
  destruct (validation_epoch_end_success params _ _ _ _ _ Hrel H4) as (Hm & _ & Hc).
  split; [exact Hw|]. exists v. split; [unfold val_mean; rewrite Ho; exact Hm|].
  pose proof F13 as (B13 & _). rewrite B13 in Hc.
  destruct Hc as [[Hlt F4]|(Hb & Hlt & Hs)]; [left | right].
  - split; [exact Hlt|]. transitivity s3; [exact F13|]. transitivity s4; assumption.
  - split; [exact Hb|]. split; [exact Hlt|]. exact (saved_from_frame params _ _ _ F5 Hs).
Qed.

Lemma fit_best_run epochs w train val st0 st st' w' saved :
  relative_names (model params) -> ckpt_state st0 saved st ->
  fit epochs w train val st = (st', inr w') ->
  let '(b, o) := best_run train val epochs w (best_loss st) saved in
  best_loss st' = b /\ ckpt_state st0 o st'.
Proof.
  intros Hrel. revert w st saved. induction epochs as [|k IH]; intros w st saved Hc; cbn [fit best_run].
  - intros [= <- _]. split; [reflexivity | exact Hc].
  - intros (s1 & w1 & H1 & H2)%bind_inr.
    destruct (run_epoch_spec _ _ _ _ _ _ Hrel H1) as (<- & v & Hv & Hcase). rewrite Hv.
    destruct Hcase as [[Hlt F]|(Hb & Hlt & Hs)]; rewrite Hlt.
    + pose proof F as (B & _). rewrite <- B. apply (IH _ _ _ (ckpt_state_frame _ _ _ _ F Hc) H2).
    + rewrite <- Hb. exact (IH _ _ (Some _) Hs H2).
Qed.

(** ** Progress: when no hook raises

    [run_ready] collects what the hooks need: non-empty phases (for
    [t.stack]), batches whose loss is defined and whose first prediction
    is non-empty (for [y_pred.max()]), visualisation that does not raise,
    a writable figure path, and, for every configured sub-model, a
    slash-free attribute name whose checkpoint is not a directory, inside
    an existing [save_path/checkpoint].  The directories [d] never change. *)
Definition run_ready (train val : list batch) (d : gset string) : Prop :=
  train <> [] /\ val <> [] /\
  (forall w b, In b train ->
     batch_loss w b <> None /\ BCE.flatten (classifier w (fst b)) <> []) /\
  (forall w b, In b val -> batch_loss w b <> None /\
     forall p e, visualize_predictions (fst b) (snd b) (classifier w (fst b)) p e false <> None) /\
  (forall st, dirs st = d -> OrchFacts.writable st (path_join (save_path params) ["val_pred.png"])) /\
  path_join (save_path params) ["checkpoint"] ∈ d /\
  (forall n, In n (model params) ->
     no_slash n = true /\ (checkpoint_path params n ∉ d) /\ (forall w, module_state w n <> None)).




Lemma train_loop_ok w bs st :
  (forall w b, In b (map snd bs) -> batch_loss w b <> None /\ BCE.flatten (classifier w (fst b)) <> []) ->
  exists st' r, train_loop w bs st = (st', inr r) /\ length (snd r) = length bs.
Proof.
  revert w st. induction bs as [|[i b] bs IH]; intros w st Hb; [cbn; eauto|].
  destruct (Hb w b (or_introl eq_refl)) as [H1 H2].
  destruct (training_step_ok log w b i st H1 H2) as (s1 & v & E1).
  cbn [train_loop]. rewrite (bind_ok _ _ _ _ _ E1). cbv beta.
  match goal with |- context [train_loop ?w' bs] =>
    destruct (IH w' s1) as (s2 & r & E2 & L); [intros; apply Hb; now right|] end.
  rewrite (bind_ok _ _ _ _ _ E2).
  do 2 eexists. split; [reflexivity|]. cbn. now rewrite L.
Qed.



Lemma eval_loop_ok w bs st :
  (forall b, In b (map snd bs) -> batch_loss w b <> None /\
     forall p e, visualize_predictions (fst b) (snd b) (classifier w (fst b)) p e false <> None) ->
  OrchFacts.writable st (path_join (save_path params) ["val_pred.png"]) ->
  exists st' ls, eval_loop (validation_step log params) w bs st = (st', inr ls) /\
    length ls = length bs.
Proof.
  revert st. induction bs as [|[i b] bs IH]; intros st Hb Hw; [cbn; eauto|].
  destruct (Hb b (or_introl eq_refl)) as [H1 H2].
  destruct (validation_step_ok log params w b i st H1 H2 Hw) as (s1 & v & E1).
  pose proof (runs_in_validation_step log params _ _ _ _ _ _ E1) as (_ & D1 & _).
  destruct (IH s1) as (s2 & ls & E2 & L);
    [intros; apply Hb; now right | exact (writable_dirs _ _ _ (eq_sym D1) Hw)|].
  cbn [eval_loop]. rewrite (bind_ok _ _ _ _ _ E1), (bind_ok _ _ _ _ _ E2).
  do 2 eexists. split; [reflexivity|]. cbn. now rewrite L.
Qed.


Lemma checkpointable_ready train val d w st :
  run_ready train val d -> dirs st = d ->
  forall n, In n (model params) -> OrchFacts.checkpointable params w st n.
Proof.
  intros (_ & _ & _ & _ & _ & Hdir & Hn) Hd n Hin. destruct (Hn n Hin) as (Hs & Hc & Hm).
  split; [now apply no_slash_start|]. split; [|apply Hm].
  split; [now rewrite Hd|]. right. rewrite (OrchFacts.checkpoint_dirname params n Hs), Hd. exact Hdir.
Qed.

Lemma length_enumerate_nonempty {A} (l : list A) : l <> [] -> length (enumerate l) <> 0%nat.
Proof. destruct l; [contradiction | discriminate]. Qed.

Lemma nonempty_of_length {A B} (l : list A) (l' : list B) :
  length l = length l' -> length l' <> 0%nat -> l <> [].
Proof. intros E Hn ->. apply Hn. now rewrite <- E. Qed.

Lemma run_epoch_ok w train val st d :
  run_ready train val d -> dirs st = d ->
  exists st' w', run_epoch w train val st = (st', inr w') /\ dirs st' = d.
Proof.
  intros Hr Hd. pose proof Hr as (Ht & Hv & Htr & Hva & Hfig & _).
  destruct (train_loop_ok w (enumerate train) st) as (s1 & r & E1 & L1).
  { unfold enumerate. rewrite map_snd_enum_from. exact Htr. }
  pose proof (runs_in_train_loop _ _ _ _ _ E1) as (_ & D1 & _).
  destruct (training_epoch_end_ok (snd r) s1) as (s2 & E2).
  { exact (nonempty_of_length _ _ L1 (length_enumerate_nonempty _ Ht)). }
  pose proof (runs_in_training_epoch_end params _ _ _ _ E2) as (_ & D2 & _).
  destruct (eval_loop_ok (fst r) (enumerate val) s2) as (s3 & ls & E3 & L3).
  { unfold enumerate. rewrite map_snd_enum_from. intros b Hb. exact (Hva (fst r) b Hb). }
  { apply Hfig. congruence. }
  destruct (eval_loop_spec _ _ _ _ _ E3) as [_ (_ & D3 & _)].
  destruct (validation_epoch_end_ok params (fst r) ls s3) as (s4 & v & E4).
  { exact (nonempty_of_length _ _ L3 (length_enumerate_nonempty _ Hv)). }
  { apply (checkpointable_ready train val d); [exact Hr | congruence]. }
  pose proof (runs_in_validation_epoch_end_dirs params _ _ _ _ _ E4) as D4. unfold same_dirs in D4.
  exists (next_epoch_state s4), (fst r). split.
  - unfold run_epoch. rewrite (bind_ok _ _ _ _ _ E1), (bind_ok _ _ _ _ _ E2),
      (bind_ok _ _ _ _ _ E3), (bind_ok _ _ _ _ _ E4). reflexivity.
  - cbn. congruence.
Qed.

Lemma fit_ok epochs w train val st d :
  run_ready train val d -> dirs st = d ->
  exists st' w', fit epochs w train val st = (st', inr w').
Proof.
  intros Hr. revert w st. induction epochs as [|k IH]; intros w st Hd; [cbn; eauto|].
  destruct (run_epoch_ok w train val st d Hr Hd) as (s1 & w1 & E1 & D1).
  destruct (IH w1 s1 D1) as (st' & w' & E2).
  cbn [fit]. rewrite (bind_ok _ _ _ _ _ E1). eauto.
Qed.

Lemma val_mean_Fin val w :
  val <> [] -> (forall b, In b val -> exists q, batch_loss w b = Some (Fin q)) ->
  exists q, val_mean val w = Some (Fin q).
Proof.
  intros Hne Hf. destruct (otraverse_Some (batch_loss w) val) as (ls & Ho & HF).
  { intros b Hb. destruct (Hf b Hb) as [q Hq]. eauto. }
  unfold val_mean. rewrite Ho. apply stack_mean_Fin.
  - apply Forall2_length in HF. intros ->. destruct val; [contradiction | discriminate].
  - clear Hne Ho. revert Hf. induction HF as [|b y bs ys Hy _ IH]; intros Hf; constructor.
    + destruct (Hf b (or_introl eq_refl)) as [q Hq]. exists q. congruence.
    + apply IH. intros; apply Hf; now right.
Qed.

Lemma best_run_fin train val k w q ws :
  (forall w, exists q, val_mean val w = Some (Fin q)) ->
  exists q' ws', best_run train val k w (Fin q) (Some ws) = (Fin q', Some ws').
Proof.
  intros Hm. revert w q ws. induction k as [|k IH]; intros w q ws; cbn [best_run]; [eauto|].
  destruct (Hm (fold_left opt_step train w)) as [v ->]. destruct (py_lt _ _); apply IH.
Qed.

(** With finite validation means the first epoch beats [inf]: from then on
    a checkpoint exists. *)
Lemma best_run_live train val epochs w :
  (forall w, exists q, val_mean val w = Some (Fin q)) -> epochs <> 0%nat ->
  exists q ws, best_run train val epochs w Inf None = (Fin q, Some ws).
Proof.
  intros Hm Hn. destruct epochs as [|k]; [contradiction|]. cbn [best_run].
  destruct (Hm (fold_left opt_step train w)) as [v ->]. cbn [py_lt]. now apply best_run_fin.
Qed.

Lemma ready_relative train val d : run_ready train val d -> relative_names (model params).
Proof. intros (_ & _ & _ & _ & _ & _ & Hn) n Hin. apply no_slash_start, (Hn n Hin). Qed.


(** ** [best_loss] never increases *)

Lemma hook_step_best_le st st' : hook_step st st' -> best_le st st'.
Proof.
  intros [(B & _)|(w & outs & v & E)]%hook_step_frame_or_val_end; [now left|].
  exact (validation_epoch_end_best_le _ _ _ _ _ _ E).
Qed.

(** ** Theorems *)

(** C22: The same invariant holds after any sequence of successful hook
    calls in any order, test hooks and epoch ends included. *)
Theorem reachable_checkpoint_consistent d st :
  relative_names (model params) -> star (init_orch d) st -> ckpt_consistent st.
Proof. intros Hrel Hs. exact (star_consistent _ _ Hrel Hs (ckpt_consistent_init params d)). Qed.

(** C23: Along any sequence of successful hook calls [best_loss] never
    increases: it stays, or it is replaced by a strictly smaller value. *)
Theorem star_best_nonincreasing st st' : star st st' -> best_le st st'.
Proof.
  induction 1 as [st|s1 s2 s3 Hs _ IH]; [reflexivity|].
  transitivity s2; [exact (hook_step_best_le _ _ Hs) | exact IH].
Qed.

(** C30: Along any sequence of successful hook calls from a fresh module no
    logged validation loss is below [best_loss]; with the checkpoint invariant, which shows
    that [best_loss] is [inf] or itself logged, [best_loss] is the minimum
    of the logged validation losses. *)
Theorem reachable_best_below_logs d st :
  relative_names (model params) -> star (init_orch d) st -> best_below_logs st.
Proof.
  intros Hrel Hs. assert (best_below_logs (init_orch d)) as Hinit by (intros v []).
  revert Hinit. induction Hs as [st|s1 s2 s3 Hstep _ IH]; [auto|].
  intros H1. apply IH. exact (hook_step_best_below _ _ Hrel Hstep H1).
Qed.

(** C33: The test phase: when [trainer.test] returns, its value is the mean of
    the BCE losses of the test batches under the given weights, and it has
    left [best_loss], the directories and every checkpoint file unchanged
    and logged no validation loss. *)
Theorem run_test_spec w test st st' v :
  run_test w test st = (st', inr v) ->
  val_mean test w = Some v /\ frame st st' /\ quiet st st'.
Proof.
  unfold run_test. intros (s1 & ls & E1 & E2)%bind_inr.
  unfold test_epoch_end, py_lift in E2.
  destruct (stack_mean ls) as [m|] eqn:Hm; [injection E2 as <- <- | discriminate].
  pose proof (eval_loop_losses _ _ _ _ _ _ E1) as Ho.
  unfold enumerate in Ho. rewrite map_snd_enum_from in Ho.
  split; [unfold val_mean; now rewrite Ho|].
  split; [exact (runs_in_eval_loop frame _ _ _ (runs_in_test_step log params) _ _ _ E1)|].
  exact (runs_in_eval_loop quiet _ _ _ (runs_in_eval_step_quiet log params _) _ _ _ E1).
Qed.

(** C34: No figure leaks along a successful run: in every state reached from
    a fresh module by successful hook calls, no [pyplot] figure is open
    (only a raising visualisation leaves one open, see [run_visualize_figures]). *)
Theorem reachable_no_open_figures d st : star (init_orch d) st -> figures st = 0%nat.
Proof.
  assert (forall s1 s2, star s1 s2 -> figures s2 = figures s1) as Hs.
  { induction 1 as [s|s1 s2 s3 H12 _ IH]; [reflexivity|]. rewrite IH. exact (hook_step_figures _ _ H12). }
  intros Hst. rewrite (Hs _ _ Hst). reflexivity.
Qed.

(** C25: Refinement of the checkpoint contract (spec section 4.4 and the
    Checkpoint entity): when [fit] returns from a fresh module, [best_loss]
    is the best validation mean of the reference run and every configured
    sub-model's checkpoint holds the [state_dict] of the weights of the
    first epoch that reached it, or no checkpoint exists when no epoch beat
    [inf]. *)
Theorem fit_refines_best_epoch epochs w train val d st' w' :
  relative_names (model params) ->
  fit epochs w train val (init_orch d) = (st', inr w') ->
  let '(b, o) := best_run train val epochs w Inf None in
  best_loss st' = b /\
  forall n, In n (model params) ->
    files st' !! checkpoint_path params n =
    match o with Some ws => option_map FileState (module_state ws n) | None => None end.
Proof.
  intros Hrel E.
  pose proof (fit_best_run epochs w train val (init_orch d) _ _ _ None Hrel (fun _ _ => eq_refl) E)
    as Hr.
  cbn [best_loss init_orch] in Hr.
  destruct (best_run train val epochs w Inf None) as [b [ws|]]; destruct Hr as [Hb Hc];
    (split; [exact Hb|]); intros n Hn.
  - destruct (Hc n Hn) as (sd & Hs & Hf). now rewrite Hf, Hs.
  - rewrite (Hc n Hn). apply lookup_empty.
Qed.

(** C26: Progress of a training run: when the phases are non-empty, the
    losses are defined, visualisation does not raise, and the figure and
    checkpoint paths can be opened, [fit] returns after any number of
    epochs: no hook raises. *)
Theorem fit_progress epochs w train val d :
  run_ready train val d -> exists st' w', fit epochs w train val (init_orch d) = (st', inr w').
Proof. intros Hr. exact (fit_ok epochs w train val (init_orch d) d Hr eq_refl). Qed.

(** C27: Liveness of checkpointing: under the same conditions, with finite
    validation losses and at least one epoch, the run returns with a finite
    [best_loss] and every configured sub-model checkpointed from one set of
    weights. *)
Theorem fit_eventually_checkpoints epochs w train val d :
  run_ready train val d ->
  (forall w b, In b val -> exists q, batch_loss w b = Some (Fin q)) ->
  epochs <> 0%nat ->
  exists st' w' ws q, fit epochs w train val (init_orch d) = (st', inr w') /\
    best_loss st' = Fin q /\ saved_from ws (model params) st'.
Proof.
  intros Hr Hfin Hep. pose proof Hr as (_ & Hv & _).
  destruct (fit_ok epochs w train val (init_orch d) d Hr eq_refl) as (st' & w' & E).
  pose proof (fit_best_run epochs w train val (init_orch d) _ _ _ None (ready_relative _ _ _ Hr)
                (fun _ _ => eq_refl) E) as Hb.
  cbn [best_loss init_orch] in Hb.
  destruct (best_run_live train val epochs w) as (q & ws & Ebr);
    [intros w0; exact (val_mean_Fin val w0 Hv (Hfin w0)) | exact Hep |].
  rewrite Ebr in Hb. destruct Hb as [Hb Hs]. exists st', w', ws, q. auto.
Qed.

End Driver.

(** ** [configure_optimizers] (lines 238-241)

    The hook hands [self.params.configure_optimizers] and the classifier to
    the external factory [mate.Optimizer] and returns the optimizer it
    builds; Lightning calls it once before the first epoch and applies the
    optimizer's step after every training step.  The factory and the
    update rule are not in the repository: they are the class
    [OptimizerFactory], and the step is what [fit] receives as [opt_step]. *)
Class OptimizerFactory `{Network} := {
  opt_params : Type;
  mate_optimizer : opt_params -> weights -> batch -> weights
}.

Definition configure_optimizers `{OptimizerFactory} (p : opt_params) : weights -> batch -> weights :=
  mate_optimizer p.

(** [Trainer.fit]: the optimizer comes from [configure_optimizers]. *)
Definition trainer_fit `{OptimizerFactory} `{Segmenter} (log : Q -> Q) (params : config)
    (p : opt_params) (epochs : nat) (w : weights) (train val : list batch) : PyM weights :=
  fit log params (configure_optimizers p) epochs w train val.

End Lifecycle.

Module LifecycleExamples.
Import Viz Orch HookFrames Lifecycle StubNetwork StubSegmenter.

Definition cfg : config := mk_config "runs" ["classifier"].
Definition dirs0 : gset string := {["runs"; "runs/checkpoint"]}.
Definition zero_log : Q -> Q := fun _ => 0.
(** A stand-in for [mate.Optimizer]: each step adds the configured rate to
    the weights. *)
#[local] Instance add_rate : OptimizerFactory := {
  opt_params := Z;
  mate_optimizer := fun rate w _ => (w + rate)%Z
}.

Definition next_weights : weights -> batch -> weights := configure_optimizers (1%Z : opt_params).

(** One sample of one channel of [1 x 2] pixels; the stub classifier is
    the identity, so the prediction equals the label. *)
Definition one_batch : batch := ([[[[1; 0]]]], [[[[1; 0]]]]).

Definition run2 : orch * (exn + weights) :=
  trainer_fit zero_log cfg (1%Z : opt_params) 2 (0%Z : weights) [one_batch] [one_batch] (init_orch dirs0).

Lemma cfg_relative : relative_names (model cfg).
Proof. intros n [<-|[]]. reflexivity. Qed.

Lemma reachable_checkpoint_consistent_witness :
  relative_names (model cfg) /\
  exists st', star zero_log cfg (init_orch dirs0) st' /\ ckpt_consistent cfg st'.
Proof.
  split; [exact cfg_relative|].
  destruct run2 as [st' [e|w']] eqn:E; [exfalso; vm_compute in E; discriminate E|].
  assert (star zero_log cfg (init_orch dirs0) st') as Hs by exact (fit_star _ _ _ _ _ _ _ _ _ _ E).
  exists st'. split; [exact Hs|].
  exact (reachable_checkpoint_consistent zero_log cfg dirs0 st' cfg_relative Hs).
Defined.

Lemma reachable_best_below_logs_witness :
  relative_names (model cfg) /\
  exists st', star zero_log cfg (init_orch dirs0) st' /\ best_below_logs st'.
Proof.
  split; [exact cfg_relative|].
  destruct run2 as [st' [e|w']] eqn:E; [exfalso; vm_compute in E; discriminate E|].
  assert (star zero_log cfg (init_orch dirs0) st') as Hs by exact (fit_star _ _ _ _ _ _ _ _ _ _ E).
  exists st'. split; [exact Hs|].
  exact (reachable_best_below_logs zero_log cfg dirs0 st' cfg_relative Hs).
Defined.

Lemma reachable_no_open_figures_witness :
  exists st', star zero_log cfg (init_orch dirs0) st' /\ figures st' = 0%nat.
Proof.
  destruct run2 as [st' [e|w']] eqn:E; [exfalso; vm_compute in E; discriminate E|].
  assert (star zero_log cfg (init_orch dirs0) st') as Hs by exact (fit_star _ _ _ _ _ _ _ _ _ _ E).
  exists st'. split; [exact Hs|]. exact (reachable_no_open_figures zero_log cfg dirs0 st' Hs).
Defined.

Lemma star_best_nonincreasing_witness :
  exists st', star zero_log cfg (init_orch dirs0) st' /\ best_le (init_orch dirs0) st'.
Proof.
  destruct run2 as [st' [e|w']] eqn:E; [exfalso; vm_compute in E; discriminate E|].
  assert (star zero_log cfg (init_orch dirs0) st') as Hs by exact (fit_star _ _ _ _ _ _ _ _ _ _ E).
  exists st'. split; [exact Hs|]. exact (star_best_nonincreasing zero_log cfg _ _ Hs).
Defined.

(** Two epochs on the same batch (spec section 4.4 and property 5): the
    first epoch's validation loss beats [inf], so the classifier is
    checkpointed with the weights after one optimizer step; the second
    epoch's equal loss is not strictly smaller, so the checkpoint keeps
    those weights while training goes on; the events are printed in hook
    order (each loss is the exact quotient [0 / 2] of the BCE sum over
    the two pixels by their count). *)
Example fit_two_epochs_keeps_first_best :
  let '(st, r) := run2 in
  r = inr (2%Z : weights) /\ best_loss st =f Fin 0 /\
  files st !! "runs/checkpoint/classifier.pt"%string = Some (FileState (1%Z : state_dict)) /\
  events st = [EvPrintRange 1 0; EvLog "train_loss" (Fin (0 / 2)); EvPrintNewBest;
               EvLog "val_loss" (Fin (0 / 2)); EvPrintRange 1 0;
               EvLog "train_loss" (Fin (0 / 2)); EvLog "val_loss" (Fin (0 / 2))].
Proof. vm_compute. repeat split; reflexivity. Qed.

Definition cfg_typo : config := mk_config "runs" ["classifier"; "clasifier"].

(** The invariant does not survive an exception inside the checkpoint
    loop: from a consistent state, a configured name that is not an
    attribute raises [AttributeError] after [best_loss] was lowered, the
    classifier's file was rewritten and the misspelt name's file created
    empty, and no weights explain the checkpoint files any more. *)
Example attribute_error_breaks_consistency :
  ckpt_consistent cfg_typo (init_orch dirs0) /\
  let '(st', r) := validation_epoch_end cfg_typo (7%Z : weights) [Fin (1#2)] (init_orch dirs0) in
  r = inl (ExcAttribute "clasifier") /\
  files st' !! "runs/checkpoint/clasifier.pt"%string = Some FileEmpty /\
  ~ ckpt_consistent cfg_typo st'.
Proof.
  split; [apply ckpt_consistent_init|].
  destruct (validation_epoch_end _ _ _ _) as [st' r] eqn:E. vm_compute in E.
  injection E as <- <-. split; [reflexivity|]. split; [reflexivity|].
  intros [[Hb _]|[_ [w Hw]]]; [discriminate Hb|].
  destruct (Hw "clasifier"%string) as (sd & Hs & _); [right; left; reflexivity | discriminate Hs].
Qed.

Lemma fit_refines_best_epoch_witness :
  relative_names (model cfg) /\
  exists st' w', run2 = (st', inr w') /\
  let '(b, o) := best_run zero_log next_weights [one_batch] [one_batch] 2 0%Z Inf None in
  best_loss st' = b /\
  forall n, In n (model cfg) ->
    files st' !! checkpoint_path cfg n =
    match o with Some ws => option_map FileState (module_state ws n) | None => None end.
Proof.
  split; [exact cfg_relative|].
  destruct run2 as [st' [e|w']] eqn:E; [exfalso; vm_compute in E; discriminate E|].
  exists st', w'. split; [reflexivity|].
  exact (fit_refines_best_epoch zero_log cfg next_weights 2 0%Z _ _ dirs0 st' w' cfg_relative E).
Defined.

Lemma one_batch_ready : run_ready zero_log cfg [one_batch] [one_batch] dirs0.
Proof.
  split; [discriminate|]. split; [discriminate|].
  split; [intros w b [<-|[]]; split; vm_compute; discriminate|].
  split; [intros w b [<-|[]]; split; [vm_compute; discriminate | intros p e; vm_compute; discriminate]|].
  split.
  { intros st Hd. unfold OrchFacts.writable. rewrite Hd.
    split; [apply (bool_decide_unpack _); vm_compute; reflexivity|].
    right. apply (bool_decide_unpack _). vm_compute. reflexivity. }
  split; [apply (bool_decide_unpack _); vm_compute; reflexivity|].
  intros n [<-|[]]. split; [reflexivity|]. split.
  - apply (bool_decide_unpack _). vm_compute. reflexivity.
  - intros w. discriminate.
Qed.

Lemma fit_progress_witness :
  run_ready zero_log cfg [one_batch] [one_batch] dirs0 /\
  exists st' w', fit zero_log cfg next_weights 3 (0%Z : weights) [one_batch] [one_batch]
                   (init_orch dirs0) = (st', inr w').
Proof.
  split; [exact one_batch_ready|].
  exact (fit_progress zero_log cfg next_weights 3 0%Z [one_batch] [one_batch] dirs0 one_batch_ready).
Defined.

Lemma fit_eventually_checkpoints_witness :
  run_ready zero_log cfg [one_batch] [one_batch] dirs0 /\
  (forall w b, In b [one_batch] -> exists q, batch_loss zero_log w b = Some (Fin q)) /\
  2%nat <> 0%nat /\
  exists st' w' ws q, fit zero_log cfg next_weights 2 (0%Z : weights) [one_batch] [one_batch]
                        (init_orch dirs0) = (st', inr w') /\
    best_loss st' = Fin q /\ saved_from cfg ws (model cfg) st'.
Proof.
  assert (forall w b, In b [one_batch] -> exists q, batch_loss zero_log w b = Some (Fin q)) as Hfin.
  { intros w b [<-|[]]. vm_compute. eexists. reflexivity. }
  split; [exact one_batch_ready|]. split; [exact Hfin|]. split; [discriminate|].
  exact (fit_eventually_checkpoints zero_log cfg next_weights 2 0%Z [one_batch] [one_batch] dirs0
           one_batch_ready Hfin ltac:(discriminate)).
Defined.

Lemma run_test_spec_witness :
  exists st' v, run_test zero_log cfg (0%Z : weights) [one_batch] (init_orch dirs0) = (st', inr v) /\
    val_mean zero_log [one_batch] (0%Z : weights) = Some v /\
    frame cfg (init_orch dirs0) st' /\ quiet (init_orch dirs0) st'.
Proof.
  destruct (run_test zero_log cfg (0%Z : @weights stub_network) [one_batch] (init_orch dirs0)) as [st' [e|v]] eqn:E;
    [exfalso; vm_compute in E; discriminate E|].
  exists st', v. split; [reflexivity|].
  exact (run_test_spec zero_log cfg _ _ _ _ _ E).
Defined.

End LifecycleExamples.
